(** * Newsletter backend: subscribe, unsubscribe and publish fan-out

    A shallow embedding of the two server files of the repository,
    [src/index.js] (module [IndexJs]) and the revised server
    [src/unnamed/part_000] (module [Part000]), and the properties of the
    specification proved or refuted on them.

    The Express handlers are embedded as programs in a small state and
    exception monad [M].  The state holds the two MongoDB collections, the
    trace of effects of the call (documents written, mails handed to the
    transport) and the counters that index the answers of the outside
    world.  The outside world (transport outcomes, store faults, the clock)
    is a parameter [World] of every run, so a theorem that quantifies over
    it holds for every behaviour of the collaborators.

    Modelling conventions.
    - A string is held as the bytes of its UTF-8 encoding (a lone
      surrogate as the three bytes of its code point), the encoding in
      which the source files and the literals of this file are written.
      [utf16Length] is the [length] of JavaScript, in UTF-16 code units,
      and [trim] strips the white space and the line terminators of
      ECMAScript.  [toLowerCase] is a parameter, the class [Engine]: the
      Unicode tables of the engine are not in the repository; the three
      facts on it that some properties use are the hypothesis [Lawful].
    - A request field is a [Value]: undefined, null, a string, or any other
      JavaScript value, kept by the two observations the handlers make of
      it (its truthiness and its string conversion).
    - Mongoose casting of stored fields is not modelled: a document keeps
      the values the handler passed to [create].  The [_id] of a post is
      its rank of creation, which stands for the ObjectId that the store
      assigns; the listings project it away.
    - The upload middleware of the publish route is the event
      [FileStored]: multer writes the file part [attachment] before the
      handler runs.  A request with a file part of another name, which
      multer refuses, is not modelled.
    - The pacing delay between two sends of the fan-out has no effect on
      the state and is left out. *)

From Stdlib Require Import String Ascii List Arith NArith Bool Lia DecimalString.
From Stdlib Require Import Permutation Sorted.
Import ListNotations.
Open Scope string_scope.
Open Scope list_scope.

(* ================================================================== *)
(** * Strings *)

(** The double quote and the line feed, which the templates contain. *)
Definition dq : string := String (ascii_of_nat 34) EmptyString.
Definition nl : string := String (ascii_of_nat 10) EmptyString.

(** A template literal is the concatenation of its pieces. *)
Definition cat (pieces : list string) : string :=
  fold_right append EmptyString pieces.

(** [String.prototype.includes]. *)
Fixpoint includes (s sub : string) : bool :=
  if prefix sub s then true
  else match s with
       | EmptyString => false
       | String _ rest => includes rest sub
       end.

(** The string of the bytes [bytes]. *)
Definition utf8 (bytes : list nat) : string :=
  string_of_list_ascii (map ascii_of_nat bytes).

(** The code points that [String.prototype.trim] strips, in UTF-8: the
    WhiteSpace and the LineTerminator of ECMAScript. *)
Definition whiteSpace : list string :=
  [ utf8 [9];              (* U+0009 CHARACTER TABULATION *)
    utf8 [10];             (* U+000A LINE FEED *)
    utf8 [11];             (* U+000B LINE TABULATION *)
    utf8 [12];             (* U+000C FORM FEED *)
    utf8 [13];             (* U+000D CARRIAGE RETURN *)
    utf8 [32];             (* U+0020 SPACE *)
    utf8 [194; 160];       (* U+00A0 NO-BREAK SPACE *)
    utf8 [225; 154; 128];  (* U+1680 OGHAM SPACE MARK *)
    utf8 [226; 128; 128];  (* U+2000 EN QUAD *)
    utf8 [226; 128; 129];  (* U+2001 EM QUAD *)
    utf8 [226; 128; 130];  (* U+2002 EN SPACE *)
    utf8 [226; 128; 131];  (* U+2003 EM SPACE *)
    utf8 [226; 128; 132];  (* U+2004 THREE-PER-EM SPACE *)
    utf8 [226; 128; 133];  (* U+2005 FOUR-PER-EM SPACE *)
    utf8 [226; 128; 134];  (* U+2006 SIX-PER-EM SPACE *)
    utf8 [226; 128; 135];  (* U+2007 FIGURE SPACE *)
    utf8 [226; 128; 136];  (* U+2008 PUNCTUATION SPACE *)
    utf8 [226; 128; 137];  (* U+2009 THIN SPACE *)
    utf8 [226; 128; 138];  (* U+200A HAIR SPACE *)
    utf8 [226; 128; 168];  (* U+2028 LINE SEPARATOR *)
    utf8 [226; 128; 169];  (* U+2029 PARAGRAPH SEPARATOR *)
    utf8 [226; 128; 175];  (* U+202F NARROW NO-BREAK SPACE *)
    utf8 [226; 129; 159];  (* U+205F MEDIUM MATHEMATICAL SPACE *)
    utf8 [227; 128; 128];  (* U+3000 IDEOGRAPHIC SPACE *)
    utf8 [239; 187; 191]   (* U+FEFF ZERO WIDTH NO-BREAK SPACE *) ].

(** The number of bytes of the one of [spaces] that [s] starts with, and
    0 when it starts with none. *)
Definition spaceAt (spaces : list string) (s : string) : nat :=
  match find (fun w => prefix w s) spaces with
  | Some w => String.length w
  | None => 0
  end.

(** [s] without the [spaces] it starts with; [skip] is the number of
    bytes still to drop of the one being dropped. *)
Fixpoint dropSpaces (spaces : list string) (skip : nat) (s : string) : string :=
  match s with
  | EmptyString => EmptyString
  | String _ rest =>
      match skip with
      | S k => dropSpaces spaces k rest
      | 0 =>
          match spaceAt spaces s with
          | 0 => s
          | S k => dropSpaces spaces k rest
          end
      end
  end.

(** The bytes of [s] from the last to the first. *)
Definition reverse (s : string) : string :=
  string_of_list_ascii (rev (list_ascii_of_string s)).

(** [String.prototype.trimStart] and [String.prototype.trimEnd]. *)
Definition trimStart (s : string) : string := dropSpaces whiteSpace 0 s.

Definition trimEnd (s : string) : string :=
  reverse (dropSpaces (map reverse whiteSpace) 0 (reverse s)).

(** [String.prototype.trim]. *)
Definition trim (s : string) : string := trimEnd (trimStart s).

(** [s.length]: the number of UTF-16 code units.  A code point takes one
    unit, and two when it is above U+FFFF, which is when its UTF-8
    encoding starts with a byte from 240 on; the bytes from 128 to 191
    continue a code point. *)
Fixpoint utf16Length (s : string) : nat :=
  match s with
  | EmptyString => 0
  | String c rest =>
      let b := nat_of_ascii c in
      (if (128 <=? b) && (b <? 192) then 0 else if 240 <=? b then 2 else 1)%nat
      + utf16Length rest
  end.

(** The strings of ASCII characters. *)
Definition isAscii (s : string) : bool :=
  forallb (fun c => (nat_of_ascii c <? 128)%nat) (list_ascii_of_string s).

Definition lowerChar (c : ascii) : ascii :=
  let n := nat_of_ascii c in
  if ((65 <=? n) && (n <=? 90))%nat then ascii_of_nat (n + 32) else c.

(** The folding of the letters A to Z. *)
Fixpoint asciiLowerCase (s : string) : string :=
  match s with
  | EmptyString => EmptyString
  | String c rest => String (lowerChar c) (asciiLowerCase rest)
  end.

(** [String.prototype.toLowerCase]: the lower-casing of Unicode, by the
    tables of the engine that runs the server. *)
Class Engine : Type := {
  toLowerCase : string -> string
}.

(** What the properties use of the lower-casing of Unicode: lower-casing
    twice is lower-casing once; it puts no white space at the ends of a
    string that has none there; and on a string of ASCII characters it
    is the folding of the letters A to Z. *)
Record Lawful (E : Engine) : Prop := {
  lower_idempotent : forall s, toLowerCase (toLowerCase s) = toLowerCase s;
  lower_trimmed : forall s, trim s = s -> trim (toLowerCase s) = toLowerCase s;
  lower_ascii : forall s, isAscii s = true -> toLowerCase s = asciiLowerCase s
}.

(** The engine on the strings of ASCII characters, on which the
    scenarios run. *)
Definition asciiEngine : Engine := {| toLowerCase := asciiLowerCase |}.

(** Decimal rendering of a number interpolated in a template. *)
Definition showNat (n : nat) : string := NilZero.string_of_uint (Nat.to_uint n).

(** [Array.prototype.join]. *)
Definition join (sep : string) (l : list string) : string := String.concat sep l.

Definition hexDigit (n : nat) : ascii :=
  match get n "0123456789ABCDEF" with
  | Some c => c
  | None => "0"%char
  end.

(** The characters [encodeURIComponent] leaves as they are:
    letters, digits and - _ . ! ~ * ' ( ). *)
Definition uriUnreserved (c : ascii) : bool :=
  let n := nat_of_ascii c in
  (((65 <=? n) && (n <=? 90)) || ((97 <=? n) && (n <=? 122)) ||
   ((48 <=? n) && (n <=? 57)))%nat ||
  existsb (Nat.eqb n) [45; 95; 46; 33; 126; 42; 39; 40; 41].

Fixpoint encodeURIComponent (s : string) : string :=
  match s with
  | EmptyString => EmptyString
  | String c rest =>
      if uriUnreserved c then String c (encodeURIComponent rest)
      else
        let n := nat_of_ascii c in
        String "%"%char
          (String (hexDigit (n / 16))
             (String (hexDigit (n mod 16)) (encodeURIComponent rest)))
  end.

(* ================================================================== *)
(** * JavaScript values of request fields *)

Inductive Value : Type :=
| VUndefined
| VNull
| VStr (s : string)
| VOther (truthy : bool) (text : string).

(** Truthiness, as tested by [!v], [v || w], [v && w] and [v ? a : b]. *)
Definition ToBoolean (v : Value) : bool :=
  match v with
  | VUndefined | VNull => false
  | VStr s => negb (s =? "")
  | VOther truthy _ => truthy
  end.

(** String conversion, as done by a template literal and by [String(v)]. *)
Definition ToString (v : Value) : string :=
  match v with
  | VUndefined => "undefined"
  | VNull => "null"
  | VStr s => s
  | VOther _ text => text
  end.

(** [a || b]. *)
Definition or_else (a b : Value) : Value := if ToBoolean a then a else b.

(** [v === s] for a string [s]. *)
Definition isString (v : Value) (s : string) : bool :=
  match v with
  | VStr t => t =? s
  | _ => false
  end.

(** [const normEmail = e => String(e).trim().toLowerCase();] *)
Definition normEmail {E : Engine} (e : Value) : string :=
  toLowerCase (trim (ToString e)).

(* ================================================================== *)
(** * Configuration, requests, documents, mails and responses *)

(** [process.env], after the start-up loop has checked that every
    required variable is set. *)
Record Env : Type := mkEnv {
  FROM_EMAIL : string;
  FROM_NAME : string;
  EMAIL_USER : string;
  ADMIN_EMAIL : string;
  PUBLISH_SECRET : string
}.

Definition Time : Type := nat.

(** [req.file], as multer leaves it. *)
Record File : Type := mkFile {
  filename : string;
  originalname : string;
  path : string
}.

Record Request : Type := mkRequest {
  (** [req.headers['x-publish-secret']] *)
  x_publish_secret : Value;
  (** [req.get('host')] *)
  host : Value;
  protocol : string;
  (** [req.body.<field>] *)
  body : string -> Value;
  file : option File;
  (** [req.query.email] *)
  query_email : Value
}.

Record Subscriber : Type := mkSubscriber {
  email : string;
  name : Value;
  createdAt : Time
}.

Record Post : Type := mkPost {
  _id : nat;
  title : Value;
  excerpt : Value;
  content : Value;
  postUrl : Value;
  attachmentUrl : Value;
  attachmentName : Value;
  sendFull : bool;
  publishedAt : Time
}.

Record Attachment : Type := mkAttachment {
  att_filename : string;
  att_path : string
}.

Record Mail : Type := mkMail {
  from : string;
  to : string;
  subject : Value;
  html : string;
  attachments : option (list Attachment)
}.

(** The argument of [res.json]. *)
#[warnings="-register-all"]
Inductive Json : Type :=
| JBool (b : bool)
| JNum (n : nat)
| JVal (v : Value)
| JArr (items : list Json)
| JObj (fields : list (string * Json)).

Definition JStr (s : string) : Json := JVal (VStr s).

Inductive Body : Type :=
| JsonBody (j : Json)
| TextBody (s : string).

Record Response : Type := mkResponse {
  status : nat;
  payload : Body
}.

(** [res.status(code).json(fields)] and [res.json(fields)]. *)
Definition res_json (code : nat) (fields : list (string * Json)) : Response :=
  mkResponse code (JsonBody (JObj fields)).

(** [res.status(code).send(text)] and [res.send(text)]. *)
Definition res_send (code : nat) (text : string) : Response :=
  mkResponse code (TextBody text).

Fixpoint lookup (key : string) (fields : list (string * Json)) : option Json :=
  match fields with
  | [] => None
  | (k, v) :: rest => if k =? key then Some v else lookup key rest
  end.

(** The property [key] of a JSON response, when it has one. *)
Definition field (key : string) (r : Response) : option Json :=
  match payload r with
  | JsonBody (JObj fields) => lookup key fields
  | _ => None
  end.

(** The property [key] of the object under [outer]. *)
Definition field2 (outer key : string) (r : Response) : option Json :=
  match field outer r with
  | Some (JObj fields) => lookup key fields
  | _ => None
  end.

(** A request body given by its fields. *)
Fixpoint bodyOf (fields : list (string * Value)) (key : string) : Value :=
  match fields with
  | [] => VUndefined
  | (k, v) :: rest => if k =? key then v else bodyOf rest key
  end.

(* ================================================================== *)
(** * The state of a call and the outside world *)

(** The two collections, in insertion order. *)
Record Db : Type := mkDb {
  subscribers : list Subscriber;
  posts : list Post
}.

(** An error object: [err.code] and [err.message]. *)
Record Error : Type := mkError {
  code : option N;
  message : string
}.

(** The effects of a call, in the order they happen: documents written
    and removed, mails handed to the transport, and files written to
    the upload directory. *)
Inductive Event : Type :=
| SubscriberCreated (s : Subscriber)
| SubscriberDeleted (e : string)
| PostCreated (p : Post)
| MailAttempt (m : Mail) (delivered : bool)
| FileStored (f : File).

(** What the collaborators answer during one call:
    [sendMail_error n m] is the error [transporter.sendMail] rejects with
    at the [n]-th send of the call, for the mail [m] ([None]: delivered);
    [db_error n] is the error the [n]-th store operation of the call
    fails with, the unique index apart ([None]: the store answers);
    [clock n] is the [n]-th reading of the current time. *)
Record World : Type := mkWorld {
  sendMail_error : nat -> Mail -> option Error;
  db_error : nat -> option Error;
  clock : nat -> Time;
  toLocaleString : Time -> string;
  getFullYear : Time -> nat
}.

Record St : Type := mkSt {
  db : Db;
  trace : list Event;
  sends : nat;
  dbops : nat;
  dates : nat
}.

Definition initial (d : Db) : St := mkSt d [] 0 0 0.

Definition emptyDb : Db := mkDb [] [].

(** The mails handed to the transport, with their outcome. *)
Fixpoint mailAttempts (t : list Event) : list (Mail * bool) :=
  match t with
  | [] => []
  | MailAttempt m ok :: rest => (m, ok) :: mailAttempts rest
  | _ :: rest => mailAttempts rest
  end.

(** The posts written. *)
Fixpoint postsCreated (t : list Event) : list Post :=
  match t with
  | [] => []
  | PostCreated p :: rest => p :: postsCreated rest
  | _ :: rest => postsCreated rest
  end.

(** The subscribers written. *)
Fixpoint subscribersCreated (t : list Event) : list Subscriber :=
  match t with
  | [] => []
  | SubscriberCreated s :: rest => s :: subscribersCreated rest
  | _ :: rest => subscribersCreated rest
  end.

(* ================================================================== *)
(** * The monad of handlers: state and exceptions *)

Inductive Result (A : Type) : Type :=
| Ok (a : A)
| Throw (e : Error).
Arguments Ok {A} a.
Arguments Throw {A} e.

(** A thrown error keeps the state reached: what was written before the
    throw stays written. *)
Definition M (A : Type) : Type := St -> Result A * St.

Definition ret {A} (a : A) : M A := fun s => (Ok a, s).

Definition bind {A B} (c : M A) (k : A -> M B) : M B :=
  fun s =>
    match c s with
    | (Ok a, s') => k a s'
    | (Throw e, s') => (Throw e, s')
    end.

Definition throw {A} (e : Error) : M A := fun s => (Throw e, s).

(** [try { c } catch (err) { handler(err) }] *)
Definition try_catch {A} (c : M A) (handler : Error -> M A) : M A :=
  fun s =>
    match c s with
    | (Ok a, s') => (Ok a, s')
    | (Throw e, s') => handler e s'
    end.

Declare Scope handler_scope.
Delimit Scope handler_scope with handler.
Notation "x <- c ;; k" := (bind c (fun x => k))
  (at level 61, c at next level, right associativity) : handler_scope.
Notation "c ;;; k" := (bind c (fun _ => k))
  (at level 61, right associativity) : handler_scope.
Open Scope handler_scope.

Definition log (e : Event) (s : St) : St :=
  mkSt (db s) (trace s ++ [e]) (sends s) (dbops s) (dates s).

Definition setDb (d : Db) (s : St) : St :=
  mkSt d (trace s) (sends s) (dbops s) (dates s).

Section Collaborators.

Variable world : World.

(** [new Date()] *)
Definition newDate : M Time :=
  fun s => (Ok (clock world (dates s)),
            mkSt (db s) (trace s) (sends s) (dbops s) (S (dates s))).

(** A store operation: it fails when the world says so, and runs
    otherwise. *)
Definition dbOp {A} (op : M A) : M A :=
  fun s =>
    let s' := mkSt (db s) (trace s) (sends s) (S (dbops s)) (dates s) in
    match db_error world (dbops s) with
    | Some e => (Throw e, s')
    | None => op s'
    end.

(** [Subscriber.find({})] *)
Definition Subscriber_find : M (list Subscriber) :=
  dbOp (fun s => (Ok (subscribers (db s)), s)).

(** [Subscriber.findOne({ email })] *)
Definition Subscriber_findOne (e : string) : M (option Subscriber) :=
  dbOp (fun s => (Ok (find (fun x => email x =? e) (subscribers (db s))), s)).

(** [Subscriber.countDocuments()] *)
Definition Subscriber_countDocuments : M nat :=
  dbOp (fun s => (Ok (length (subscribers (db s))), s)).

(** The error of the unique index on [email]. *)
Definition duplicateKey : Error :=
  mkError (Some 11000%N) "E11000 duplicate key error collection: subscribers index: email_1".

(** [Subscriber.create({ email, name })]: [createdAt] defaults to the
    current time, and the unique index refuses a second document with
    the same [email]. *)
Definition Subscriber_create (e : string) (n : Value) : M Subscriber :=
  now <- newDate ;;
  dbOp (fun s =>
    if existsb (fun x => email x =? e) (subscribers (db s))
    then (Throw duplicateKey, s)
    else
      let doc := mkSubscriber e n now in
      (Ok doc,
       log (SubscriberCreated doc)
         (setDb (mkDb (subscribers (db s) ++ [doc]) (posts (db s))) s))).

Fixpoint removeFirst (e : string) (l : list Subscriber) : list Subscriber :=
  match l with
  | [] => []
  | x :: rest => if email x =? e then rest else x :: removeFirst e rest
  end.

(** [Subscriber.deleteOne({ email })], which answers [deletedCount]. *)
Definition Subscriber_deleteOne (e : string) : M nat :=
  dbOp (fun s =>
    if existsb (fun x => email x =? e) (subscribers (db s))
    then (Ok 1,
          log (SubscriberDeleted e)
            (setDb (mkDb (removeFirst e (subscribers (db s))) (posts (db s))) s))
    else (Ok 0, s)).

(** [Post.create({ ... })]: the store assigns the identifier, an
    ObjectId in the code and the rank of the document here. *)
Definition Post_create (title excerpt content postUrl attachmentUrl attachmentName : Value)
    (sendFull : bool) (publishedAt : Time) : M Post :=
  dbOp (fun s =>
    let doc := mkPost (length (posts (db s))) title excerpt content postUrl
                 attachmentUrl attachmentName sendFull publishedAt in
    (Ok doc,
     log (PostCreated doc)
       (setDb (mkDb (subscribers (db s)) (posts (db s) ++ [doc])) s))).

(** Whether the transport delivers [mail] at the [n]-th send. *)
Definition deliveredBy (n : nat) (mail : Mail) : bool :=
  match sendMail_error world n mail with
  | None => true
  | Some _ => false
  end.

(** [transporter.sendMail(mail)] *)
Definition sendMail (mail : Mail) : M unit :=
  fun s =>
    let s' := mkSt (db s) (trace s ++ [MailAttempt mail (deliveredBy (sends s) mail)])
                (S (sends s)) (dbops s) (dates s) in
    match sendMail_error world (sends s) mail with
    | None => (Ok tt, s')
    | Some e => (Throw e, s')
    end.

(** [[
async function safeSend(mail) {
  try {
    await transporter.sendMail(mail);
    return true;
  } catch (e) {
    console.error('Email send error:', e.message);
    return false;
  }
}
]] *)
Definition safeSend (mail : Mail) : M bool :=
  try_catch (sendMail mail ;;; ret true) (fun _ => ret false).

End Collaborators.

(** [upload.single('attachment')], the middleware of the publish route:
    multer writes the file part of the request, when there is one, to
    the upload directory, which the server serves under [/uploads], and
    leaves its description in [req.file]; then the handler runs. *)
Definition upload_single (req : Request) : M unit :=
  fun s =>
    (Ok tt,
     match file req with
     | Some f => log (FileStored f) s
     | None => s
     end).

(** The trace of the middleware alone. *)
Definition uploaded (req : Request) : list Event :=
  match file req with
  | Some f => [FileStored f]
  | None => []
  end.


(* ================================================================== *)
(** * The listings *)

(** Sorting by a date, newest first.  The store fixes no order among
    documents of the same date: the model takes one. *)
Fixpoint insertDesc {A} (key : A -> Time) (x : A) (l : list A) : list A :=
  match l with
  | [] => [x]
  | y :: rest => if (key y <? key x)%nat then x :: l else y :: insertDesc key x rest
  end.

Definition sortDesc {A} (key : A -> Time) (l : list A) : list A :=
  fold_right (insertDesc key) [] l.

(** A subscriber under the projection [{ _id: 0, email: 1, name: 1,
    createdAt: 1 }], and a post under [{ _id: 0, __v: 0 }]; a date is
    given by its time value. *)
Definition subscriberJson (s : Subscriber) : Json :=
  JObj [("email", JStr (email s)); ("name", JVal (name s)); ("createdAt", JNum (createdAt s))].

Definition postJson (p : Post) : Json :=
  JObj [("title", JVal (title p)); ("excerpt", JVal (excerpt p));
        ("content", JVal (content p)); ("postUrl", JVal (postUrl p));
        ("attachmentUrl", JVal (attachmentUrl p));
        ("attachmentName", JVal (attachmentName p));
        ("sendFull", JBool (sendFull p)); ("publishedAt", JNum (publishedAt p))].

(** [res.json(items)] and [res.status(code).json(items)] for an array. *)
Definition res_list (code : nat) (items : list Json) : Response :=
  mkResponse code (JsonBody (JArr items)).

Section Listings.

Variable world : World.

(** [Subscriber.find({}, projection).sort({ createdAt: -1 })] *)
Definition Subscriber_find_sorted : M (list Subscriber) :=
  dbOp world (fun s => (Ok (sortDesc createdAt (subscribers (db s))), s)).

(** [Post.find({}, projection).sort({ publishedAt: -1 })] *)
Definition Post_find_sorted : M (list Post) :=
  dbOp world (fun s => (Ok (sortDesc publishedAt (posts (db s))), s)).

(** [app.get('/_subs', ...)], the same in the two files. *)
Definition get_subs : M Response :=
  try_catch
    (subs <- Subscriber_find_sorted ;;
     ret (res_list 200 (map subscriberJson subs)))
    (fun err => ret (res_list 500 [])).

(** [app.get('/posts', ...)], the same in the two files. *)
Definition get_posts : M Response :=
  try_catch
    (posts <- Post_find_sorted ;;
     ret (res_list 200 (map postJson posts)))
    (fun err => ret (res_list 500 [])).

End Listings.

(* ================================================================== *)
(** * Start-up and uploads *)

(** [process.env] at start-up: a variable is a string or is not set. *)
Definition ProcessEnv : Type := string -> option string.

(** [!process.env[k]] *)
Definition unset (penv : ProcessEnv) (k : string) : bool :=
  match penv k with
  | Some s => s =? ""
  | None => true
  end.

(** The loop over [required]: the variable the process reports before
    it exits, or [None] when the loop ends and start-up goes on.
[[
for (const k of required) {
  if (!process.env[k]) {
    console.error(`Missing env var: ${k}`);
    process.exit(1);
  }
}
]] *)
Fixpoint checkRequired (penv : ProcessEnv) (required : list string) : option string :=
  match required with
  | [] => None
  | k :: rest => if unset penv k then Some k else checkRequired penv rest
  end.

(** The variables the handlers read, when all of them are set. *)
Definition envOf (penv : ProcessEnv) : option Env :=
  match penv "FROM_EMAIL", penv "FROM_NAME", penv "EMAIL_USER", penv "ADMIN_EMAIL",
        penv "PUBLISH_SECRET" with
  | Some fromEmail, Some fromName, Some emailUser, Some adminEmail, Some publishSecret =>
      Some (mkEnv fromEmail fromName emailUser adminEmail publishSecret)
  | _, _, _, _, _ => None
  end.

(** [uniqueSuffix] of the multer storage:
    [Date.now() + '-' + Math.round(Math.random() * 1E9)]; [now] and
    [random] are the two numbers read. *)
Definition uniqueSuffix (now random : nat) : string :=
  cat [showNat now; "-"; showNat random].

(** The characters the sanitizing of [src/unnamed/part_000] keeps:
    the class [a-zA-Z0-9._-]. *)
Definition safeChar (c : ascii) : bool :=
  let n := nat_of_ascii c in
  (((97 <=? n) && (n <=? 122)) || ((65 <=? n) && (n <=? 90)) ||
   ((48 <=? n) && (n <=? 57)) || (n =? 46) || (n =? 95) || (n =? 45))%nat.

(** [s.replace(/[^a-zA-Z0-9._-]/g, '_')], character by character. *)
Fixpoint replaceUnsafe (s : string) : string :=
  match s with
  | EmptyString => EmptyString
  | String c rest => String (if safeChar c then c else "_"%char) (replaceUnsafe rest)
  end.

(** Running a handler on a store: the response (or the error the
    handler let escape) and the state reached. *)
Definition run (h : M Response) (d : Db) : Result Response * St := h (initial d).

(** [for (const x of xs) { ... }], the loop variables being threaded
    through the iterations. *)
Fixpoint forOf {A V} (xs : list A) (iteration : A -> V -> M V) (vars : V) : M V :=
  match xs with
  | [] => ret vars
  | x :: rest => vars' <- iteration x vars ;; forOf rest iteration vars'
  end.

(* ================================================================== *)
(** * Vocabulary of the properties *)

(** The status of the response, when the handler responds. *)
Definition statusOf (r : Result Response) : option nat :=
  match r with
  | Ok response => Some (status response)
  | Throw _ => None
  end.

(** The text of the response, when the handler sends a text. *)
Definition textOf (r : Result Response) : option string :=
  match r with
  | Ok response =>
      match payload response with
      | TextBody text => Some text
      | JsonBody _ => None
      end
  | Throw _ => None
  end.

Definition attemptEvent (a : Mail * bool) : Event := MailAttempt (fst a) (snd a).

(** The number of delivered mails of a list of attempts, and the
    recipients of the others, in order. *)
Definition delivered (attempts : list (Mail * bool)) : nat :=
  List.length (filter snd attempts).

Definition failedRecipients (attempts : list (Mail * bool)) : list string :=
  map (fun a => to (fst a)) (filter (fun a => negb (snd a)) attempts).

(** The keys of the subscriber collection. *)
Definition emails (d : Db) : list string := map email (subscribers d).


(** The state [s] with the events [before] put before its trace, and
    the computations that do not read the trace: run after [before],
    they do what they do, after [before]. *)
Definition prepend (before : list Event) (s : St) : St :=
  mkSt (db s) (before ++ trace s) (sends s) (dbops s) (dates s).

Definition Framed {A} (c : M A) : Prop :=
  forall before s, c (prepend before s) = (fst (c s), prepend before (snd (c s))).

(** The store after the calls [hs], run one after the other. *)
Fixpoint replay (hs : list (M Response)) (d : Db) : Db :=
  match hs with
  | [] => d
  | h :: rest => replay rest (db (snd (run h d)))
  end.

(* ================================================================== *)
(** * The mail templates

    The text of a template is the same in the two files unless a
    parameter says otherwise. *)

Section Templates.

Variable env : Env.
Variable world : World.

(** The [from] of a mail to a subscriber. *)
Definition fromAddress : string :=
  cat [dq; FROM_NAME env; dq; " <"; FROM_EMAIL env; ">"].

(** [welcomeHtml] of the subscribe handler; [site] is
    [process.env.EMAIL_USER] in [src/index.js] and [process.env.FROM_NAME]
    in [src/unnamed/part_000]. *)
Definition welcomeHtml (site : string) (name : Value) : string :=
  cat [
    nl;
    "    <!DOCTYPE html>"; nl;
    "    <html>"; nl;
    "    <body style="; dq; "margin:0;background:#f4f6f8;font-family:Arial,sans-serif;"; dq; ">"; nl;
    "      <table width="; dq; "100%"; dq; " cellpadding="; dq; "0"; dq; " cellspacing="; dq; "0"; dq; ">"; nl;
    "        <tr>"; nl;
    "          <td align="; dq; "center"; dq; " style="; dq; "padding:30px;"; dq; ">"; nl;
    "            <table width="; dq; "600"; dq; " style="; dq; "background:#ffffff;padding:30px;border-radius:6px;"; dq; ">"; nl;
    "              <tr>"; nl;
    "                <td>"; nl;
    "                  <h2 style="; dq; "color:#222;"; dq; ">Welcome, "; ToString (or_else name (VStr "there")); " 👋</h2>"; nl;
    "                  <p style="; dq; "color:#444;font-size:15px;line-height:1.6;"; dq; ">"; nl;
    "                    Thanks for subscribing to <strong>"; site; "</strong>."; nl;
    "                  </p>"; nl;
    "                  <p style="; dq; "color:#444;font-size:15px;line-height:1.6;"; dq; ">"; nl;
    "                    You'll receive updates whenever we publish something new."; nl;
    "                  </p>"; nl;
    "                  <hr style="; dq; "margin:25px 0;"; dq; ">"; nl;
    "                  <p style="; dq; "font-size:13px;color:#777;"; dq; ">"; nl;
    "                    — "; FROM_NAME env; "<br>"; nl;
    "                    "; FROM_EMAIL env; nl;
    "                  </p>"; nl;
    "                </td>"; nl;
    "              </tr>"; nl;
    "            </table>"; nl;
    "          </td>"; nl;
    "        </tr>"; nl;
    "      </table>"; nl;
    "    </body>"; nl;
    "    </html>"; nl;
    "    " ].

(** [adminHtml] of the subscribe handler. *)
Definition newSubscriberHtml (email : string) (name : Value) (now : Time) (total : nat) : string :=
  cat [
    nl;
    "    <!DOCTYPE html>"; nl;
    "    <html>"; nl;
    "    <body style="; dq; "font-family:Arial,sans-serif;background:#f4f6f8;padding:20px;"; dq; ">"; nl;
    "      <div style="; dq; "max-width:600px;background:#fff;padding:20px;border-radius:6px;"; dq; ">"; nl;
    "        <h3>New Subscriber</h3>"; nl;
    "        <p><strong>Email:</strong> "; email; "</p>"; nl;
    "        <p><strong>Name:</strong> "; ToString (or_else name (VStr "-")); "</p>"; nl;
    "        <p><strong>Time:</strong> "; toLocaleString world now; "</p>"; nl;
    "        <p><strong>Total subscribers:</strong> "; showNat total; "</p>"; nl;
    "      </div>"; nl;
    "    </body>"; nl;
    "    </html>"; nl;
    "    " ].

(** [attachmentUrl] and [attachmentName] of the publish handler: [null]
    unless the request carries a file. *)
Definition attachmentUrlOf (req : Request) : Value :=
  match file req with
  | Some f => VStr (cat [protocol req; "://"; ToString (host req); "/uploads/"; filename f])
  | None => VNull
  end.

Definition attachmentNameOf (req : Request) : Value :=
  match file req with
  | Some f => VStr (originalname f)
  | None => VNull
  end.

(** [unsubscribeLink] of the fan-out loop. *)
Definition unsubscribeLinkOf (req : Request) (subscriber : Subscriber) : string :=
  cat [protocol req; "://"; ToString (host req); "/unsubscribe?email=";
       encodeURIComponent (email subscriber)].

(** [publishHtml] of the fan-out loop; [full] is the test on [sendFull]
    of the file: [sendFull === '1'] in [src/index.js], and
    [sendFull === '1' || sendFull === 'true'] in [src/unnamed/part_000]. *)
Definition publishHtml (full : bool)
    (title excerpt content postUrl emailBody attachmentUrl attachmentName : Value)
    (unsubscribeLink : string) (now : Time) : string :=
  cat [
    nl;
    "<!DOCTYPE html>"; nl;
    "<html lang="; dq; "en"; dq; ">"; nl;
    "<head>"; nl;
    "  <meta charset="; dq; "UTF-8"; dq; ">"; nl;
    "  <title>"; ToString title; "</title>"; nl;
    "</head>"; nl;
    "<body style="; dq; "margin:0;padding:0;background:#f5f7fb;font-family:Inter,Segoe UI,Arial,sans-serif;"; dq; ">"; nl;
    "  <table width="; dq; "100%"; dq; " cellpadding="; dq; "0"; dq; " cellspacing="; dq; "0"; dq; ">"; nl;
    "    <tr>"; nl;
    "      <td align="; dq; "center"; dq; " style="; dq; "padding:32px 16px;"; dq; ">"; nl;
    "        <table width="; dq; "600"; dq; " cellpadding="; dq; "0"; dq; " cellspacing="; dq; "0"; dq; nl;
    "          style="; dq; "background:#ffffff;border-radius:10px;box-shadow:0 10px 30px rgba(0,0,0,0.08);overflow:hidden;"; dq; ">"; nl;
    "          "; nl;
    "          <!-- Header -->"; nl;
    "          <tr>"; nl;
    "            <td style="; dq; "background:#2c3e50;padding:20px 24px;color:#ffffff;"; dq; ">"; nl;
    "              <h2 style="; dq; "margin:0;font-size:20px;"; dq; ">"; nl;
    "                "; FROM_NAME env; " · New Post"; nl;
    "              </h2>"; nl;
    "            </td>"; nl;
    "          </tr>"; nl;
    nl;
    "          <!-- Content -->"; nl;
    "          <tr>"; nl;
    "            <td style="; dq; "padding:24px;color:#222;"; dq; ">"; nl;
    "              <h1 style="; dq; "margin-top:0;font-size:22px;"; dq; ">"; nl;
    "                "; ToString title; nl;
    "              </h1>"; nl;
    nl;
    "              <div style="; dq; "font-size:15px;line-height:1.7;color:#333;"; dq; ">"; nl;
    "                "; ToString emailBody; nl;
    "              </div>"; nl;
    nl;
    "              ";
    (if negb full && ToBoolean excerpt && ToBoolean content then
       cat [
         "<div style="; dq; "margin:20px 0;padding:15px;background:#f8f9fa;border-radius:8px;"; dq; ">"; nl;
         "                  <p style="; dq; "margin:0;font-style:italic;"; dq; ">Full article available at the link below...</p>"; nl;
         "                </div>" ]
     else EmptyString); nl;
    nl;
    "              <p style="; dq; "margin-top:20px;"; dq; ">"; nl;
    "                <a href="; dq; ToString postUrl; dq; nl;
    "                   style="; dq; "display:inline-block;background:#3498db;color:#fff;"; nl;
    "                          padding:10px 16px;border-radius:999px;"; nl;
    "                          text-decoration:none;font-size:14px;"; dq; ">"; nl;
    "                  Read full article →"; nl;
    "                </a>"; nl;
    "              </p>"; nl;
    "              "; nl;
    "              ";
    (if ToBoolean attachmentUrl then
       cat [
         "<div style="; dq; "margin-top:20px;padding:15px;background:#f8f9fa;border-radius:8px;"; dq; ">"; nl;
         "                  <p style="; dq; "margin:0 0 10px 0;"; dq; "><strong>Attachment:</strong></p>"; nl;
         "                  <a href="; dq; ToString attachmentUrl; dq; " "; nl;
         "                     style="; dq; "color:#3498db;text-decoration:none;font-size:14px;"; dq; ">"; nl;
         "                    📎 "; ToString (or_else attachmentName (VStr "Download attached file")); nl;
         "                  </a>"; nl;
         "                </div>" ]
     else EmptyString); nl;
    "            </td>"; nl;
    "          </tr>"; nl;
    nl;
    "          <!-- Footer -->"; nl;
    "          <tr>"; nl;
    "            <td style="; dq; "background:#fafafa;padding:18px 24px;font-size:12px;color:#777;"; dq; ">"; nl;
    "              <p style="; dq; "margin:0;"; dq; ">"; nl;
    "                You are receiving this email because you subscribed to"; nl;
    "                <strong>"; FROM_NAME env; "</strong>."; nl;
    "              </p>"; nl;
    "              <p style="; dq; "margin:6px 0 0 0;"; dq; ">"; nl;
    "                <a href="; dq; unsubscribeLink; dq; " style="; dq; "color:#777;text-decoration:underline;"; dq; ">"; nl;
    "                  Unsubscribe"; nl;
    "                </a> | "; nl;
    "                © "; showNat (getFullYear world now); " "; FROM_NAME env; nl;
    "              </p>"; nl;
    "            </td>"; nl;
    "          </tr>"; nl;
    nl;
    "        </table>"; nl;
    "      </td>"; nl;
    "    </tr>"; nl;
    "  </table>"; nl;
    "</body>"; nl;
    "</html>"; nl;
    "      " ].

End Templates.

(* ================================================================== *)
(** * The handlers of [src/index.js] *)

Module IndexJs.

Section Handlers.

Context {E : Engine}.
Variable env : Env.
Variable world : World.
Variable req : Request.

(** [app.post('/subscribe', ...)] *)
Definition post_subscribe : M Response :=
  let email := normEmail (or_else (body req "email") (VStr "")) in
  let name := or_else (body req "name") (VStr "") in
  if negb (includes email "@") then
    ret (res_json 400 [("success", JBool false); ("message", JStr "Invalid email")])
  else
    early <- try_catch
               (Subscriber_create world email name ;;; ret None)
               (fun err =>
                  if match code err with Some c => (c =? 11000)%N | None => false end then
                    ret (Some (res_json 200 [("success", JBool true);
                                             ("message", JStr "Already subscribed")]))
                  else
                    ret (Some (res_json 500 [("success", JBool false);
                                             ("message", JStr "Server error")]))) ;;
    match early with
    | Some response => ret response
    | None =>
        safeSend world
          (mkMail (fromAddress env) email (VStr "Welcome to our updates")
             (welcomeHtml env (EMAIL_USER env) name) None) ;;;
        now <- newDate world ;;
        total <- Subscriber_countDocuments world ;;
        safeSend world
          (mkMail (FROM_EMAIL env) (ADMIN_EMAIL env) (VStr "New Subscriber Joined")
             (newSubscriberHtml world email name now total) None) ;;;
        ret (res_json 200 [("success", JBool true);
                           ("message", JStr "Subscribed successfully")])
    end.

(** [adminHtml] of the publish handler. *)
Definition adminHtml (title postUrl attachmentUrl attachmentName : Value)
    (sentCount : nat) (subs : list Subscriber) (now : Time) : string :=
  cat [
    nl;
    "    <!DOCTYPE html>"; nl;
    "    <html>"; nl;
    "    <body style="; dq; "font-family:Arial,sans-serif;background:#f4f6f8;padding:20px;"; dq; ">"; nl;
    "      <div style="; dq; "max-width:600px;background:#fff;padding:20px;border-radius:6px;"; dq; ">"; nl;
    "        <h3>Post Published Successfully</h3>"; nl;
    "        <p><strong>Title:</strong> "; ToString title; "</p>"; nl;
    "        <p><strong>Sent to:</strong> "; showNat sentCount; " subscribers</p>"; nl;
    "        <p><strong>Total subscribers:</strong> "; showNat (List.length subs); "</p>"; nl;
    "        <p><strong>Time:</strong> "; toLocaleString world now; "</p>"; nl;
    "        ";
    (if ToBoolean attachmentUrl then
       cat [
         "<p><strong>Attachment:</strong> "; ToString attachmentName; " ("; ToString attachmentUrl; ")</p>" ]
     else EmptyString); nl;
    "        <p><strong>Post URL:</strong> "; ToString postUrl; "</p>"; nl;
    "      </div>"; nl;
    "    </body>"; nl;
    "    </html>"; nl;
    "    " ].

(** [mailOptions] of the loop over [subs], [now] being the date read
    by the template. *)
Definition mailOptions (title excerpt content postUrl sendFull emailBody
                        attachmentUrl attachmentName : Value)
    (subscriber : Subscriber) (now : Time) : Mail :=
  let unsubscribeLink := unsubscribeLinkOf req subscriber in
  let publishHtml :=
    publishHtml env world (isString sendFull "1") title excerpt content postUrl
      emailBody attachmentUrl attachmentName unsubscribeLink now in
  mkMail (fromAddress env) (email subscriber) title publishHtml
    (match file req with
     | Some f => Some [mkAttachment (originalname f) (path f)]
     | None => None
     end).

(** [emailBody] of the publish handler:
    [sendFull === '1' ? (content || excerpt || '') : (excerpt || '')] *)
Definition emailBodyOf (sendFull excerpt content : Value) : Value :=
  if isString sendFull "1" then or_else (or_else content excerpt) (VStr "")
  else or_else excerpt (VStr "").

(** The mail to the administrator that closes the publish handler. *)
Definition adminMail (title postUrl attachmentUrl attachmentName : Value)
    (sentCount : nat) (subs : list Subscriber) (now : Time) : Mail :=
  mkMail (FROM_EMAIL env) (ADMIN_EMAIL env)
    (VStr (cat ["Post Published: "; ToString title]))
    (adminHtml title postUrl attachmentUrl attachmentName sentCount subs now)
    None.

(** The response of a publish call that ran to its end. *)
Definition published (attachmentUrl : Value) (sentCount : nat) : Response :=
  res_json 200
    [("success", JBool true);
     ("sent", JObj [("subscribers", JNum sentCount)]);
     ("attachmentUrl", JVal attachmentUrl);
     ("message", JStr (cat ["Published successfully to "; showNat sentCount;
                            " subscribers"]))].

(** The body of the loop over [subs]: one mail to [subscriber]; the
    loop variable is [sentCount]. *)
Definition notify (title excerpt content postUrl sendFull emailBody
                   attachmentUrl attachmentName : Value)
    (subscriber : Subscriber) (sentCount : nat) : M nat :=
  now <- newDate world ;;
  ok <- safeSend world
          (mailOptions title excerpt content postUrl sendFull emailBody
             attachmentUrl attachmentName subscriber now) ;;
  ret (if ok then S sentCount else sentCount).

(** The handler of [app.post('/publish', upload.single('attachment'),
    async (req, res) => ...)]: the function that the route runs after
    the upload middleware (the route is [publish_route]). *)
Definition post_publish : M Response :=
  try_catch
    (if negb (isString (x_publish_secret req) (PUBLISH_SECRET env)) then
       ret (res_json 401 [("success", JBool false); ("message", JStr "Invalid secret")])
     else
       let title := body req "title" in
       let excerpt := body req "excerpt" in
       let postUrl := body req "postUrl" in
       let content := body req "content" in
       let sendFull := body req "sendFull" in
       if negb (ToBoolean title) || negb (ToBoolean postUrl) then
         ret (res_json 400 [("success", JBool false);
                            ("message", JStr "Title and post URL are required")])
       else
         subs <- Subscriber_find world ;;
         let attachmentUrl := attachmentUrlOf req in
         let attachmentName := attachmentNameOf req in
         publishedAt <- newDate world ;;
         post <- Post_create world title (or_else excerpt (VStr "")) (or_else content (VStr ""))
                   postUrl attachmentUrl attachmentName (isString sendFull "1") publishedAt ;;
         let emailBody := emailBodyOf sendFull excerpt content in
         sentCount <- forOf subs
                        (notify title excerpt content postUrl sendFull emailBody
                           attachmentUrl attachmentName) 0 ;;
         now <- newDate world ;;
         safeSend world
           (adminMail title postUrl attachmentUrl attachmentName sentCount subs now) ;;;
         ret (published attachmentUrl sentCount))
    (fun error =>
       ret (res_json 500 [("success", JBool false);
                          ("message", JStr "Internal server error")])).

(** The route [app.post('/publish', upload.single('attachment'), ...)]:
    the middleware, then the handler. *)
Definition publish_route : M Response :=
  upload_single req ;;; post_publish.

(** [app.post('/unsubscribe', ...)] *)
Definition post_unsubscribe : M Response :=
  try_catch
    (let email := normEmail (or_else (body req "email") (VStr "")) in
     Subscriber_deleteOne world email ;;;
     ret (res_json 200 [("success", JBool true);
                        ("message", JStr "Unsubscribed successfully")]))
    (fun err =>
       ret (res_json 500 [("success", JBool false); ("message", JStr "Server error")])).

(** [app.get('/unsubscribe', ...)] *)
Definition get_unsubscribe : M Response :=
  let email := query_email req in
  if negb (ToBoolean email) then ret (res_send 200 "No email provided")
  else
    try_catch
      (Subscriber_deleteOne world (normEmail email) ;;;
       ret (res_send 200 (cat [
                            nl;
                            "      <html>"; nl;
                            "        <body style="; dq; "font-family: Arial, sans-serif; padding: 40px; text-align: center;"; dq; ">"; nl;
                            "          <h2>Successfully Unsubscribed</h2>"; nl;
                            "          <p>You have been unsubscribed from "; FROM_NAME env; " newsletters.</p>"; nl;
                            "          <p>You will no longer receive emails from us.</p>"; nl;
                            "        </body>"; nl;
                            "      </html>"; nl;
                            "    " ])))
      (fun err => ret (res_send 500 "Error processing unsubscribe request")).

(** [required] of the start-up check. *)
Definition required : list string :=
  ["MONGODB_URI"; "FROM_EMAIL"; "FROM_NAME"; "EMAIL_USER"; "EMAIL_PASS"; "ADMIN_EMAIL";
   "PUBLISH_SECRET"; "TEMP"].

(** [filename] of the multer storage: the original name is kept as it
    is. *)
Definition filenameOf (now random : nat) (originalname : string) : string :=
  cat [uniqueSuffix now random; "-"; originalname].

End Handlers.

Section Outcomes.

Context {E : Engine}.
Variable env : Env.
Variable world : World.
Variable req : Request.
Variable d : Db.

(** The post a publish call stores. *)
Definition postOf : Post :=
  mkPost (List.length (posts d)) (body req "title")
    (or_else (body req "excerpt") (VStr "")) (or_else (body req "content") (VStr ""))
    (body req "postUrl") (attachmentUrlOf req) (attachmentNameOf req)
    (isString (body req "sendFull") "1") (clock world 0).

(** The mail of the fan-out to [subscriber], the template reading the
    date [now]. *)
Definition notification (subscriber : Subscriber) (now : Time) : Mail :=
  mailOptions env world req (body req "title") (body req "excerpt") (body req "content")
    (body req "postUrl") (body req "sendFull")
    (emailBodyOf (body req "sendFull") (body req "excerpt") (body req "content"))
    (attachmentUrlOf req) (attachmentNameOf req) subscriber now.

(** [attempts] is a fan-out over [subs]: one send to each subscriber, in
    the order of [subs], with the outcome the transport gave. *)
Definition fanOut (subs : list Subscriber) (attempts : list (Mail * bool)) : Prop :=
  Forall2
    (fun subscriber a =>
       exists now n,
         fst a = notification subscriber now /\ snd a = deliveredBy world n (fst a))
    subs attempts.

(** The key and the name of a subscribe call:
    [normEmail(req.body.email || '')] and [req.body.name || '']. *)
Definition emailOf : string := normEmail (or_else (body req "email") (VStr "")).
Definition nameOf : Value := or_else (body req "name") (VStr "").

(** The document a subscribe call stores. *)
Definition subscriberOf : Subscriber := mkSubscriber emailOf nameOf (clock world 0).

(** The responses of the subscribe handler. *)
Definition invalidEmail : Response :=
  res_json 400 [("success", JBool false); ("message", JStr "Invalid email")].

Definition alreadySubscribed : Response :=
  res_json 200 [("success", JBool true); ("message", JStr "Already subscribed")].

Definition serverError : Response :=
  res_json 500 [("success", JBool false); ("message", JStr "Server error")].

Definition subscribed : Response :=
  res_json 200 [("success", JBool true); ("message", JStr "Subscribed successfully")].

(** The response of the unsubscribe handler. *)
Definition unsubscribed : Response :=
  res_json 200 [("success", JBool true); ("message", JStr "Unsubscribed successfully")].

(** The ways a subscribe call ends; in the last one the handler may let
    the error of [countDocuments] escape. *)
Inductive SubscribeOutcome : Result Response * St -> Prop :=
| Invalid :
    includes emailOf "@" = false ->
    SubscribeOutcome (Ok invalidEmail, initial d)
| AlreadyExists (s : St) :
    includes emailOf "@" = true ->
    db_error world 0 = None ->
    In emailOf (emails d) ->
    db s = d ->
    trace s = [] ->
    SubscribeOutcome (Ok alreadySubscribed, s)
| SubscribeFailed (response : Response) (s : St) :
    includes emailOf "@" = true ->
    db_error world 0 <> None ->
    response = alreadySubscribed \/ response = serverError ->
    db s = d ->
    trace s = [] ->
    SubscribeOutcome (Ok response, s)
| Created (r : Result Response) (attempts : list (Mail * bool)) (s : St) :
    includes emailOf "@" = true ->
    db_error world 0 = None ->
    ~ In emailOf (emails d) ->
    db s = mkDb (subscribers d ++ [subscriberOf]) (posts d) ->
    trace s = SubscriberCreated subscriberOf :: map attemptEvent attempts ->
    r = Ok subscribed \/ (exists e, r = Throw e) ->
    SubscribeOutcome (r, s).

(** The ways a publish call ends. *)
Inductive PublishOutcome : Result Response * St -> Prop :=
| Unauthorized :
    isString (x_publish_secret req) (PUBLISH_SECRET env) = false ->
    PublishOutcome
      (Ok (res_json 401 [("success", JBool false); ("message", JStr "Invalid secret")]),
       initial d)
| MissingField :
    isString (x_publish_secret req) (PUBLISH_SECRET env) = true ->
    negb (ToBoolean (body req "title")) || negb (ToBoolean (body req "postUrl")) = true ->
    PublishOutcome
      (Ok (res_json 400 [("success", JBool false);
                         ("message", JStr "Title and post URL are required")]),
       initial d)
| StoreFailed (error : Error) (s : St) :
    isString (x_publish_secret req) (PUBLISH_SECRET env) = true ->
    negb (ToBoolean (body req "title")) || negb (ToBoolean (body req "postUrl")) = false ->
    (db_error world 0 = Some error \/ db_error world 1 = Some error) ->
    db s = d ->
    trace s = [] ->
    PublishOutcome
      (Ok (res_json 500 [("success", JBool false); ("message", JStr "Internal server error")]),
       s)
| Published (attempts : list (Mail * bool)) (now : Time) (adminOk : bool) (s : St) :
    isString (x_publish_secret req) (PUBLISH_SECRET env) = true ->
    negb (ToBoolean (body req "title")) || negb (ToBoolean (body req "postUrl")) = false ->
    db_error world 0 = None ->
    db_error world 1 = None ->
    db s = mkDb (subscribers d) (posts d ++ [postOf]) ->
    fanOut (subscribers d) attempts ->
    trace s =
      PostCreated postOf :: map attemptEvent attempts ++
      [MailAttempt
         (adminMail env world (body req "title") (body req "postUrl")
            (attachmentUrlOf req) (attachmentNameOf req) (delivered attempts)
            (subscribers d) now)
         adminOk] ->
    PublishOutcome
      (Ok (published (attachmentUrlOf req) (delivered attempts)), s).

End Outcomes.

(** The calls that can change the store. *)
Inductive Call : Type := Subscribe | Publish | Unsubscribe | UnsubscribeLink.

Definition handler {E : Engine} (env : Env) (world : World) (req : Request) (c : Call) :
    M Response :=
  match c with
  | Subscribe => post_subscribe env world req
  | Publish => publish_route env world req
  | Unsubscribe => post_unsubscribe world req
  | UnsubscribeLink => get_unsubscribe env world req
  end.

(** The stores the server can be in: the empty store, and the store any
    call leaves, whatever the request and the answers of the world. *)
Inductive reachable {E : Engine} : Db -> Prop :=
| reachable_empty : reachable emptyDb
| reachable_call (d : Db) (env : Env) (world : World) (req : Request) (c : Call) :
    reachable d -> reachable (db (snd (run (handler env world req c) d))).

End IndexJs.

(* ================================================================== *)
(** * The handlers of [src/unnamed/part_000] *)

Module Part000.

Section Handlers.

Context {E : Engine}.
Variable env : Env.
Variable world : World.
Variable req : Request.

Definition alreadySubscribed : Response :=
  res_json 200 [("success", JBool false);
                ("message", JStr "This email is already subscribed");
                ("alreadySubscribed", JBool true)].

(** [app.post('/subscribe', ...)] *)
Definition post_subscribe : M Response :=
  let email := normEmail (or_else (body req "email") (VStr "")) in
  let name := or_else (body req "name") (VStr "") in
  if negb (includes email "@") || negb (includes email ".") || (utf16Length email <? 5)%nat then
    ret (res_json 400 [("success", JBool false); ("message", JStr "Invalid email format")])
  else
    try_catch
      (existingSubscriber <- Subscriber_findOne world email ;;
       match existingSubscriber with
       | Some _ => ret alreadySubscribed
       | None =>
           Subscriber_create world email name ;;;
           safeSend world
             (mkMail (fromAddress env) email (VStr "Welcome to our updates")
                (welcomeHtml env (FROM_NAME env) name) None) ;;;
           now <- newDate world ;;
           total <- Subscriber_countDocuments world ;;
           safeSend world
             (mkMail (FROM_EMAIL env) (ADMIN_EMAIL env) (VStr "New Subscriber Joined")
                (newSubscriberHtml world email name now total) None) ;;;
           ret (res_json 200 [("success", JBool true);
                              ("message", JStr "Subscribed successfully");
                              ("newSubscriber", JBool true)])
       end)
      (fun err =>
         if match code err with Some c => (c =? 11000)%N | None => false end
            || includes (message err) "duplicate"
         then ret alreadySubscribed
         else ret (res_json 500 [("success", JBool false);
                                 ("message", JStr "Server error. Please try again later.")])).

(** [adminHtml] of the publish handler. *)
Definition adminHtml (title postUrl attachmentUrl attachmentName : Value)
    (sentCount : nat) (failedEmails : list string) (subs : list Subscriber) (now : Time) : string :=
  cat [
    nl;
    "    <!DOCTYPE html>"; nl;
    "    <html>"; nl;
    "    <body style="; dq; "font-family:Arial,sans-serif;background:#f4f6f8;padding:20px;"; dq; ">"; nl;
    "      <div style="; dq; "max-width:600px;background:#fff;padding:20px;border-radius:6px;"; dq; ">"; nl;
    "        <h3>Post Published Successfully</h3>"; nl;
    "        <p><strong>Title:</strong> "; ToString title; "</p>"; nl;
    "        <p><strong>Sent to:</strong> "; showNat sentCount; " subscribers</p>"; nl;
    "        <p><strong>Failed to send:</strong> "; showNat (List.length failedEmails); "</p>"; nl;
    "        <p><strong>Total subscribers:</strong> "; showNat (List.length subs); "</p>"; nl;
    "        <p><strong>Time:</strong> "; toLocaleString world now; "</p>"; nl;
    "        ";
    (if ToBoolean attachmentUrl then
       cat [
         "<p><strong>Attachment:</strong> "; ToString attachmentName; " ("; ToString attachmentUrl; ")</p>" ]
     else EmptyString); nl;
    "        <p><strong>Post URL:</strong> "; ToString postUrl; "</p>"; nl;
    "        ";
    (if (0 <? List.length failedEmails)%nat then
       cat [
         "<p><strong>Failed emails:</strong> "; join ", " failedEmails; "</p>" ]
     else EmptyString); nl;
    "      </div>"; nl;
    "    </body>"; nl;
    "    </html>"; nl;
    "    " ].

(** [sendFull === '1' || sendFull === 'true'] *)
Definition isFull (sendFull : Value) : bool :=
  isString sendFull "1" || isString sendFull "true".

(** [mailOptions] of the loop over [subs], [now] being the date read
    by the template. *)
Definition mailOptions (title excerpt content postUrl sendFull emailBody
                        attachmentUrl attachmentName : Value)
    (subscriber : Subscriber) (now : Time) : Mail :=
  let unsubscribeLink := unsubscribeLinkOf req subscriber in
  let publishHtml :=
    publishHtml env world (isFull sendFull) title excerpt content postUrl
      emailBody attachmentUrl attachmentName unsubscribeLink now in
  mkMail (fromAddress env) (email subscriber) title publishHtml
    (Some (match file req with
           | Some f => [mkAttachment (originalname f) (path f)]
           | None => []
           end)).

(** [emailBody] of the publish handler. *)
Definition emailBodyOf (sendFull excerpt content : Value) : Value :=
  if isFull sendFull then or_else (or_else content excerpt) (VStr "")
  else or_else excerpt (VStr "").

(** The mail to the administrator that closes the publish handler. *)
Definition adminMail (title postUrl attachmentUrl attachmentName : Value)
    (sentCount : nat) (failedEmails : list string) (subs : list Subscriber) (now : Time) : Mail :=
  mkMail (FROM_EMAIL env) (ADMIN_EMAIL env)
    (VStr (cat ["Post Published: "; ToString title]))
    (adminHtml title postUrl attachmentUrl attachmentName sentCount failedEmails subs now)
    None.

(** [response] of a publish call that ran to its end; [failedEmails] is
    set when some send failed. *)
Definition published (post : Post) (attachmentUrl : Value) (subs : list Subscriber)
    (sentCount : nat) (failedEmails : list string) : Response :=
  let response :=
    [("success", JBool true);
     ("sent", JObj [("subscribers", JNum sentCount);
                    ("total", JNum (List.length subs));
                    ("failed", JNum (List.length failedEmails))]);
     ("postId", JNum (_id post));
     ("attachmentUrl", JVal attachmentUrl);
     ("message", JStr (cat ["Published successfully to "; showNat sentCount; " out of ";
                            showNat (List.length subs); " subscribers"]))] in
  res_json 200
    (if (0 <? List.length failedEmails)%nat
     then response ++ [("failedEmails", JArr (map JStr failedEmails))]
     else response).

(** The body of the loop over [subs]: one mail to [subscriber]; the
    loop variables are [sentCount] and [failedEmails]. *)
Definition notify (title excerpt content postUrl sendFull emailBody
                   attachmentUrl attachmentName : Value)
    (subscriber : Subscriber) (vars : nat * list string) : M (nat * list string) :=
  let '(sentCount, failedEmails) := vars in
  now <- newDate world ;;
  try_catch
    (ok <- safeSend world
             (mailOptions title excerpt content postUrl sendFull emailBody
                attachmentUrl attachmentName subscriber now) ;;
     if ok then ret (S sentCount, failedEmails)
     else ret (sentCount, failedEmails ++ [email subscriber]))
    (fun sendError => ret (sentCount, failedEmails ++ [email subscriber])).

(** The handler of [app.post('/publish', upload.single('attachment'),
    async (req, res) => ...)]: the function that the route runs after
    the upload middleware (the route is [publish_route]). *)
Definition post_publish : M Response :=
  try_catch
    (let secret := or_else (x_publish_secret req) (body req "secret") in
     if negb (isString secret (PUBLISH_SECRET env)) then
       ret (res_json 401 [("success", JBool false); ("message", JStr "Invalid secret")])
     else
       let title := body req "title" in
       let excerpt := body req "excerpt" in
       let postUrl := body req "postUrl" in
       let content := body req "content" in
       let sendFull := body req "sendFull" in
       if negb (ToBoolean title) || negb (ToBoolean postUrl) then
         ret (res_json 400 [("success", JBool false);
                            ("message", JStr "Title and post URL are required")])
       else
         subs <- Subscriber_find world ;;
         let attachmentUrl := attachmentUrlOf req in
         let attachmentName := attachmentNameOf req in
         publishedAt <- newDate world ;;
         post <- Post_create world title (or_else excerpt (VStr "")) (or_else content (VStr ""))
                   postUrl attachmentUrl attachmentName (isFull sendFull) publishedAt ;;
         let emailBody := emailBodyOf sendFull excerpt content in
         vars <- forOf subs
                   (notify title excerpt content postUrl sendFull emailBody
                      attachmentUrl attachmentName) (0, []) ;;
         let '(sentCount, failedEmails) := vars in
         now <- newDate world ;;
         safeSend world
           (adminMail title postUrl attachmentUrl attachmentName sentCount failedEmails
              subs now) ;;;
         ret (published post attachmentUrl subs sentCount failedEmails))
    (fun error =>
       ret (res_json 500 [("success", JBool false);
                          ("message", JStr "Internal server error");
                          ("error", JStr (message error))])).

(** The route [app.post('/publish', upload.single('attachment'), ...)]:
    the middleware, then the handler. *)
Definition publish_route : M Response :=
  upload_single req ;;; post_publish.

(** [app.post('/unsubscribe', ...)] *)
Definition post_unsubscribe : M Response :=
  try_catch
    (let email := normEmail (or_else (body req "email") (VStr "")) in
     deletedCount <- Subscriber_deleteOne world email ;;
     if (deletedCount =? 0)%nat then
       ret (res_json 200 [("success", JBool true);
                          ("message", JStr "Email was not subscribed");
                          ("alreadyUnsubscribed", JBool true)])
     else
       ret (res_json 200 [("success", JBool true);
                          ("message", JStr "Unsubscribed successfully");
                          ("unsubscribed", JBool true)]))
    (fun err =>
       ret (res_json 500 [("success", JBool false); ("message", JStr "Server error")])).

(** [app.get('/unsubscribe', ...)] *)
Definition get_unsubscribe : M Response :=
  let email := query_email req in
  if negb (ToBoolean email) then ret (res_send 200 "No email provided")
  else
    try_catch
      (deletedCount <- Subscriber_deleteOne world (normEmail email) ;;
       let htmlResponse :=
         if (0 <? deletedCount)%nat then
           cat [
             nl;
             "        <html>"; nl;
             "          <body style="; dq; "font-family: Arial, sans-serif; padding: 40px; text-align: center;"; dq; ">"; nl;
             "            <h2>Successfully Unsubscribed</h2>"; nl;
             "            <p>You have been unsubscribed from "; FROM_NAME env; " newsletters.</p>"; nl;
             "            <p>You will no longer receive emails from us.</p>"; nl;
             "          </body>"; nl;
             "        </html>"; nl;
             "      " ]
         else
           cat [
             nl;
             "        <html>"; nl;
             "          <body style="; dq; "font-family: Arial, sans-serif; padding: 40px; text-align: center;"; dq; ">"; nl;
             "            <h2>Already Unsubscribed</h2>"; nl;
             "            <p>This email was not found in our subscriber list.</p>"; nl;
             "            <p>You will not receive emails from "; FROM_NAME env; ".</p>"; nl;
             "          </body>"; nl;
             "        </html>"; nl;
             "      " ] in
       ret (res_send 200 htmlResponse))
      (fun err =>
         ret (res_send 500 (cat [
                              nl;
                              "      <html>"; nl;
                              "        <body style="; dq; "font-family: Arial, sans-serif; padding: 40px; text-align: center;"; dq; ">"; nl;
                              "          <h2>Error</h2>"; nl;
                              "          <p>There was an error processing your unsubscribe request.</p>"; nl;
                              "          <p>Please try again later or contact support.</p>"; nl;
                              "        </body>"; nl;
                              "      </html>"; nl;
                              "    " ]))).

(** [required] of the start-up check. *)
Definition required : list string :=
  ["MONGODB_URI"; "FROM_EMAIL"; "FROM_NAME"; "EMAIL_USER"; "EMAIL_PASS"; "ADMIN_EMAIL";
   "PUBLISH_SECRET"].

(** [filename] of the multer storage: the special characters of the
    original name are replaced. *)
Definition filenameOf (now random : nat) (originalname : string) : string :=
  let safeName := replaceUnsafe originalname in
  cat [uniqueSuffix now random; "-"; safeName].

(** The responses of the check handler. *)
Definition isSubscribed (existingSubscriber : Subscriber) : Response :=
  res_json 200 [("success", JBool true);
                ("subscribed", JBool true);
                ("message", JStr "Email is already subscribed");
                ("data", JObj [("email", JStr (email existingSubscriber));
                               ("name", JVal (name existingSubscriber));
                               ("subscribedSince", JNum (createdAt existingSubscriber))])].

Definition isNotSubscribed : Response :=
  res_json 200 [("success", JBool true);
                ("subscribed", JBool false);
                ("message", JStr "Email is not subscribed")].

(** [app.post('/check-subscription', ...)] *)
Definition post_check_subscription : M Response :=
  let email := normEmail (or_else (body req "email") (VStr "")) in
  if negb (includes email "@") || negb (includes email ".") || (utf16Length email <? 5)%nat then
    ret (res_json 400 [("success", JBool false); ("message", JStr "Invalid email format")])
  else
    try_catch
      (existingSubscriber <- Subscriber_findOne world email ;;
       match existingSubscriber with
       | Some existingSubscriber => ret (isSubscribed existingSubscriber)
       | None => ret isNotSubscribed
       end)
      (fun err =>
         ret (res_json 500 [("success", JBool false);
                            ("message", JStr "Server error. Please try again later.")])).

End Handlers.

Section Outcomes.

Context {E : Engine}.
Variable env : Env.
Variable world : World.
Variable req : Request.
Variable d : Db.

(** The post a publish call stores. *)
Definition postOf : Post :=
  mkPost (List.length (posts d)) (body req "title")
    (or_else (body req "excerpt") (VStr "")) (or_else (body req "content") (VStr ""))
    (body req "postUrl") (attachmentUrlOf req) (attachmentNameOf req)
    (isFull (body req "sendFull")) (clock world 0).

(** The mail of the fan-out to [subscriber], the template reading the
    date [now]. *)
Definition notification (subscriber : Subscriber) (now : Time) : Mail :=
  mailOptions env world req (body req "title") (body req "excerpt") (body req "content")
    (body req "postUrl") (body req "sendFull")
    (emailBodyOf (body req "sendFull") (body req "excerpt") (body req "content"))
    (attachmentUrlOf req) (attachmentNameOf req) subscriber now.

(** [attempts] is a fan-out over [subs]: one send to each subscriber, in
    the order of [subs], with the outcome the transport gave. *)
Definition fanOut (subs : list Subscriber) (attempts : list (Mail * bool)) : Prop :=
  Forall2
    (fun subscriber a =>
       exists now n,
         fst a = notification subscriber now /\ snd a = deliveredBy world n (fst a))
    subs attempts.

(** The key and the name of a subscribe call:
    [normEmail(req.body.email || '')] and [req.body.name || '']. *)
Definition emailOf : string := normEmail (or_else (body req "email") (VStr "")).
Definition nameOf : Value := or_else (body req "name") (VStr "").

(** The document a subscribe call stores. *)
Definition subscriberOf : Subscriber := mkSubscriber emailOf nameOf (clock world 0).

(** The test of the format check of the subscribe handler. *)
Definition invalidFormat (email : string) : bool :=
  negb (includes email "@") || negb (includes email ".") || (utf16Length email <? 5)%nat.

(** The responses of the subscribe handler. *)
Definition invalidEmail : Response :=
  res_json 400 [("success", JBool false); ("message", JStr "Invalid email format")].

Definition serverError : Response :=
  res_json 500 [("success", JBool false);
                ("message", JStr "Server error. Please try again later.")].

Definition subscribed : Response :=
  res_json 200 [("success", JBool true);
                ("message", JStr "Subscribed successfully");
                ("newSubscriber", JBool true)].

(** The responses of the unsubscribe handler. *)
Definition notSubscribed : Response :=
  res_json 200 [("success", JBool true);
                ("message", JStr "Email was not subscribed");
                ("alreadyUnsubscribed", JBool true)].

Definition unsubscribed : Response :=
  res_json 200 [("success", JBool true);
                ("message", JStr "Unsubscribed successfully");
                ("unsubscribed", JBool true)].

(** The ways a subscribe call ends. *)
Inductive SubscribeOutcome : Result Response * St -> Prop :=
| Invalid :
    invalidFormat emailOf = true ->
    SubscribeOutcome (Ok invalidEmail, initial d)
| AlreadyExists (s : St) :
    invalidFormat emailOf = false ->
    db_error world 0 = None ->
    In emailOf (emails d) ->
    db s = d ->
    trace s = [] ->
    SubscribeOutcome (Ok alreadySubscribed, s)
| SubscribeFailed (response : Response) (s : St) :
    invalidFormat emailOf = false ->
    db_error world 0 <> None \/ (~ In emailOf (emails d) /\ db_error world 1 <> None) ->
    response = alreadySubscribed \/ response = serverError ->
    db s = d ->
    trace s = [] ->
    SubscribeOutcome (Ok response, s)
| Created (response : Response) (attempts : list (Mail * bool)) (s : St) :
    invalidFormat emailOf = false ->
    db_error world 0 = None ->
    db_error world 1 = None ->
    ~ In emailOf (emails d) ->
    db s = mkDb (subscribers d ++ [subscriberOf]) (posts d) ->
    trace s = SubscriberCreated subscriberOf :: map attemptEvent attempts ->
    response = subscribed \/ response = alreadySubscribed \/ response = serverError ->
    SubscribeOutcome (Ok response, s).

(** The ways a publish call ends. *)
Inductive PublishOutcome : Result Response * St -> Prop :=
| Unauthorized :
    isString (or_else (x_publish_secret req) (body req "secret")) (PUBLISH_SECRET env) = false ->
    PublishOutcome
      (Ok (res_json 401 [("success", JBool false); ("message", JStr "Invalid secret")]),
       initial d)
| MissingField :
    isString (or_else (x_publish_secret req) (body req "secret")) (PUBLISH_SECRET env) = true ->
    negb (ToBoolean (body req "title")) || negb (ToBoolean (body req "postUrl")) = true ->
    PublishOutcome
      (Ok (res_json 400 [("success", JBool false);
                         ("message", JStr "Title and post URL are required")]),
       initial d)
| StoreFailed (error : Error) (s : St) :
    isString (or_else (x_publish_secret req) (body req "secret")) (PUBLISH_SECRET env) = true ->
    negb (ToBoolean (body req "title")) || negb (ToBoolean (body req "postUrl")) = false ->
    (db_error world 0 = Some error \/ db_error world 1 = Some error) ->
    db s = d ->
    trace s = [] ->
    PublishOutcome
      (Ok (res_json 500 [("success", JBool false); ("message", JStr "Internal server error");
                         ("error", JStr (message error))]),
       s)
| Published (attempts : list (Mail * bool)) (now : Time) (adminOk : bool) (s : St) :
    isString (or_else (x_publish_secret req) (body req "secret")) (PUBLISH_SECRET env) = true ->
    negb (ToBoolean (body req "title")) || negb (ToBoolean (body req "postUrl")) = false ->
    db_error world 0 = None ->
    db_error world 1 = None ->
    db s = mkDb (subscribers d) (posts d ++ [postOf]) ->
    fanOut (subscribers d) attempts ->
    trace s =
      PostCreated postOf :: map attemptEvent attempts ++
      [MailAttempt
         (adminMail env world (body req "title") (body req "postUrl")
            (attachmentUrlOf req) (attachmentNameOf req) (delivered attempts) (failedRecipients attempts)
            (subscribers d) now)
         adminOk] ->
    PublishOutcome
      (Ok (published postOf (attachmentUrlOf req) (subscribers d) (delivered attempts)
             (failedRecipients attempts)), s).

End Outcomes.

(** The calls that can change the store. *)
Inductive Call : Type := Subscribe | Publish | Unsubscribe | UnsubscribeLink.

Definition handler {E : Engine} (env : Env) (world : World) (req : Request) (c : Call) :
    M Response :=
  match c with
  | Subscribe => post_subscribe env world req
  | Publish => publish_route env world req
  | Unsubscribe => post_unsubscribe world req
  | UnsubscribeLink => get_unsubscribe env world req
  end.

(** The stores the server can be in: the empty store, and the store any
    call leaves, whatever the request and the answers of the world. *)
Inductive reachable {E : Engine} : Db -> Prop :=
| reachable_empty : reachable emptyDb
| reachable_call (d : Db) (env : Env) (world : World) (req : Request) (c : Call) :
    reachable d -> reachable (db (snd (run (handler env world req c) d))).

End Part000.

(* ================================================================== *)
(** * Invariants and scenarios *)

(** The invariants of the stores a server reaches: keys are unique and
    every key has passed the format check of the file; and every key is
    normalized. *)
Definition Part000_inv (d : Db) : Prop :=
  NoDup (emails d) /\
  Forall (fun e => Part000.invalidFormat e = false) (emails d).

Definition IndexJs_inv (d : Db) : Prop :=
  NoDup (emails d) /\
  Forall (fun e => includes e "@" = true) (emails d).

Definition normalized {E : Engine} (d : Db) : Prop :=
  Forall (fun e => normEmail (VStr e) = e) (emails d).

Definition exampleEnv : Env :=
  mkEnv "news@example.com" "News" "mailer@example.com" "admin@example.com" "s3cret".

(** A world whose store answers, whose clock ticks, and whose transport
    refuses the mails to the recipients [refused] and delivers the
    others. *)
Definition transport (refused : string -> bool) : World :=
  mkWorld
    (fun _ m => if refused (to m) then Some (mkError None "Recipient refused") else None)
    (fun _ => None)
    (fun n => n)
    (fun _ => "1/1/2026, 9:00:00 AM")
    (fun _ => 2026).

(** A world whose transport delivers and whose store fails its [n]-th
    operation of the call with [e], and answers the others. *)
Definition storeFailsAt (n : nat) (e : Error) : World :=
  mkWorld
    (fun _ _ => None)
    (fun k => if (k =? n)%nat then Some e else None)
    (fun k => k)
    (fun _ => "1/1/2026, 9:00:00 AM")
    (fun _ => 2026).

(** A world in which everything works and the clock starts at
    [start]. *)
Definition clockFrom (start : Time) : World :=
  mkWorld
    (fun _ _ => None)
    (fun _ => None)
    (fun k => start + k)
    (fun _ => "1/1/2026, 9:00:00 AM")
    (fun _ => 2026).

(** The error of a lost connection. *)
Definition connectionLost : Error := mkError None "connection lost".

Definition deliverAll : World := transport (fun _ => false).
Definition deliverNone : World := transport (fun _ => true).
Definition refuse (recipient : string) : World := transport (String.eqb recipient).

Definition threeSubscribers : Db :=
  mkDb [mkSubscriber "a@x.com" (VStr "Ann") 1;
        mkSubscriber "b@x.com" (VStr "Bob") 2;
        mkSubscriber "c@x.com" (VStr "") 3]
       [].

(** A request with the header [x-publish-secret] and the body fields
    given. *)
Definition request (secret : Value) (fields : list (string * Value)) : Request :=
  mkRequest secret (VStr "news.example.com") "https" (bodyOf fields) None VUndefined.

(** The request of a click on the unsubscribe link of [email]. *)
Definition clicked (email : Value) : Request :=
  mkRequest VUndefined (VStr "news.example.com") "https" (bodyOf []) None email.

(** The request [req] with the file part that multer stored as [f]. *)
Definition attach (f : File) (req : Request) : Request :=
  mkRequest (x_publish_secret req) (host req) (protocol req) (body req) (Some f)
    (query_email req).

Definition leaflet : File :=
  mkFile "1767258000000-42-leaflet.pdf" "leaflet.pdf" "uploads/1767258000000-42-leaflet.pdf".

(** The three subscribers with two posts of earlier dates. *)
Definition archive : Db :=
  mkDb (subscribers threeSubscribers)
       [mkPost 0 (VStr "First") (VStr "") (VStr "") (VStr "https://x/first") VNull VNull false 4;
        mkPost 1 (VStr "Second") (VStr "") (VStr "") (VStr "https://x/second") VNull VNull
          true 7].

(** The fields of the post of the specification. *)
Definition hello (title sendFull : string) : list (string * Value) :=
  [("title", VStr title); ("postUrl", VStr "https://x/1");
   ("excerpt", VStr "EXC"); ("content", VStr "FULL"); ("sendFull", VStr sendFull)].

(** A [process.env] in which every variable the two files require is
    set, with the values of [exampleEnv]. *)
Definition exampleProcessEnv : ProcessEnv :=
  fun k =>
    option_map snd
      (find (fun kv => fst kv =? k)
         [("MONGODB_URI", "mongodb://localhost/newsletter");
          ("FROM_EMAIL", "news@example.com"); ("FROM_NAME", "News");
          ("EMAIL_USER", "mailer@example.com"); ("EMAIL_PASS", "app-password");
          ("ADMIN_EMAIL", "admin@example.com"); ("PUBLISH_SECRET", "s3cret");
          ("TEMP", "/tmp")]).

(** The store after a first subscription of [a@b.com], in each file. *)
Definition subscribedOnce_Part000 : Db :=
  db (snd (run (Part000.handler (E := asciiEngine) exampleEnv deliverAll
                  (request VUndefined [("email", VStr "a@b.com")]) Part000.Subscribe)
             emptyDb)).

Definition subscribedOnce_IndexJs : Db :=
  db (snd (run (IndexJs.handler (E := asciiEngine) exampleEnv deliverAll
                  (request VUndefined [("email", VStr "a@b.com")]) IndexJs.Subscribe)
             emptyDb)).

(* ================================================================== *)
(*                              Proofs                                *)
(* ================================================================== *)

(* ================================================================== *)
(** * Strings: facts on [includes] *)

Lemma includes_unfold (s sub : string) :
  includes s sub =
  if prefix sub s then true
  else match s with
       | EmptyString => false
       | String _ rest => includes rest sub
       end.
Proof. destruct s; reflexivity. Qed.

Lemma prefix_append (sub rest : string) : prefix sub (sub ++ rest) = true.
Proof.
  induction sub as [|c sub IH]; simpl.
  - destruct rest; reflexivity.
  - destruct (ascii_dec c c) as [_|ne]; [exact IH | contradiction].
Qed.

Lemma includes_append (before sub after : string) :
  includes (before ++ sub ++ after) sub = true.
Proof.
  induction before as [|c before IH]; rewrite includes_unfold.
  - simpl. now rewrite prefix_append.
  - simpl append. destruct (prefix sub _); [reflexivity | exact IH].
Qed.

Lemma includes_cat (pieces : list string) (sub : string) :
  In sub pieces -> includes (cat pieces) sub = true.
Proof.
  induction pieces as [|p pieces IH]; intros H; [destruct H | destruct H as [here|later]].
  - subst p. simpl.
    replace (sub ++ cat pieces)%string with (EmptyString ++ sub ++ cat pieces)%string
      by reflexivity.
    apply includes_append.
  - specialize (IH later). simpl. clear later.
    induction p as [|c p IHp]; [exact IH|].
    rewrite includes_unfold. simpl append.
    destruct (prefix sub _); [reflexivity | exact IHp].
Qed.

(* ================================================================== *)
(** * Normalization of emails *)

(** ** Dropping white space *)

Lemma prefix_app (w p q : string) : prefix w p = true -> prefix w (p ++ q) = true.
Proof.
  revert p. induction w as [|a w IH]; intros p; [intros _; now destruct (p ++ q)%string|].
  destruct p as [|b p]; simpl; [easy|].
  destruct (ascii_dec a b); [apply IH | easy].
Qed.

Lemma spaceAt_app (spaces : list string) (p q : string) :
  (forall w, In w spaces -> w <> EmptyString) ->
  spaceAt spaces (p ++ q) = 0 -> spaceAt spaces p = 0.
Proof.
  intros Hne. unfold spaceAt.
  destruct (find (fun w => prefix w p) spaces) as [w|] eqn:Hp; [|reflexivity].
  apply find_some in Hp as [Hin Hw].
  destruct (find (fun w => prefix w (p ++ q)) spaces) as [w'|] eqn:Hpq.
  - apply find_some in Hpq as [Hin' _]. specialize (Hne w' Hin').
    destruct w'; [now elim Hne | discriminate].
  - intros _. apply (find_none _ _ Hpq) in Hin. now rewrite (prefix_app _ _ q Hw) in Hin.
Qed.

Lemma dropSpaces_fixed (spaces : list string) (s : string) :
  spaceAt spaces s = 0 -> dropSpaces spaces 0 s = s.
Proof. destruct s as [|c s]; [reflexivity|]. cbn [dropSpaces]. now intros ->. Qed.

Lemma dropSpaces_clean (spaces : list string) (s : string) :
  (forall w, In w spaces -> w <> EmptyString) ->
  forall skip, spaceAt spaces (dropSpaces spaces skip s) = 0.
Proof.
  intros Hne. induction s as [|c s IH]; intros skip.
  - cbn [dropSpaces]. unfold spaceAt.
    destruct (find _ spaces) as [w|] eqn:Hw; [|reflexivity].
    apply find_some in Hw as [Hin Hw]. specialize (Hne w Hin).
    destruct w; [now elim Hne | discriminate].
  - cbn [dropSpaces]. destruct skip as [|k]; [|apply IH].
    destruct (spaceAt spaces (String c s)) eqn:Hat; [exact Hat | apply IH].
Qed.

Lemma dropSpaces_suffix (spaces : list string) (s : string) :
  forall skip, exists dropped, s = (dropped ++ dropSpaces spaces skip s)%string.
Proof.
  induction s as [|c s IH]; intros skip; [now exists EmptyString|].
  cbn [dropSpaces]. destruct skip as [|k].
  - destruct (spaceAt spaces (String c s)); [now exists EmptyString|].
    destruct (IH n) as (dropped & H). exists (String c dropped). simpl. now rewrite <- H.
  - destruct (IH k) as (dropped & H). exists (String c dropped). simpl. now rewrite <- H.
Qed.

Lemma list_of_append (s t : string) :
  list_ascii_of_string (s ++ t) = list_ascii_of_string s ++ list_ascii_of_string t.
Proof. induction s as [|c s IH]; simpl; [reflexivity | now rewrite IH]. Qed.

Lemma string_of_app (l m : list ascii) :
  string_of_list_ascii (l ++ m) = (string_of_list_ascii l ++ string_of_list_ascii m)%string.
Proof. induction l as [|c l IH]; simpl; [reflexivity | now rewrite IH]. Qed.

Lemma reverse_involutive (s : string) : reverse (reverse s) = s.
Proof.
  unfold reverse.
  now rewrite list_ascii_of_string_of_list_ascii, rev_involutive,
    string_of_list_ascii_of_string.
Qed.

Lemma reverse_append (s t : string) : reverse (s ++ t) = (reverse t ++ reverse s)%string.
Proof. unfold reverse. now rewrite list_of_append, rev_app_distr, string_of_app. Qed.

Lemma whiteSpace_nonempty (w : string) : In w whiteSpace -> w <> EmptyString.
Proof.
  intros Hin ->. revert Hin. unfold whiteSpace. cbn [In].
  intuition discriminate.
Qed.

Lemma reversed_nonempty (w : string) : In w (map reverse whiteSpace) -> w <> EmptyString.
Proof.
  intros Hin ->. revert Hin. unfold whiteSpace. cbn [In map].
  intuition discriminate.
Qed.

Lemma trimStart_clean (s : string) : spaceAt whiteSpace (trimStart s) = 0.
Proof. apply dropSpaces_clean, whiteSpace_nonempty. Qed.

Lemma trim_clean (s : string) :
  spaceAt whiteSpace (trim s) = 0 /\ spaceAt (map reverse whiteSpace) (reverse (trim s)) = 0.
Proof.
  unfold trim, trimEnd. rewrite reverse_involutive. split.
  - destruct (dropSpaces_suffix (map reverse whiteSpace) (reverse (trimStart s)) 0)
      as (dropped & H).
    apply (f_equal reverse) in H. rewrite reverse_involutive, reverse_append in H.
    apply (spaceAt_app whiteSpace _ (reverse dropped) whiteSpace_nonempty).
    rewrite <- H. apply trimStart_clean.
  - apply dropSpaces_clean, reversed_nonempty.
Qed.

Lemma trim_fixed (s : string) :
  spaceAt whiteSpace s = 0 -> spaceAt (map reverse whiteSpace) (reverse s) = 0 ->
  trim s = s.
Proof.
  intros Hstart Hend. unfold trim, trimStart, trimEnd.
  rewrite (dropSpaces_fixed _ _ Hstart), (dropSpaces_fixed _ _ Hend).
  apply reverse_involutive.
Qed.

Lemma trim_idempotent (s : string) : trim (trim s) = trim s.
Proof. destruct (trim_clean s). now apply trim_fixed. Qed.

(** ** Lower-casing *)

(** A normalized email is its own normal form. *)
Lemma normEmail_idempotent {E : Engine} (v : Value) :
  Lawful E -> normEmail (VStr (normEmail v)) = normEmail v.
Proof.
  intros [Hidem Htrim _]. unfold normEmail. cbn [ToString].
  now rewrite (Htrim _ (trim_idempotent _)), Hidem.
Qed.

Lemma isAscii_append (s t : string) : isAscii (s ++ t) = isAscii s && isAscii t.
Proof. unfold isAscii. now rewrite list_of_append, forallb_app. Qed.

Lemma isAscii_reverse (s : string) : isAscii (reverse s) = isAscii s.
Proof.
  unfold isAscii, reverse. rewrite list_ascii_of_string_of_list_ascii.
  generalize (list_ascii_of_string s). intros l.
  induction l as [|c l IH]; [reflexivity|].
  simpl. rewrite forallb_app, IH. simpl. now rewrite andb_true_r, andb_comm.
Qed.

Lemma isAscii_dropSpaces (spaces : list string) (s : string) (skip : nat) :
  isAscii s = true -> isAscii (dropSpaces spaces skip s) = true.
Proof.
  destruct (dropSpaces_suffix spaces s skip) as (dropped & H).
  intros Hs. rewrite H, isAscii_append in Hs. now apply andb_true_iff in Hs.
Qed.

Lemma isAscii_trim (s : string) : isAscii s = true -> isAscii (trim s) = true.
Proof.
  intros Hs. unfold trim, trimEnd, trimStart.
  rewrite isAscii_reverse. apply isAscii_dropSpaces.
  rewrite isAscii_reverse. now apply isAscii_dropSpaces.
Qed.

(** The key of an email of ASCII characters. *)
Lemma normEmail_ascii {E : Engine} (s : string) :
  Lawful E -> isAscii s = true -> normEmail (VStr s) = asciiLowerCase (trim s).
Proof.
  intros [_ _ Hascii] Hs. unfold normEmail. cbn [ToString].
  apply Hascii. now apply isAscii_trim.
Qed.

(** ** The engine on ASCII strings *)

Lemma lowerChar_idempotent (c : ascii) : lowerChar (lowerChar c) = lowerChar c.
Proof. destruct c as [[] [] [] [] [] [] [] []]; reflexivity. Qed.

Lemma asciiLowerCase_idempotent (s : string) :
  asciiLowerCase (asciiLowerCase s) = asciiLowerCase s.
Proof.
  induction s as [|c s IH]; [reflexivity|].
  simpl. now rewrite lowerChar_idempotent, IH.
Qed.

Lemma lowerChar_other (a b : ascii) :
  nat_of_ascii a < 65 \/ 122 < nat_of_ascii a -> (a = lowerChar b <-> a = b).
Proof.
  intros Ha. unfold lowerChar.
  destruct ((65 <=? nat_of_ascii b) && (nat_of_ascii b <=? 90))%nat eqn:Hb; [|tauto].
  apply andb_true_iff in Hb as [H1%Nat.leb_le H2%Nat.leb_le]. split.
  - intros ->. rewrite nat_ascii_embedding in Ha by lia. lia.
  - intros ->. lia.
Qed.

Lemma prefix_asciiLowerCase (w s : string) :
  (forall c, In c (list_ascii_of_string w) -> nat_of_ascii c < 65 \/ 122 < nat_of_ascii c) ->
  prefix w (asciiLowerCase s) = prefix w s.
Proof.
  revert s. induction w as [|a w IH]; intros s Hw; [now destruct s|].
  destruct s as [|b s]; [reflexivity|]. simpl.
  pose proof (lowerChar_other a b (Hw a (or_introl eq_refl))) as Hab.
  destruct (ascii_dec a (lowerChar b)) as [H|H], (ascii_dec a b) as [H'|H']; try tauto.
  apply IH. intros c Hc. apply Hw. now right.
Qed.

Lemma spaceAt_asciiLowerCase (spaces : list string) (s : string) :
  (forall w c, In w spaces -> In c (list_ascii_of_string w) ->
               nat_of_ascii c < 65 \/ 122 < nat_of_ascii c) ->
  spaceAt spaces (asciiLowerCase s) = spaceAt spaces s.
Proof.
  intros Hsp. unfold spaceAt.
  assert (Hfind : find (fun w => prefix w (asciiLowerCase s)) spaces =
                  find (fun w => prefix w s) spaces).
  { induction spaces as [|w spaces IH]; [reflexivity|]. simpl.
    rewrite (prefix_asciiLowerCase w s) by (intros c; apply Hsp; now left).
    destruct (prefix w s); [reflexivity|]. apply IH.
    intros w' c Hw'. apply Hsp. now right. }
  now rewrite Hfind.
Qed.

Lemma dropSpaces_asciiLowerCase (spaces : list string) (s : string) :
  (forall w c, In w spaces -> In c (list_ascii_of_string w) ->
               nat_of_ascii c < 65 \/ 122 < nat_of_ascii c) ->
  forall skip,
    dropSpaces spaces skip (asciiLowerCase s) = asciiLowerCase (dropSpaces spaces skip s).
Proof.
  intros Hsp. induction s as [|c s IH]; intros skip; [reflexivity|].
  change (asciiLowerCase (String c s)) with (String (lowerChar c) (asciiLowerCase s)).
  cbn [dropSpaces]. destruct skip as [|k]; [|apply IH].
  change (String (lowerChar c) (asciiLowerCase s)) with (asciiLowerCase (String c s)).
  rewrite (spaceAt_asciiLowerCase _ _ Hsp).
  destruct (spaceAt spaces (String c s)); [reflexivity | apply IH].
Qed.

Lemma reverse_asciiLowerCase (s : string) :
  reverse (asciiLowerCase s) = asciiLowerCase (reverse s).
Proof.
  induction s as [|c s IH]; [reflexivity|].
  change (String c s) with ((String c EmptyString) ++ s)%string at 2.
  change (asciiLowerCase (String c s))
    with ((String (lowerChar c) EmptyString) ++ asciiLowerCase s)%string.
  rewrite !reverse_append, IH.
  generalize (reverse s). intros r. induction r as [|x r IHr]; [reflexivity|].
  simpl. now rewrite IHr.
Qed.

Lemma whiteSpace_bytes (w : string) (c : ascii) :
  In w whiteSpace \/ In w (map reverse whiteSpace) -> In c (list_ascii_of_string w) ->
  nat_of_ascii c < 65 \/ 122 < nat_of_ascii c.
Proof.
  assert (H : forallb (fun w => forallb (fun c => (nat_of_ascii c <? 65)
                                                  || (122 <? nat_of_ascii c))%nat
                                  (list_ascii_of_string w))
                (whiteSpace ++ map reverse whiteSpace) = true) by (vm_compute; reflexivity).
  rewrite forallb_forall in H. intros Hw Hc.
  specialize (H w (proj2 (in_app_iff _ _ _) Hw)).
  rewrite forallb_forall in H. specialize (H c Hc).
  apply orb_true_iff in H as [H%Nat.ltb_lt|H%Nat.ltb_lt]; lia.
Qed.

Lemma trim_asciiLowerCase (s : string) : trim (asciiLowerCase s) = asciiLowerCase (trim s).
Proof.
  unfold trim, trimEnd, trimStart.
  rewrite (dropSpaces_asciiLowerCase whiteSpace)
    by (intros w c Hw; apply whiteSpace_bytes; now left).
  rewrite reverse_asciiLowerCase.
  rewrite (dropSpaces_asciiLowerCase (map reverse whiteSpace))
    by (intros w c Hw; apply whiteSpace_bytes; now right).
  apply reverse_asciiLowerCase.
Qed.

(** The engine of the scenarios obeys the three laws. *)
Lemma asciiEngine_lawful : Lawful asciiEngine.
Proof.
  split; cbn [toLowerCase asciiEngine].
  - apply asciiLowerCase_idempotent.
  - intros s Hs. now rewrite trim_asciiLowerCase, Hs.
  - reflexivity.
Qed.

(* ================================================================== *)
(** * Traces *)

Lemma mailAttempts_app (t u : list Event) :
  mailAttempts (t ++ u) = mailAttempts t ++ mailAttempts u.
Proof.
  induction t as [|e t IH]; [reflexivity|].
  destruct e; simpl; rewrite IH; reflexivity.
Qed.

Lemma mailAttempts_attempts (attempts : list (Mail * bool)) :
  mailAttempts (map attemptEvent attempts) = attempts.
Proof.
  induction attempts as [|[m ok] attempts IH]; [reflexivity|].
  simpl. now rewrite IH.
Qed.

Lemma postsCreated_app (t u : list Event) :
  postsCreated (t ++ u) = postsCreated t ++ postsCreated u.
Proof.
  induction t as [|e t IH]; [reflexivity|].
  destruct e; simpl; rewrite IH; reflexivity.
Qed.

Lemma postsCreated_attempts (attempts : list (Mail * bool)) :
  postsCreated (map attemptEvent attempts) = [].
Proof. induction attempts as [|[m ok] attempts IH]; [reflexivity | exact IH]. Qed.

Lemma delivered_failed (attempts : list (Mail * bool)) :
  delivered attempts + List.length (failedRecipients attempts) = List.length attempts.
Proof.
  unfold delivered, failedRecipients. rewrite length_map.
  induction attempts as [|[m ok] attempts IH]; [reflexivity|].
  simpl. destruct ok; simpl; lia.
Qed.

Lemma delivered_app (a b : list (Mail * bool)) :
  delivered (a ++ b) = delivered a + delivered b.
Proof. unfold delivered. now rewrite filter_app, length_app. Qed.



(* ================================================================== *)
(** * The collaborators, step by step *)

Arguments cat : simpl never.
Arguments includes : simpl never.
Arguments showNat : simpl never.
Arguments normEmail : simpl never.
Arguments publishHtml : simpl never.
Arguments welcomeHtml : simpl never.
Arguments newSubscriberHtml : simpl never.
Arguments IndexJs.adminHtml : simpl never.
Arguments Part000.adminHtml : simpl never.
Arguments IndexJs.mailOptions : simpl never.
Arguments Part000.mailOptions : simpl never.
Arguments IndexJs.adminMail : simpl never.
Arguments Part000.adminMail : simpl never.
Arguments IndexJs.published : simpl never.
Arguments Part000.published : simpl never.

Lemma safeSend_eq (world : World) (mail : Mail) (s : St) :
  safeSend world mail s =
  (Ok (deliveredBy world (sends s) mail),
   mkSt (db s) (trace s ++ [MailAttempt mail (deliveredBy world (sends s) mail)])
     (S (sends s)) (dbops s) (dates s)).
Proof.
  unfold safeSend, try_catch, bind, sendMail, ret, deliveredBy.
  destruct (sendMail_error world (sends s) mail); reflexivity.
Qed.

Lemma forOf_cons {A V} (x : A) (rest : list A) (iteration : A -> V -> M V) (vars : V) (s : St) :
  forOf (x :: rest) iteration vars s =
  match iteration x vars s with
  | (Ok vars', s') => forOf rest iteration vars' s'
  | (Throw e, s') => (Throw e, s')
  end.
Proof. reflexivity. Qed.

Section FanOut.

Variable env : Env.
Variable world : World.
Variable req : Request.

(** One iteration of the loop of [src/index.js]. *)
Lemma IndexJs_notify_eq (subscriber : Subscriber) (sentCount : nat) (s : St) :
  let m := IndexJs.notification env world req subscriber (clock world (dates s)) in
  let ok := deliveredBy world (sends s) m in
  IndexJs.notify env world req (body req "title") (body req "excerpt") (body req "content")
    (body req "postUrl") (body req "sendFull")
    (IndexJs.emailBodyOf (body req "sendFull") (body req "excerpt") (body req "content"))
    (attachmentUrlOf req) (attachmentNameOf req) subscriber sentCount s =
  (Ok (if ok then S sentCount else sentCount),
   mkSt (db s) (trace s ++ [MailAttempt m ok]) (S (sends s)) (dbops s) (S (dates s))).
Proof.
  unfold IndexJs.notify, IndexJs.notification, bind, newDate. simpl.
  rewrite safeSend_eq. reflexivity.
Qed.

(** The whole loop of [src/index.js]: it never throws, leaves the store
    as it is, and sends once to each subscriber, in order. *)
Lemma IndexJs_loop (subs : list Subscriber) :
  forall (sentCount : nat) (s : St),
  exists attempts s',
    forOf subs
      (IndexJs.notify env world req (body req "title") (body req "excerpt")
         (body req "content") (body req "postUrl") (body req "sendFull")
         (IndexJs.emailBodyOf (body req "sendFull") (body req "excerpt") (body req "content"))
         (attachmentUrlOf req) (attachmentNameOf req))
      sentCount s = (Ok (sentCount + delivered attempts), s') /\
    db s' = db s /\
    dbops s' = dbops s /\
    trace s' = trace s ++ map attemptEvent attempts /\
    IndexJs.fanOut env world req subs attempts.
Proof.
  induction subs as [|subscriber subs IH]; intros sentCount s.
  - exists [], s. simpl. unfold ret. rewrite Nat.add_0_r, app_nil_r.
    repeat split. constructor.
  - rewrite forOf_cons, IndexJs_notify_eq. cbv zeta.
    set (m := IndexJs.notification env world req subscriber (clock world (dates s))).
    set (ok := deliveredBy world (sends s) m).
    destruct (IH (if ok then S sentCount else sentCount)
                 (mkSt (db s) (trace s ++ [MailAttempt m ok]) (S (sends s)) (dbops s)
                    (S (dates s))))
      as (attempts & s' & Hrun & Hdb & Hops & Htrace & Hfan).
    exists ((m, ok) :: attempts), s'. rewrite Hrun. simpl in *.
    repeat split; try assumption.
    + f_equal. f_equal. change ((m, ok) :: attempts) with ([(m, ok)] ++ attempts).
      rewrite delivered_app. unfold delivered at 2. simpl. destruct ok; simpl; lia.
    + rewrite Htrace, <- app_assoc. reflexivity.
    + constructor; [|exact Hfan]. exists (clock world (dates s)), (sends s). now split.
Qed.

(** One iteration of the loop of [src/unnamed/part_000]. *)
Lemma Part000_notify_eq (subscriber : Subscriber) (sentCount : nat)
    (failedEmails : list string) (s : St) :
  let m := Part000.notification env world req subscriber (clock world (dates s)) in
  let ok := deliveredBy world (sends s) m in
  Part000.notify env world req (body req "title") (body req "excerpt") (body req "content")
    (body req "postUrl") (body req "sendFull")
    (Part000.emailBodyOf (body req "sendFull") (body req "excerpt") (body req "content"))
    (attachmentUrlOf req) (attachmentNameOf req) subscriber (sentCount, failedEmails) s =
  (Ok (if ok then (S sentCount, failedEmails)
       else (sentCount, failedEmails ++ [email subscriber])),
   mkSt (db s) (trace s ++ [MailAttempt m ok]) (S (sends s)) (dbops s) (S (dates s))).
Proof.
  unfold Part000.notify, Part000.notification, bind, newDate, try_catch. simpl.
  rewrite safeSend_eq. simpl.
  destruct (deliveredBy world (sends s) _); reflexivity.
Qed.

Lemma Part000_notification_to (subscriber : Subscriber) (now : Time) :
  to (Part000.notification env world req subscriber now) = email subscriber.
Proof. reflexivity. Qed.

(** The whole loop of [src/unnamed/part_000]: it never throws, leaves
    the store as it is, sends once to each subscriber, in order, counts
    the delivered mails and lists the recipients of the others. *)
Lemma Part000_loop (subs : list Subscriber) :
  forall (sentCount : nat) (failedEmails : list string) (s : St),
  exists attempts s',
    forOf subs
      (Part000.notify env world req (body req "title") (body req "excerpt")
         (body req "content") (body req "postUrl") (body req "sendFull")
         (Part000.emailBodyOf (body req "sendFull") (body req "excerpt") (body req "content"))
         (attachmentUrlOf req) (attachmentNameOf req))
      (sentCount, failedEmails) s =
      (Ok (sentCount + delivered attempts, failedEmails ++ failedRecipients attempts), s') /\
    db s' = db s /\
    dbops s' = dbops s /\
    trace s' = trace s ++ map attemptEvent attempts /\
    Part000.fanOut env world req subs attempts.
Proof.
  induction subs as [|subscriber subs IH]; intros sentCount failedEmails s.
  - exists [], s. simpl. unfold ret. rewrite Nat.add_0_r, !app_nil_r.
    repeat split. constructor.
  - rewrite forOf_cons, Part000_notify_eq. cbv zeta.
    set (m := Part000.notification env world req subscriber (clock world (dates s))).
    set (ok := deliveredBy world (sends s) m).
    set (s1 := mkSt (db s) (trace s ++ [MailAttempt m ok]) (S (sends s)) (dbops s)
                 (S (dates s))).
    assert (Hto : to m = email subscriber) by apply Part000_notification_to.
    destruct ok eqn:Hok.
    + destruct (IH (S sentCount) failedEmails s1)
        as (attempts & s' & Hrun & Hdb & Hops & Htrace & Hfan).
      exists ((m, true) :: attempts), s'. rewrite Hrun.
      repeat split; try assumption.
      * f_equal. f_equal. unfold delivered, failedRecipients. simpl.
        f_equal. lia.
      * rewrite Htrace. unfold s1. simpl. now rewrite <- app_assoc.
      * constructor; [|exact Hfan].
        exists (clock world (dates s)), (sends s). split; [reflexivity | now symmetry].
    + destruct (IH sentCount (failedEmails ++ [email subscriber]) s1)
        as (attempts & s' & Hrun & Hdb & Hops & Htrace & Hfan).
      exists ((m, false) :: attempts), s'. rewrite Hrun.
      repeat split; try assumption.
      * f_equal. f_equal. unfold delivered, failedRecipients. simpl. try rewrite Hto.
        now rewrite <- app_assoc.
      * rewrite Htrace. unfold s1. simpl. now rewrite <- app_assoc.
      * constructor; [|exact Hfan].
        exists (clock world (dates s)), (sends s). split; [reflexivity | now symmetry].
Qed.

End FanOut.

(* ================================================================== *)
(** * How a publish call ends *)

Section Publish.

Variable env : Env.
Variable world : World.
Variable req : Request.
Variable d : Db.

Ltac state := cbn [db trace sends dbops dates subscribers posts app].

Lemma IndexJs_publish_outcome :
  IndexJs.PublishOutcome env world req d (run (IndexJs.post_publish env world req) d).
Proof.
  unfold run, initial, IndexJs.post_publish, try_catch.
  destruct (isString (x_publish_secret req) (PUBLISH_SECRET env)) eqn:Hsecret; cbn [negb].
  2: { now constructor. }
  destruct (negb (ToBoolean (body req "title")) || negb (ToBoolean (body req "postUrl")))
    eqn:Hfields.
  { now constructor. }
  unfold bind at 1. unfold Subscriber_find, dbOp. state.
  destruct (db_error world 0) as [e0|] eqn:H0.
  { apply IndexJs.StoreFailed with (error := e0); auto. }
  unfold bind at 1. unfold newDate at 1. state.
  unfold bind at 1. unfold Post_create, dbOp. state.
  destruct (db_error world 1) as [e1|] eqn:H1.
  { apply IndexJs.StoreFailed with (error := e1); auto. }
  unfold bind at 1. unfold log, setDb. state.
  match goal with
  | |- context [forOf ?subs ?it ?v ?s] =>
      destruct (IndexJs_loop env world req subs v s)
        as (attempts & s' & Hrun & Hdb & Hops & Htrace & Hfan)
  end.
  rewrite Hrun. unfold bind at 1. unfold newDate at 1.
  unfold bind at 1. rewrite safeSend_eq. unfold ret.
  cbn [db trace sends dbops dates subscribers posts app] in *.
  rewrite Nat.add_0_l.
  eapply IndexJs.Published with (attempts := attempts); auto.
  state. rewrite Htrace. reflexivity.
Qed.

Lemma Part000_publish_outcome :
  Part000.PublishOutcome env world req d (run (Part000.post_publish env world req) d).
Proof.
  unfold run, initial, Part000.post_publish, try_catch.
  destruct (isString (or_else (x_publish_secret req) (body req "secret")) (PUBLISH_SECRET env))
    eqn:Hsecret; cbn [negb].
  2: { now constructor. }
  destruct (negb (ToBoolean (body req "title")) || negb (ToBoolean (body req "postUrl")))
    eqn:Hfields.
  { now constructor. }
  unfold bind at 1. unfold Subscriber_find, dbOp. state.
  destruct (db_error world 0) as [e0|] eqn:H0.
  { apply Part000.StoreFailed with (error := e0); auto. }
  unfold bind at 1. unfold newDate at 1. state.
  unfold bind at 1. unfold Post_create, dbOp. state.
  destruct (db_error world 1) as [e1|] eqn:H1.
  { apply Part000.StoreFailed with (error := e1); auto. }
  unfold bind at 1. unfold log, setDb. state.
  match goal with
  | |- context [forOf ?subs ?it (?a, ?b) ?s] =>
      destruct (Part000_loop env world req subs a b s)
        as (attempts & s' & Hrun & Hdb & Hops & Htrace & Hfan)
  end.
  rewrite Hrun. unfold bind at 1. unfold newDate at 1.
  unfold bind at 1. rewrite safeSend_eq. unfold ret.
  cbn [db trace sends dbops dates subscribers posts app] in *.
  rewrite Nat.add_0_l.
  eapply Part000.Published with (attempts := attempts); auto.
  state. rewrite Htrace. reflexivity.
Qed.

(** The frame of a publish call: the subscribers are read, not
    written. *)
Lemma IndexJs_publish_frame :
  subscribers (db (snd (run (IndexJs.post_publish env world req) d))) = subscribers d.
Proof.
  destruct IndexJs_publish_outcome as [| |e s _ _ _ Hdb _|a n ok s _ _ _ _ Hdb _ _];
    cbn [snd initial db]; try reflexivity; now rewrite Hdb.
Qed.

Lemma Part000_publish_frame :
  subscribers (db (snd (run (Part000.post_publish env world req) d))) = subscribers d.
Proof.
  destruct Part000_publish_outcome as [| |e s _ _ _ Hdb _|a n ok s _ _ _ _ Hdb _ _];
    cbn [snd initial db]; try reflexivity; now rewrite Hdb.
Qed.

End Publish.

(* ================================================================== *)
(** * Publish: frame, rejection, ordering *)

Lemma isString_true (v : Value) (s : string) : isString v s = true <-> v = VStr s.
Proof.
  destruct v; simpl; try (split; [discriminate | intros H; discriminate H]).
  rewrite String.eqb_eq. split; [now intros -> | now intros [= ->]].
Qed.

Lemma isString_false (v : Value) (s : string) : isString v s = false <-> v <> VStr s.
Proof.
  rewrite <- isString_true. destruct (isString v s); split; congruence.
Qed.

(** C10. Whatever the request, the answers of the store, of the
    transport and of the clock, and however the call ends, a publish
    call leaves the subscriber collection as it found it, in both server
    files. *)
Theorem publish_keeps_subscribers (env : Env) (world : World) (req : Request) (d : Db) :
  subscribers (db (snd (run (IndexJs.post_publish env world req) d))) = subscribers d /\
  subscribers (db (snd (run (Part000.post_publish env world req) d))) = subscribers d.
Proof.
  split; [apply IndexJs_publish_frame | apply Part000_publish_frame].
Qed.

(** C3. A publish call whose secret does not match is answered 401, and
    one whose secret matches but whose title or postUrl is missing (or
    empty) is answered 400; a call answered 401 or 400 writes nothing to
    the store and hands no mail to the transport, whatever its other
    fields.  This holds in both server files. *)
Theorem rejected_publish_has_no_effect (env : Env) (world : World) (req : Request) (d : Db) :
  let rI := run (IndexJs.post_publish env world req) d in
  let rP := run (Part000.post_publish env world req) d in
  (x_publish_secret req <> VStr (PUBLISH_SECRET env) -> statusOf (fst rI) = Some 401) /\
  (or_else (x_publish_secret req) (body req "secret") <> VStr (PUBLISH_SECRET env) ->
   statusOf (fst rP) = Some 401) /\
  (x_publish_secret req = VStr (PUBLISH_SECRET env) ->
   ToBoolean (body req "title") = false \/ ToBoolean (body req "postUrl") = false ->
   statusOf (fst rI) = Some 400) /\
  (or_else (x_publish_secret req) (body req "secret") = VStr (PUBLISH_SECRET env) ->
   ToBoolean (body req "title") = false \/ ToBoolean (body req "postUrl") = false ->
   statusOf (fst rP) = Some 400) /\
  (statusOf (fst rI) = Some 401 \/ statusOf (fst rI) = Some 400 ->
   db (snd rI) = d /\ trace (snd rI) = []) /\
  (statusOf (fst rP) = Some 401 \/ statusOf (fst rP) = Some 400 ->
   db (snd rP) = d /\ trace (snd rP) = []).
Proof.
  cbv zeta.
  assert (missing : forall a b : bool, a = false \/ b = false -> negb a || negb b = true)
    by (intros [] [] [H|H]; (discriminate H || reflexivity)).
  split; [|split; [|split; [|split; [|split]]]].
  - intros Hs%isString_false.
    destruct (IndexJs_publish_outcome env world req d); try congruence; reflexivity.
  - intros Hs%isString_false.
    destruct (Part000_publish_outcome env world req d); try congruence; reflexivity.
  - intros Hs%isString_true Hf%missing.
    destruct (IndexJs_publish_outcome env world req d); try congruence; reflexivity.
  - intros Hs%isString_true Hf%missing.
    destruct (Part000_publish_outcome env world req d); try congruence; reflexivity.
  - destruct (IndexJs_publish_outcome env world req d); cbn; intros [Hst|Hst];
      try discriminate Hst; now split.
  - destruct (Part000_publish_outcome env world req d); cbn; intros [Hst|Hst];
      try discriminate Hst; now split.
Qed.


Lemma postsCreated_published (p : Post) (attempts : list (Mail * bool)) (last : Event) :
  postsCreated (PostCreated p :: map attemptEvent attempts ++ [last]) =
  p :: postsCreated [last].
Proof.
  simpl. now rewrite postsCreated_app, postsCreated_attempts.
Qed.

Lemma mailAttempts_published (p : Post) (attempts : list (Mail * bool)) (m : Mail) (ok : bool) :
  mailAttempts (PostCreated p :: map attemptEvent attempts ++ [MailAttempt m ok]) =
  attempts ++ [(m, ok)].
Proof.
  simpl. now rewrite mailAttempts_app, mailAttempts_attempts.
Qed.

Section Responses.

Variable env : Env.
Variable world : World.
Variable req : Request.

Lemma IndexJs_fanOut_to (subs : list Subscriber) (attempts : list (Mail * bool)) :
  IndexJs.fanOut env world req subs attempts ->
  map (fun a => to (fst a)) attempts = map email subs.
Proof.
  induction 1 as [|subscriber a subs attempts (now & n & Hm & _) _ IH]; [reflexivity|].
  simpl. now rewrite IH, Hm.
Qed.

Lemma Part000_fanOut_to (subs : list Subscriber) (attempts : list (Mail * bool)) :
  Part000.fanOut env world req subs attempts ->
  map (fun a => to (fst a)) attempts = map email subs.
Proof.
  induction 1 as [|subscriber a subs attempts (now & n & Hm & _) _ IH]; [reflexivity|].
  simpl. now rewrite IH, Hm.
Qed.




Lemma Part000_published_fields (post : Post) (attachmentUrl : Value) (subs : list Subscriber)
    (sentCount : nat) (failedEmails : list string) :
  let response := Part000.published post attachmentUrl subs sentCount failedEmails in
  status response = 200 /\
  field "success" response = Some (JBool true) /\
  field2 "sent" "subscribers" response = Some (JNum sentCount) /\
  field2 "sent" "total" response = Some (JNum (List.length subs)) /\
  field2 "sent" "failed" response = Some (JNum (List.length failedEmails)) /\
  field "failedEmails" response =
    match failedEmails with
    | [] => None
    | _ => Some (JArr (map JStr failedEmails))
    end.
Proof.
  unfold Part000.published.
  destruct failedEmails as [|e rest]; cbn; repeat split.
Qed.

End Responses.


(* ================================================================== *)
(** * The publish route: the upload, then the handler *)

Lemma Framed_ret {A} (a : A) : Framed (ret a).
Proof. intros before s. reflexivity. Qed.

Lemma Framed_bind {A B} (c : M A) (k : A -> M B) :
  Framed c -> (forall a, Framed (k a)) -> Framed (bind c k).
Proof.
  intros Hc Hk before s. unfold bind. rewrite Hc.
  destruct (c s) as [[a|e] s']; cbn [fst snd]; [apply Hk | reflexivity].
Qed.

Lemma Framed_try_catch {A} (c : M A) (handler : Error -> M A) :
  Framed c -> (forall e, Framed (handler e)) -> Framed (try_catch c handler).
Proof.
  intros Hc Hh before s. unfold try_catch. rewrite Hc.
  destruct (c s) as [[a|e] s']; cbn [fst snd]; [reflexivity | apply Hh].
Qed.

Lemma Framed_newDate (world : World) : Framed (newDate world).
Proof. intros before s. reflexivity. Qed.

Lemma Framed_dbOp {A} (world : World) (op : M A) : Framed op -> Framed (dbOp world op).
Proof.
  intros Hop before s. unfold dbOp. cbn [prepend db trace sends dbops dates].
  destruct (db_error world (dbops s)); [reflexivity|].
  exact (Hop before (mkSt (db s) (trace s) (sends s) (S (dbops s)) (dates s))).
Qed.

Lemma Framed_safeSend (world : World) (mail : Mail) : Framed (safeSend world mail).
Proof.
  intros before s. rewrite !safeSend_eq. unfold prepend.
  cbn [fst snd db trace sends dbops dates]. now rewrite app_assoc.
Qed.

Lemma Framed_forOf {A V} (xs : list A) (iteration : A -> V -> M V) :
  (forall x vars, Framed (iteration x vars)) -> forall vars, Framed (forOf xs iteration vars).
Proof.
  intros Hit. induction xs as [|x xs IH]; intros vars.
  - apply Framed_ret.
  - cbn [forOf]. apply Framed_bind; [apply Hit | exact IH].
Qed.

Lemma Framed_Subscriber_find (world : World) : Framed (Subscriber_find world).
Proof. apply Framed_dbOp. intros before s. reflexivity. Qed.

Lemma Framed_Post_create (world : World)
    (title excerpt content postUrl attachmentUrl attachmentName : Value)
    (sendFull : bool) (publishedAt : Time) :
  Framed (Post_create world title excerpt content postUrl attachmentUrl attachmentName
            sendFull publishedAt).
Proof.
  apply Framed_dbOp. intros before s. unfold prepend, log, setDb.
  cbn [fst snd db trace sends dbops dates]. now rewrite app_assoc.
Qed.

Lemma Framed_IndexJs_publish (env : Env) (world : World) (req : Request) :
  Framed (IndexJs.post_publish env world req).
Proof.
  unfold IndexJs.post_publish.
  apply Framed_try_catch; [|intros e; apply Framed_ret].
  destruct (negb _); [apply Framed_ret|].
  destruct (_ || _); [apply Framed_ret|].
  apply Framed_bind; [apply Framed_Subscriber_find | intros subs].
  apply Framed_bind; [apply Framed_newDate | intros publishedAt].
  apply Framed_bind; [apply Framed_Post_create | intros post].
  apply Framed_bind.
  { apply Framed_forOf. intros subscriber sentCount. unfold IndexJs.notify.
    apply Framed_bind; [apply Framed_newDate | intros now].
    apply Framed_bind; [apply Framed_safeSend | intros ok; apply Framed_ret]. }
  intros sentCount.
  apply Framed_bind; [apply Framed_newDate | intros now].
  apply Framed_bind; [apply Framed_safeSend | intros ok; apply Framed_ret].
Qed.

Lemma Framed_Part000_publish (env : Env) (world : World) (req : Request) :
  Framed (Part000.post_publish env world req).
Proof.
  unfold Part000.post_publish.
  apply Framed_try_catch; [|intros e; apply Framed_ret].
  cbv zeta.
  destruct (negb _); [apply Framed_ret|].
  destruct (_ || _); [apply Framed_ret|].
  apply Framed_bind; [apply Framed_Subscriber_find | intros subs].
  apply Framed_bind; [apply Framed_newDate | intros publishedAt].
  apply Framed_bind; [apply Framed_Post_create | intros post].
  apply Framed_bind.
  { apply Framed_forOf. intros subscriber [sentCount failedEmails]. unfold Part000.notify.
    apply Framed_bind; [apply Framed_newDate | intros now].
    apply Framed_try_catch; [|intros e; apply Framed_ret].
    apply Framed_bind; [apply Framed_safeSend | intros ok].
    destruct ok; apply Framed_ret. }
  intros [sentCount failedEmails].
  apply Framed_bind; [apply Framed_newDate | intros now].
  apply Framed_bind; [apply Framed_safeSend | intros ok; apply Framed_ret].
Qed.

(** The route does what the handler does, after the upload. *)
Lemma IndexJs_publish_route (env : Env) (world : World) (req : Request) (d : Db) :
  run (IndexJs.publish_route env world req) d =
  (fst (run (IndexJs.post_publish env world req) d),
   prepend (uploaded req) (snd (run (IndexJs.post_publish env world req) d))).
Proof.
  unfold run, IndexJs.publish_route, bind, upload_single, uploaded.
  destruct (file req) as [f|].
  - exact (Framed_IndexJs_publish env world req [FileStored f] (initial d)).
  - exact (Framed_IndexJs_publish env world req [] (initial d)).
Qed.

Lemma Part000_publish_route (env : Env) (world : World) (req : Request) (d : Db) :
  run (Part000.publish_route env world req) d =
  (fst (run (Part000.post_publish env world req) d),
   prepend (uploaded req) (snd (run (Part000.post_publish env world req) d))).
Proof.
  unfold run, Part000.publish_route, bind, upload_single, uploaded.
  destruct (file req) as [f|].
  - exact (Framed_Part000_publish env world req [FileStored f] (initial d)).
  - exact (Framed_Part000_publish env world req [] (initial d)).
Qed.

(* ================================================================== *)
(** * Publish: authorization, the stored post, the fan-out *)

(** C4, as the code has it.  In [src/unnamed/part_000] the secret of
    the call is the header [x-publish-secret] when it is a non-empty
    string and the body field [secret] otherwise; in [src/index.js] it
    is the header alone.  In each file a call of the publish route is
    answered 401 exactly when that secret is not the configured one, and
    a call answered 401 has asked the store nothing, read no date and
    sent no mail.  It is not without effect: the upload middleware runs
    before the handler, so the file of the request, when it has one, has
    been written to the upload directory, whatever the answer. *)
Theorem publish_authorization (env : Env) (world : World) (req : Request) (d : Db) :
  let rI := run (IndexJs.publish_route env world req) d in
  let rP := run (Part000.publish_route env world req) d in
  (statusOf (fst rP) = Some 401 <->
   or_else (x_publish_secret req) (body req "secret") <> VStr (PUBLISH_SECRET env)) /\
  (statusOf (fst rI) = Some 401 <-> x_publish_secret req <> VStr (PUBLISH_SECRET env)) /\
  (statusOf (fst rP) = Some 401 -> snd rP = mkSt d (uploaded req) 0 0 0) /\
  (statusOf (fst rI) = Some 401 -> snd rI = mkSt d (uploaded req) 0 0 0) /\
  (forall f, file req = Some f ->
     In (FileStored f) (trace (snd rP)) /\ In (FileStored f) (trace (snd rI))).
Proof.
  cbv zeta. rewrite IndexJs_publish_route, Part000_publish_route. cbn [fst snd].
  split; [|split; [|split; [|split]]].
  - rewrite <- isString_false.
    destruct (Part000_publish_outcome env world req d); cbn; split; intros Hst;
      solve [reflexivity | assumption | discriminate Hst | congruence].
  - rewrite <- isString_false.
    destruct (IndexJs_publish_outcome env world req d); cbn; split; intros Hst;
      solve [reflexivity | assumption | discriminate Hst | congruence].
  - destruct (Part000_publish_outcome env world req d); cbn [fst snd statusOf status res_json];
      intros Hst; try discriminate Hst.
    unfold prepend, initial. cbn [db trace sends dbops dates]. now rewrite app_nil_r.
  - destruct (IndexJs_publish_outcome env world req d); cbn [fst snd statusOf status res_json];
      intros Hst; try discriminate Hst.
    unfold prepend, initial. cbn [db trace sends dbops dates]. now rewrite app_nil_r.
  - intros f Hf. unfold prepend, uploaded. rewrite Hf. cbn [trace]. split; now left.
Qed.

Lemma isFull_true (v : Value) :
  Part000.isFull v = true <-> v = VStr "1" \/ v = VStr "true".
Proof.
  unfold Part000.isFull. rewrite orb_true_iff, !isString_true. reflexivity.
Qed.

(** C5, as the code has it.  A publish call answered 200 has added
    exactly one post to the store, at the end of the collection, and
    created no other: the post carries the title and the postUrl of the
    request, its excerpt and content (the empty string when missing),
    the attachment of the request, and the time read when the post is
    built, the first reading of the call.  Its sendFull is true exactly
    when the input is the string 1 or the string true in
    [src/unnamed/part_000], and exactly when it is the string 1 in
    [src/index.js]. *)
Theorem publish_stores_one_post (env : Env) (world : World) (req : Request) (d : Db) :
  let rI := run (IndexJs.post_publish env world req) d in
  let rP := run (Part000.post_publish env world req) d in
  let stored (full : bool) :=
    mkPost (List.length (posts d)) (body req "title")
      (or_else (body req "excerpt") (VStr "")) (or_else (body req "content") (VStr ""))
      (body req "postUrl") (attachmentUrlOf req) (attachmentNameOf req)
      full (clock world 0) in
  (statusOf (fst rP) = Some 200 ->
   posts (db (snd rP)) = posts d ++ [stored (Part000.isFull (body req "sendFull"))] /\
   postsCreated (trace (snd rP)) = [stored (Part000.isFull (body req "sendFull"))]) /\
  (statusOf (fst rI) = Some 200 ->
   posts (db (snd rI)) = posts d ++ [stored (isString (body req "sendFull") "1")] /\
   postsCreated (trace (snd rI)) = [stored (isString (body req "sendFull") "1")]) /\
  (Part000.isFull (body req "sendFull") = true <->
   body req "sendFull" = VStr "1" \/ body req "sendFull" = VStr "true") /\
  (isString (body req "sendFull") "1" = true <-> body req "sendFull" = VStr "1").
Proof.
  cbv zeta. split; [|split; [|split]].
  - destruct (Part000_publish_outcome env world req d)
      as [| |e s _ _ _ _ _|a n ok s _ _ _ _ Hdb _ Ht]; cbn [fst snd statusOf status res_json];
      try discriminate.
    intros _. rewrite Hdb, Ht, postsCreated_published. now split.
  - destruct (IndexJs_publish_outcome env world req d)
      as [| |e s _ _ _ _ _|a n ok s _ _ _ _ Hdb _ Ht]; cbn [fst snd statusOf status res_json];
      try discriminate.
    intros _. rewrite Hdb, Ht, postsCreated_published. now split.
  - apply isFull_true.
  - apply isString_true.
Qed.

(** C1, as the code has it.  A publish call answered 200 has handed to
    the transport one mail for each subscriber of the snapshot, in the
    order of the snapshot, and then the mail to the administrator:
    no recipient is skipped after a failed send and none is tried twice.
    The sent count of the answer is the number of delivered mails.  In
    [src/unnamed/part_000] the recipients of the other mails are the
    failed list, in order; the answer gives its length as sent.failed,
    the size of the snapshot as sent.total, and the list itself as
    failedEmails when it is not empty; the sent count and the length of
    the failed list add up to the size of the snapshot.  In
    [src/index.js] no failed list is kept: the answer carries the sent
    count alone. *)
Theorem fan_out_tries_each_subscriber_once (env : Env) (world : World) (req : Request)
    (d : Db) :
  let rI := run (IndexJs.post_publish env world req) d in
  let rP := run (Part000.post_publish env world req) d in
  (forall response, fst rP = Ok response -> status response = 200 ->
   exists attempts admin,
     mailAttempts (trace (snd rP)) = attempts ++ [admin] /\
     map (fun a => to (fst a)) attempts = emails d /\
     to (fst admin) = ADMIN_EMAIL env /\
     field "success" response = Some (JBool true) /\
     field2 "sent" "subscribers" response = Some (JNum (delivered attempts)) /\
     field2 "sent" "failed" response = Some (JNum (List.length (failedRecipients attempts))) /\
     field2 "sent" "total" response = Some (JNum (List.length (subscribers d))) /\
     delivered attempts + List.length (failedRecipients attempts) =
       List.length (subscribers d) /\
     field "failedEmails" response =
       match failedRecipients attempts with
       | [] => None
       | failed => Some (JArr (map JStr failed))
       end) /\
  (forall response, fst rI = Ok response -> status response = 200 ->
   exists attempts admin,
     mailAttempts (trace (snd rI)) = attempts ++ [admin] /\
     map (fun a => to (fst a)) attempts = emails d /\
     to (fst admin) = ADMIN_EMAIL env /\
     field "success" response = Some (JBool true) /\
     field2 "sent" "subscribers" response = Some (JNum (delivered attempts)) /\
     delivered attempts <= List.length (subscribers d) /\
     field2 "sent" "failed" response = None /\
     field "failedEmails" response = None).
Proof.
  cbv zeta. split.
  - intros response.
    destruct (Part000_publish_outcome env world req d)
      as [| |e s _ _ _ _ _|a n ok s _ _ _ _ _ Hfan Ht]; cbn [fst snd];
      intros [= <-]; try discriminate.
    intros _. rewrite Ht, mailAttempts_published.
    pose proof (Part000_fanOut_to env world req _ _ Hfan) as Hto.
    pose proof (delivered_failed a) as Hsum.
    assert (Hlen : List.length a = List.length (subscribers d)).
    { rewrite <- (length_map (fun x => to (fst x)) a), Hto. apply length_map. }
    destruct (Part000_published_fields (Part000.postOf world req d) (attachmentUrlOf req)
                (subscribers d) (delivered a) (failedRecipients a))
      as (_ & Hok & Hsent & Htotal & Hfailed & Hlist).
    exists a. eexists. repeat split; try eassumption; try reflexivity.
    + now rewrite Hsum.
    + rewrite Hlist. now destruct (failedRecipients a).
  - intros response.
    destruct (IndexJs_publish_outcome env world req d)
      as [| |e s _ _ _ _ _|a n ok s _ _ _ _ _ Hfan Ht]; cbn [fst snd];
      intros [= <-]; try discriminate.
    intros _. rewrite Ht, mailAttempts_published.
    pose proof (IndexJs_fanOut_to env world req _ _ Hfan) as Hto.
    pose proof (delivered_failed a) as Hsum.
    assert (Hlen : List.length a = List.length (subscribers d)).
    { rewrite <- (length_map (fun x => to (fst x)) a), Hto. apply length_map. }
    exists a. eexists. repeat split; try eassumption; try reflexivity.
    lia.
Qed.

(* ================================================================== *)
(** * Publish: the body of a notification *)

Ltac find_piece := repeat first [left; reflexivity | right].

(** The rendering contains the text of [emailBody]. *)
Lemma publishHtml_includes_body (env : Env) (world : World) (full : bool)
    (title excerpt content postUrl emailBody attachmentUrl attachmentName : Value)
    (unsubscribeLink : string) (now : Time) :
  includes
    (publishHtml env world full title excerpt content postUrl emailBody attachmentUrl
       attachmentName unsubscribeLink now)
    (ToString emailBody) = true.
Proof.
  unfold publishHtml. apply includes_cat. cbn [In]. find_piece.
Qed.

(** The rendering reads [content] through its truthiness alone. *)
Lemma publishHtml_content (env : Env) (world : World) (full : bool)
    (title excerpt content content' postUrl emailBody attachmentUrl attachmentName : Value)
    (unsubscribeLink : string) (now : Time) :
  ToBoolean content' = ToBoolean content ->
  publishHtml env world full title excerpt content' postUrl emailBody attachmentUrl
    attachmentName unsubscribeLink now =
  publishHtml env world full title excerpt content postUrl emailBody attachmentUrl
    attachmentName unsubscribeLink now.
Proof.
  intros H. unfold publishHtml. now rewrite H.
Qed.

Section Bodies.

Variable env : Env.
Variable world : World.
Variable req : Request.
Variable d : Db.

(** The mails of the fan-out of a call are the notifications of the
    subscribers of the snapshot. *)
Lemma Part000_fanOut_mails (m : Mail) (ok : bool) :
  In (m, ok) (removelast (mailAttempts (trace (snd (run (Part000.post_publish env world req) d))))) ->
  exists subscriber now,
    In subscriber (subscribers d) /\ m = Part000.notification env world req subscriber now.
Proof.
  destruct (Part000_publish_outcome env world req d)
    as [| |e s _ _ _ _ Ht|a n adminOk s _ _ _ _ _ Hfan Ht]; cbn [snd initial trace];
    try rewrite Ht; try (intros []).
  rewrite mailAttempts_published, removelast_last. clear Ht.
  induction Hfan as [|subscriber a0 subs attempts (now & k & Hm & _) _ IH]; [intros []|].
  intros [here|later].
  - exists subscriber, now. rewrite here in Hm. split; [now left | exact Hm].
  - destruct (IH later) as (sub & t & Hin & Heq). exists sub, t. split; [now right | exact Heq].
Qed.

Lemma IndexJs_fanOut_mails (m : Mail) (ok : bool) :
  In (m, ok) (removelast (mailAttempts (trace (snd (run (IndexJs.post_publish env world req) d))))) ->
  exists subscriber now,
    In subscriber (subscribers d) /\ m = IndexJs.notification env world req subscriber now.
Proof.
  destruct (IndexJs_publish_outcome env world req d)
    as [| |e s _ _ _ _ Ht|a n adminOk s _ _ _ _ _ Hfan Ht]; cbn [snd initial trace];
    try rewrite Ht; try (intros []).
  rewrite mailAttempts_published, removelast_last. clear Ht.
  induction Hfan as [|subscriber a0 subs attempts (now & k & Hm & _) _ IH]; [intros []|].
  intros [here|later].
  - exists subscriber, now. rewrite here in Hm. split; [now left | exact Hm].
  - destruct (IH later) as (sub & t & Hin & Heq). exists sub, t. split; [now right | exact Heq].
Qed.

End Bodies.

(** C6, as the code has it.  Take any mail of the fan-out of a publish
    call, that is any mail handed to the transport but the closing one
    to the administrator.  When the flag computed from sendFull is true
    (the input is the string 1, or the string true in
    [src/unnamed/part_000] only) and content is FULL, the body contains
    FULL.  When the flag is false and excerpt is EXC, the body contains
    EXC, and it is the rendering of the template on the excerpt and the
    other fields of the post: the text of content is not interpolated,
    so any other content of the same truthiness gives the same body. *)
Theorem notification_body (env : Env) (world : World) (req : Request) (d : Db) :
  let rI := run (IndexJs.post_publish env world req) d in
  let rP := run (Part000.post_publish env world req) d in
  let rendering (content' : Value) (subscriber : Subscriber) (now : Time) :=
    publishHtml env world false (body req "title") (body req "excerpt") content'
      (body req "postUrl") (or_else (body req "excerpt") (VStr ""))
      (attachmentUrlOf req) (attachmentNameOf req)
      (unsubscribeLinkOf req subscriber) now in
  (forall m ok, In (m, ok) (removelast (mailAttempts (trace (snd rP)))) ->
     (Part000.isFull (body req "sendFull") = true -> body req "content" = VStr "FULL" ->
      includes (html m) "FULL" = true) /\
     (Part000.isFull (body req "sendFull") = false -> body req "excerpt" = VStr "EXC" ->
      includes (html m) "EXC" = true) /\
     (Part000.isFull (body req "sendFull") = false ->
      exists subscriber now,
        In subscriber (subscribers d) /\
        forall content', ToBoolean content' = ToBoolean (body req "content") ->
          html m = rendering content' subscriber now)) /\
  (forall m ok, In (m, ok) (removelast (mailAttempts (trace (snd rI)))) ->
     (isString (body req "sendFull") "1" = true -> body req "content" = VStr "FULL" ->
      includes (html m) "FULL" = true) /\
     (isString (body req "sendFull") "1" = false -> body req "excerpt" = VStr "EXC" ->
      includes (html m) "EXC" = true) /\
     (isString (body req "sendFull") "1" = false ->
      exists subscriber now,
        In subscriber (subscribers d) /\
        forall content', ToBoolean content' = ToBoolean (body req "content") ->
          html m = rendering content' subscriber now)).
Proof.
  cbv zeta. split; intros m ok Hin.
  - destruct (Part000_fanOut_mails env world req d m ok Hin) as (subscriber & now & Hsub & ->).
    unfold Part000.notification, Part000.mailOptions, Part000.emailBodyOf. cbn [html].
    split; [|split].
    + intros -> Hc. rewrite Hc.
      exact (publishHtml_includes_body env world true _ _ _ _ (VStr "FULL") _ _ _ _).
    + intros -> He. rewrite He.
      exact (publishHtml_includes_body env world false _ _ _ _ (VStr "EXC") _ _ _ _).
    + intros ->. exists subscriber, now. split; [exact Hsub|].
      intros content' Hc. symmetry. now apply publishHtml_content.
  - destruct (IndexJs_fanOut_mails env world req d m ok Hin) as (subscriber & now & Hsub & ->).
    unfold IndexJs.notification, IndexJs.mailOptions, IndexJs.emailBodyOf. cbn [html].
    split; [|split].
    + intros -> Hc. rewrite Hc.
      exact (publishHtml_includes_body env world true _ _ _ _ (VStr "FULL") _ _ _ _).
    + intros -> He. rewrite He.
      exact (publishHtml_includes_body env world false _ _ _ _ (VStr "EXC") _ _ _ _).
    + intros ->. exists subscriber, now. split; [exact Hsub|].
      intros content' Hc. symmetry. now apply publishHtml_content.
Qed.

(* ================================================================== *)
(** * The subscriber collection *)

Lemma existsb_email (e : string) (subs : list Subscriber) :
  existsb (fun x => email x =? e) subs = true <-> In e (map email subs).
Proof.
  rewrite existsb_exists, in_map_iff. split.
  - intros (x & Hin & Heq%String.eqb_eq). now exists x.
  - intros (x & Heq & Hin). exists x. split; [exact Hin | now apply String.eqb_eq].
Qed.

Lemma existsb_email_false (e : string) (subs : list Subscriber) :
  existsb (fun x => email x =? e) subs = false <-> ~ In e (map email subs).
Proof.
  rewrite <- existsb_email. destruct (existsb _ subs); split; congruence.
Qed.

Lemma find_email_some (e : string) (subs : list Subscriber) :
  In e (map email subs) -> exists x, find (fun x => email x =? e) subs = Some x.
Proof.
  induction subs as [|x subs IH]; [easy|].
  simpl. destruct (email x =? e) eqn:Heq.
  - intros _. now exists x.
  - intros [here|later]; [|auto].
    apply String.eqb_neq in Heq. contradiction.
Qed.

Lemma find_email_none (e : string) (subs : list Subscriber) :
  find (fun x => email x =? e) subs = None -> ~ In e (map email subs).
Proof.
  intros Hnone Hin. destruct (find_email_some e subs Hin) as (x & Hx). congruence.
Qed.

Lemma removeFirst_subset (e e' : string) (subs : list Subscriber) :
  In e' (map email (removeFirst e subs)) -> In e' (map email subs).
Proof.
  induction subs as [|x subs IH]; [easy|].
  simpl. destruct (email x =? e); simpl; tauto.
Qed.

Lemma removeFirst_NoDup (e : string) (subs : list Subscriber) :
  NoDup (map email subs) -> NoDup (map email (removeFirst e subs)).
Proof.
  induction subs as [|x subs IH]; [easy|].
  simpl. intros Hnd. inversion Hnd as [|? ? Hnot Hrest]; subst.
  destruct (email x =? e); [exact Hrest|].
  simpl. constructor; [|auto].
  intros Hin. apply Hnot. eapply removeFirst_subset, Hin.
Qed.

(** In a collection without two documents of the same key, removing the
    document of a key leaves none of that key. *)
Lemma removeFirst_gone (e : string) (subs : list Subscriber) :
  NoDup (map email subs) -> ~ In e (map email (removeFirst e subs)).
Proof.
  induction subs as [|x subs IH]; [easy|].
  simpl. intros Hnd. inversion Hnd as [|? ? Hnot Hrest]; subst.
  destruct (email x =? e) eqn:Heq.
  - apply String.eqb_eq in Heq. now subst e.
  - apply String.eqb_neq in Heq. simpl. intros [here|later]; [contradiction|].
    now apply (IH Hrest).
Qed.

(* ================================================================== *)
(** * How a subscribe call ends *)

Ltac run_handler :=
  unfold Subscriber_findOne, Subscriber_create, Subscriber_countDocuments,
    Subscriber_deleteOne, Subscriber_find, dbOp, newDate, try_catch, bind, ret, log, setDb;
  repeat (cbn [db trace sends dbops dates subscribers posts app fst snd];
          try rewrite safeSend_eq).

Ltac case_if :=
  match goal with
  | |- context [if ?c then _ else _] => destruct c
  end.

Section Subscribe.

Context {E : Engine}.
Variable env : Env.
Variable world : World.
Variable req : Request.
Variable d : Db.

Lemma Part000_subscribe_outcome :
  Part000.SubscribeOutcome world req d (run (Part000.post_subscribe env world req) d).
Proof.
  unfold run, initial, Part000.post_subscribe. cbv zeta.
  change (normEmail (or_else (body req "email") (VStr ""))) with (Part000.emailOf req).
  change (or_else (body req "name") (VStr "")) with (Part000.nameOf req).
  change (negb (includes (Part000.emailOf req) "@") ||
          negb (includes (Part000.emailOf req) ".") ||
          (utf16Length (Part000.emailOf req) <? 5)%nat)
    with (Part000.invalidFormat (Part000.emailOf req)).
  destruct (Part000.invalidFormat (Part000.emailOf req)) eqn:Hfmt.
  { now constructor. }
  run_handler.
  destruct (db_error world 0) as [e0|] eqn:H0.
  { run_handler. 
    case_if; run_handler;
      (apply Part000.SubscribeFailed;
       [assumption | left; congruence | auto | reflexivity | reflexivity]). }
  run_handler.
  destruct (find _ _) as [x|] eqn:Hfind.
  { run_handler. apply Part000.AlreadyExists; auto.
    apply find_some in Hfind as [Hin Heq%String.eqb_eq].
    apply in_map_iff. now exists x. }
  apply find_email_none in Hfind.
  run_handler.
  destruct (db_error world 1) as [e1|] eqn:H1.
  { run_handler.
    case_if; run_handler;
      (apply Part000.SubscribeFailed;
       [assumption | right; split; [assumption | congruence] | auto | reflexivity
       | reflexivity]). }
  rewrite (proj2 (existsb_email_false _ _) Hfind).
  run_handler.
  destruct (db_error world 2) as [e2|] eqn:H2.
  - run_handler.
    case_if; run_handler;
      eapply Part000.Created with (attempts := [(_, _)]); auto; reflexivity.
  - run_handler.
    eapply Part000.Created with (attempts := [(_, _); (_, _)]); auto; reflexivity.
Qed.

Lemma IndexJs_subscribe_outcome :
  IndexJs.SubscribeOutcome world req d (run (IndexJs.post_subscribe env world req) d).
Proof.
  unfold run, initial, IndexJs.post_subscribe. cbv zeta.
  change (normEmail (or_else (body req "email") (VStr ""))) with (IndexJs.emailOf req).
  change (or_else (body req "name") (VStr "")) with (IndexJs.nameOf req).
  destruct (includes (IndexJs.emailOf req) "@") eqn:Hfmt; cbn [negb].
  2: { now constructor. }
  run_handler.
  destruct (db_error world 0) as [e0|] eqn:H0.
  { run_handler.
    case_if; run_handler;
      (apply IndexJs.SubscribeFailed;
       [assumption | congruence | auto | reflexivity | reflexivity]). }
  destruct (existsb _ _) eqn:Hex.
  { apply existsb_email in Hex. run_handler. cbn. run_handler.
    apply IndexJs.AlreadyExists; auto. }
  apply existsb_email_false in Hex.
  run_handler.
  destruct (db_error world 1) as [e1|] eqn:H1.
  - run_handler.
    eapply IndexJs.Created with (attempts := [(_, _)]); auto; try reflexivity.
    right. now exists e1.
  - run_handler.
    eapply IndexJs.Created with (attempts := [(_, _); (_, _)]); auto; reflexivity.
Qed.

End Subscribe.

(* ================================================================== *)
(** * How an unsubscribe call ends *)

Section Unsubscribe.

Context {E : Engine}.
Variable env : Env.
Variable world : World.
Variable req : Request.
Variable d : Db.

Lemma Part000_unsubscribe_run :
  run (Part000.post_unsubscribe world req) d =
  match db_error world 0 with
  | Some _ =>
      (Ok (res_json 500 [("success", JBool false); ("message", JStr "Server error")]),
       mkSt d [] 0 1 0)
  | None =>
      if existsb (fun x => email x =? Part000.emailOf req) (subscribers d) then
        (Ok Part000.unsubscribed,
         mkSt (mkDb (removeFirst (Part000.emailOf req) (subscribers d)) (posts d))
           [SubscriberDeleted (Part000.emailOf req)] 0 1 0)
      else (Ok Part000.notSubscribed, mkSt d [] 0 1 0)
  end.
Proof.
  unfold run, initial, Part000.post_unsubscribe. cbv zeta.
  change (normEmail (or_else (body req "email") (VStr ""))) with (Part000.emailOf req).
  run_handler.
  destruct (db_error world 0); [reflexivity|].
  destruct (existsb _ _); reflexivity.
Qed.

Lemma IndexJs_unsubscribe_run :
  run (IndexJs.post_unsubscribe world req) d =
  match db_error world 0 with
  | Some _ =>
      (Ok (res_json 500 [("success", JBool false); ("message", JStr "Server error")]),
       mkSt d [] 0 1 0)
  | None =>
      if existsb (fun x => email x =? IndexJs.emailOf req) (subscribers d) then
        (Ok IndexJs.unsubscribed,
         mkSt (mkDb (removeFirst (IndexJs.emailOf req) (subscribers d)) (posts d))
           [SubscriberDeleted (IndexJs.emailOf req)] 0 1 0)
      else (Ok IndexJs.unsubscribed, mkSt d [] 0 1 0)
  end.
Proof.
  unfold run, initial, IndexJs.post_unsubscribe. cbv zeta.
  change (normEmail (or_else (body req "email") (VStr ""))) with (IndexJs.emailOf req).
  run_handler.
  destruct (db_error world 0); [reflexivity|].
  destruct (existsb _ _); reflexivity.
Qed.

(** What a call of the unsubscribe link does to the store. *)
Lemma Part000_unsubscribe_link_db :
  db (snd (run (Part000.get_unsubscribe env world req) d)) = d \/
  db (snd (run (Part000.get_unsubscribe env world req) d)) =
    mkDb (removeFirst (normEmail (query_email req)) (subscribers d)) (posts d).
Proof.
  unfold run, initial, Part000.get_unsubscribe. cbv zeta.
  destruct (ToBoolean (query_email req)); cbn [negb]; [|now left].
  run_handler.
  destruct (db_error world 0); [now left|].
  destruct (existsb _ _); [now right | now left].
Qed.

Lemma IndexJs_unsubscribe_link_db :
  db (snd (run (IndexJs.get_unsubscribe env world req) d)) = d \/
  db (snd (run (IndexJs.get_unsubscribe env world req) d)) =
    mkDb (removeFirst (normEmail (query_email req)) (subscribers d)) (posts d).
Proof.
  unfold run, initial, IndexJs.get_unsubscribe. cbv zeta.
  destruct (ToBoolean (query_email req)); cbn [negb]; [|now left].
  run_handler.
  destruct (db_error world 0); [now left|].
  destruct (existsb _ _); [now right | now left].
Qed.

End Unsubscribe.

(* ================================================================== *)
(** * Invariants of the stores the servers reach *)

Lemma Forall_removeFirst (P : string -> Prop) (e : string) (subs : list Subscriber) :
  Forall P (map email subs) -> Forall P (map email (removeFirst e subs)).
Proof.
  rewrite !Forall_forall. intros H x Hin. apply H. eapply removeFirst_subset, Hin.
Qed.

Lemma NoDup_snoc (l : list string) (e : string) :
  NoDup l -> ~ In e l -> NoDup (l ++ [e]).
Proof.
  intros Hnd Hnot. apply NoDup_app; [exact Hnd | repeat constructor; easy|].
  intros x Hx [<-|[]]. contradiction.
Qed.

Lemma Part000_reachable_inv {E : Engine} (d : Db) : Part000.reachable d -> Part000_inv d.
Proof.
  induction 1 as [|d env world req c _ (Hnd & Hfmt)].
  - repeat split; constructor.
  - unfold Part000_inv, emails in *. destruct c; unfold Part000.handler.
    + destruct (Part000_subscribe_outcome env world req d)
        as [|s _ _ _ Hdb _|r s _ _ _ Hdb _|r rest s Hok _ _ Hnew Hdb _ _];
        cbn [snd initial db]; try rewrite Hdb; auto.
      cbn [subscribers]. rewrite map_app. cbn [map email Part000.subscriberOf].
      split; [now apply NoDup_snoc|].
      apply Forall_app; (split; [assumption|]); repeat constructor; auto.
    + rewrite Part000_publish_route. cbn [snd prepend db]. rewrite Part000_publish_frame. auto.
    + rewrite Part000_unsubscribe_run.
      destruct (db_error world 0); cbn [snd db]; auto.
      destruct (existsb _ _); cbn [snd db subscribers]; auto.
      auto using removeFirst_NoDup, Forall_removeFirst.
    + destruct (Part000_unsubscribe_link_db env world req d) as [->| ->]; auto.
      cbn [subscribers]. auto using removeFirst_NoDup, Forall_removeFirst.
Qed.

Lemma IndexJs_reachable_inv {E : Engine} (d : Db) : IndexJs.reachable d -> IndexJs_inv d.
Proof.
  induction 1 as [|d env world req c _ (Hnd & Hfmt)].
  - repeat split; constructor.
  - unfold IndexJs_inv, emails in *. destruct c; unfold IndexJs.handler.
    + destruct (IndexJs_subscribe_outcome env world req d)
        as [|s _ _ _ Hdb _|r s _ _ _ Hdb _|r rest s Hok _ Hnew Hdb _ _];
        cbn [snd initial db]; try rewrite Hdb; auto.
      cbn [subscribers]. rewrite map_app. cbn [map email IndexJs.subscriberOf].
      split; [now apply NoDup_snoc|].
      apply Forall_app; (split; [assumption|]); repeat constructor; auto.
    + rewrite IndexJs_publish_route. cbn [snd prepend db]. rewrite IndexJs_publish_frame. auto.
    + rewrite IndexJs_unsubscribe_run.
      destruct (db_error world 0); cbn [snd db]; auto.
      destruct (existsb _ _); cbn [snd db subscribers]; auto.
      auto using removeFirst_NoDup, Forall_removeFirst.
    + destruct (IndexJs_unsubscribe_link_db env world req d) as [->| ->]; auto.
      cbn [subscribers]. auto using removeFirst_NoDup, Forall_removeFirst.
Qed.

(** The keys of a reachable store are normalized, by the laws of
    lower-casing. *)
Lemma Part000_reachable_normalized {E : Engine} (d : Db) :
  Lawful E -> Part000.reachable d -> normalized d.
Proof.
  intros HE. induction 1 as [|d env world req c _ Hnorm].
  - constructor.
  - unfold normalized, emails in *. destruct c; unfold Part000.handler.
    + destruct (Part000_subscribe_outcome env world req d)
        as [|s _ _ _ Hdb _|r s _ _ _ Hdb _|r rest s Hok _ _ Hnew Hdb _ _];
        cbn [snd initial db]; try rewrite Hdb; auto.
      cbn [subscribers]. rewrite map_app. cbn [map email Part000.subscriberOf].
      apply Forall_app; (split; [assumption|]); repeat constructor.
      now apply normEmail_idempotent.
    + rewrite Part000_publish_route. cbn [snd prepend db]. rewrite Part000_publish_frame. auto.
    + rewrite Part000_unsubscribe_run.
      destruct (db_error world 0); cbn [snd db]; auto.
      destruct (existsb _ _); cbn [snd db subscribers]; auto.
      auto using Forall_removeFirst.
    + destruct (Part000_unsubscribe_link_db env world req d) as [->| ->]; auto.
      cbn [subscribers]. auto using Forall_removeFirst.
Qed.

Lemma IndexJs_reachable_normalized {E : Engine} (d : Db) :
  Lawful E -> IndexJs.reachable d -> normalized d.
Proof.
  intros HE. induction 1 as [|d env world req c _ Hnorm].
  - constructor.
  - unfold normalized, emails in *. destruct c; unfold IndexJs.handler.
    + destruct (IndexJs_subscribe_outcome env world req d)
        as [|s _ _ _ Hdb _|r s _ _ _ Hdb _|r rest s Hok _ Hnew Hdb _ _];
        cbn [snd initial db]; try rewrite Hdb; auto.
      cbn [subscribers]. rewrite map_app. cbn [map email IndexJs.subscriberOf].
      apply Forall_app; (split; [assumption|]); repeat constructor.
      now apply normEmail_idempotent.
    + rewrite IndexJs_publish_route. cbn [snd prepend db]. rewrite IndexJs_publish_frame. auto.
    + rewrite IndexJs_unsubscribe_run.
      destruct (db_error world 0); cbn [snd db]; auto.
      destruct (existsb _ _); cbn [snd db subscribers]; auto.
      auto using Forall_removeFirst.
    + destruct (IndexJs_unsubscribe_link_db env world req d) as [->| ->]; auto.
      cbn [subscribers]. auto using Forall_removeFirst.
Qed.

(* ================================================================== *)
(** * Subscribe and unsubscribe *)

Lemma invalidFormat_spec (e : string) :
  Part000.invalidFormat e = false <->
  includes e "@" = true /\ includes e "." = true /\ 5 <= utf16Length e.
Proof.
  unfold Part000.invalidFormat.
  rewrite !orb_false_iff, !negb_false_iff, Nat.ltb_ge. tauto.
Qed.

(** C7, as the code has it.  In [src/unnamed/part_000] a subscribe call
    is answered 400 exactly when the normalized email fails the format
    check, that is unless it contains an at sign and a dot and has a
    [length] of 5 at least, in UTF-16 code units; in [src/index.js]
    exactly when the normalized email contains no at sign.  In both files a call answered 400 leaves
    the state of the call as it was: nothing written, nothing sent. *)
Theorem subscribe_format_check {E : Engine} (env : Env) (world : World) (req : Request)
    (d : Db) :
  let rI := run (IndexJs.post_subscribe env world req) d in
  let rP := run (Part000.post_subscribe env world req) d in
  let email := normEmail (or_else (body req "email") (VStr "")) in
  (statusOf (fst rP) = Some 400 <->
   ~ (includes email "@" = true /\ includes email "." = true /\ 5 <= utf16Length email)) /\
  (statusOf (fst rP) = Some 400 -> snd rP = initial d) /\
  (statusOf (fst rI) = Some 400 <-> includes email "@" = false) /\
  (statusOf (fst rI) = Some 400 -> snd rI = initial d).
Proof.
  cbv zeta.
  change (normEmail (or_else (body req "email") (VStr ""))) with (Part000.emailOf req).
  rewrite <- invalidFormat_spec.
  split; [|split; [|split]].
  - destruct (Part000_subscribe_outcome env world req d)
      as [Hf|s Hf _ _ _ _|r s Hf _ [-> | ->] _ _|r rest s Hf _ _ _ _ _ [-> |[-> | ->]]];
      cbn; split; intros Hst;
      solve [reflexivity | discriminate Hst | congruence].
  - destruct (Part000_subscribe_outcome env world req d)
      as [Hf|s Hf _ _ _ _|r s Hf _ [-> | ->] _ _|r rest s Hf _ _ _ _ _ [-> |[-> | ->]]];
      cbn; intros Hst; solve [reflexivity | discriminate Hst].
  - change (Part000.emailOf req) with (IndexJs.emailOf req).
    destruct (IndexJs_subscribe_outcome env world req d)
      as [Hf|s Hf _ _ _ _|r s Hf _ [-> | ->] _ _|r rest s Hf _ _ _ _ [-> |(e & ->)]];
      cbn; split; intros Hst;
      solve [reflexivity | discriminate Hst | congruence].
  - destruct (IndexJs_subscribe_outcome env world req d)
      as [Hf|s Hf _ _ _ _|r s Hf _ [-> | ->] _ _|r rest s Hf _ _ _ _ [-> |(e & ->)]];
      cbn; intros Hst; solve [reflexivity | discriminate Hst].
Qed.

Lemma subscribersCreated_attempts (attempts : list (Mail * bool)) :
  subscribersCreated (map attemptEvent attempts) = [].
Proof. induction attempts as [|[m ok] attempts IH]; [reflexivity | exact IH]. Qed.

(** C8, as the code has it.  A subscribe call looks up and inserts
    under the email trimmed and lowercased: a document it creates has
    that key, and is created only when the store holds none of that
    key.  When the store already holds a subscriber of that key, the
    call writes nothing to the store and hands no mail to the transport,
    whatever the store and the transport do; the response is the already
    subscribed one of the file when the key passes the format check of
    the file, as the keys of a store the server has reached do, and the
    store answers; a key that fails the check is answered 400, and a
    store fault 500 or already subscribed, by the error.  By the laws
    of lower-casing the key is its own normal form, two spellings of
    one address give one key, and the keys of a store the server has
    reached are normalized; they are pairwise distinct.  This holds in
    both server files. *)
Theorem duplicate_subscribe_is_refused {E : Engine} (env : Env) (world : World)
    (req : Request) (d : Db) :
  let rI := run (IndexJs.post_subscribe env world req) d in
  let rP := run (Part000.post_subscribe env world req) d in
  let key := normEmail (or_else (body req "email") (VStr "")) in
  (forall s, In s (subscribersCreated (trace (snd rP))) ->
     email s = key /\ ~ In key (emails d)) /\
  (forall s, In s (subscribersCreated (trace (snd rI))) ->
     email s = key /\ ~ In key (emails d)) /\
  (In key (emails d) ->
   db (snd rP) = d /\ trace (snd rP) = [] /\
   (Part000.invalidFormat key = false -> db_error world 0 = None ->
    fst rP = Ok Part000.alreadySubscribed) /\
   (Part000.invalidFormat key = true -> statusOf (fst rP) = Some 400) /\
   (Part000.invalidFormat key = false -> db_error world 0 <> None ->
    fst rP = Ok Part000.alreadySubscribed \/ fst rP = Ok (Part000.serverError)) /\
   (Part000.reachable d -> Part000.invalidFormat key = false)) /\
  (In key (emails d) ->
   db (snd rI) = d /\ trace (snd rI) = [] /\
   (includes key "@" = true -> db_error world 0 = None ->
    fst rI = Ok IndexJs.alreadySubscribed) /\
   (includes key "@" = false -> statusOf (fst rI) = Some 400) /\
   (includes key "@" = true -> db_error world 0 <> None ->
    fst rI = Ok IndexJs.alreadySubscribed \/ fst rI = Ok IndexJs.serverError) /\
   (IndexJs.reachable d -> includes key "@" = true)) /\
  (Lawful E ->
   normEmail (VStr "  A@B.com ") = normEmail (VStr "a@b.com") /\
   normEmail (VStr key) = key /\
   (Part000.reachable d -> Forall (fun e => normEmail (VStr e) = e) (emails d)) /\
   (IndexJs.reachable d -> Forall (fun e => normEmail (VStr e) = e) (emails d))) /\
  (Part000.reachable d -> NoDup (emails d)) /\
  (IndexJs.reachable d -> NoDup (emails d)).
Proof.
  cbv zeta. split; [|split; [|split; [|split; [|split; [|split]]]]].
  - intros s.
    destruct (Part000_subscribe_outcome env world req d)
      as [Hf|s' Hf _ _ _ Ht|r s' Hf _ _ _ Ht|r attempts s' Hf _ _ Hnew _ Ht _];
      cbn [snd initial trace];
      [intros [] | rewrite Ht; intros [] | rewrite Ht; intros [] | rewrite Ht].
    cbn [subscribersCreated]. rewrite subscribersCreated_attempts.
    intros [<-|[]]. now split.
  - intros s.
    destruct (IndexJs_subscribe_outcome env world req d)
      as [Hf|s' Hf _ _ _ Ht|r s' Hf _ _ _ Ht|r attempts s' Hf _ Hnew _ Ht _];
      cbn [snd initial trace];
      [intros [] | rewrite Ht; intros [] | rewrite Ht; intros [] | rewrite Ht].
    cbn [subscribersCreated]. rewrite subscribersCreated_attempts.
    intros [<-|[]]. now split.
  - intros Hin.
    change (normEmail (or_else (body req "email") (VStr ""))) with (Part000.emailOf req) in *.
    assert (Hreach : Part000.reachable d ->
                     Part000.invalidFormat (Part000.emailOf req) = false).
    { intros (_ & Hfmt)%Part000_reachable_inv.
      rewrite Forall_forall in Hfmt. exact (Hfmt _ Hin). }
    destruct (Part000_subscribe_outcome env world req d)
      as [Hf|s Hf H0 _ Hdb Ht|r s Hf Hwhy Hr Hdb Ht|r rest s Hf _ _ Hnew _ _ _];
      cbn [fst snd initial db trace]; try contradiction.
    + split; [reflexivity|]. split; [reflexivity|].
      split; [congruence|]. split; [reflexivity|]. split; [congruence | exact Hreach].
    + split; [exact Hdb|]. split; [exact Ht|].
      split; [reflexivity|]. split; [congruence|]. split; [now left | exact Hreach].
    + split; [exact Hdb|]. split; [exact Ht|].
      split; [intros _ H0; destruct Hwhy as [Hwhy|[Hnot _]]; contradiction|].
      split; [congruence|].
      split; [|exact Hreach].
      intros _ _. destruct Hr as [-> | ->]; [now left | now right].
  - intros Hin.
    change (normEmail (or_else (body req "email") (VStr ""))) with (IndexJs.emailOf req) in *.
    assert (Hreach : IndexJs.reachable d -> includes (IndexJs.emailOf req) "@" = true).
    { intros (_ & Hfmt)%IndexJs_reachable_inv.
      rewrite Forall_forall in Hfmt. exact (Hfmt _ Hin). }
    destruct (IndexJs_subscribe_outcome env world req d)
      as [Hf|s Hf H0 _ Hdb Ht|r s Hf Hwhy Hr Hdb Ht|r rest s Hf _ Hnew _ _ _];
      cbn [fst snd initial db trace]; try contradiction.
    + split; [reflexivity|]. split; [reflexivity|].
      split; [congruence|]. split; [reflexivity|]. split; [congruence | exact Hreach].
    + split; [exact Hdb|]. split; [exact Ht|].
      split; [reflexivity|]. split; [congruence|]. split; [now left | exact Hreach].
    + split; [exact Hdb|]. split; [exact Ht|].
      split; [intros _ H0; contradiction|].
      split; [congruence|].
      split; [|exact Hreach].
      intros _ _. destruct Hr as [-> | ->]; [now left | now right].
  - intros HE.
    split; [now rewrite !(normEmail_ascii _ HE) by reflexivity|].
    split; [now apply normEmail_idempotent|].
    split; intros Hr.
    + now apply Part000_reachable_normalized.
    + now apply IndexJs_reachable_normalized.
  - now intros (Hnd & _)%Part000_reachable_inv.
  - now intros (Hnd & _)%IndexJs_reachable_inv.
Qed.



(** After one unsubscribe call the store answered, the key is gone from
    a store whose keys are unique. *)
Lemma Part000_unsubscribe_gone {E : Engine} (world : World) (req : Request) (d : Db) :
  NoDup (emails d) -> db_error world 0 = None ->
  ~ In (Part000.emailOf req) (emails (db (snd (run (Part000.post_unsubscribe world req) d)))).
Proof.
  intros Hnd H0. rewrite Part000_unsubscribe_run, H0.
  destruct (existsb _ _) eqn:Hex; cbn [snd db].
  - now apply removeFirst_gone.
  - now apply existsb_email_false.
Qed.

Lemma IndexJs_unsubscribe_gone {E : Engine} (world : World) (req : Request) (d : Db) :
  NoDup (emails d) -> db_error world 0 = None ->
  ~ In (IndexJs.emailOf req) (emails (db (snd (run (IndexJs.post_unsubscribe world req) d)))).
Proof.
  intros Hnd H0. rewrite IndexJs_unsubscribe_run, H0.
  destruct (existsb _ _) eqn:Hex; cbn [snd db].
  - now apply removeFirst_gone.
  - now apply existsb_email_false.
Qed.


(* ================================================================== *)
(** * The scenarios of the specification, run *)

(** C1 at three subscribers with one refused recipient, in
    [src/unnamed/part_000]: the three are tried in order, two mails are
    delivered, the failed list is the refused recipient, the answer is
    a success. *)
Lemma three_subscribers_one_failure :
  let r := run (Part000.post_publish exampleEnv (refuse "b@x.com")
                  (request (VStr "s3cret") (hello "Hello" "1")))
             threeSubscribers in
  exists response attempts admin,
    fst r = Ok response /\
    status response = 200 /\
    mailAttempts (trace (snd r)) = attempts ++ [admin] /\
    map (fun a => to (fst a)) attempts = ["a@x.com"; "b@x.com"; "c@x.com"] /\
    field "success" response = Some (JBool true) /\
    delivered attempts = 2 /\
    failedRecipients attempts = ["b@x.com"] /\
    postsCreated (trace (snd r)) = posts (db (snd r)).
Proof.
  cbv zeta.
  pose proof (fan_out_tries_each_subscriber_once exampleEnv (refuse "b@x.com")
                (request (VStr "s3cret") (hello "Hello" "1")) threeSubscribers) as H.
  cbv zeta in H. destruct H as [HP _].
  edestruct HP as (attempts & admin & Hm & Hto & _ & Hok & Hsent & _ & _ & _ & Hlist).
  { vm_compute. reflexivity. }
  { reflexivity. }
  exists (Part000.published
            (Part000.postOf (refuse "b@x.com") (request (VStr "s3cret") (hello "Hello" "1"))
               threeSubscribers)
            VNull (subscribers threeSubscribers) 2 ["b@x.com"]), attempts, admin.
  split; [vm_compute; reflexivity|].
  split; [reflexivity|].
  split; [exact Hm|].
  split; [exact Hto|].
  split; [reflexivity|].
  split; [vm_compute in Hsent; now injection Hsent|].
  split; [|vm_compute; reflexivity].
  destruct (failedRecipients attempts) as [|x [|y rest]]; vm_compute in Hlist;
    [discriminate Hlist | now injection Hlist as -> | discriminate Hlist].
Defined.

(** C1 fails in [src/index.js]: with three subscribers and one refused
    recipient the three are tried and two mails are delivered, but the
    answer carries neither a failed list nor a failed count, and the
    refused address appears in no mail, the one to the administrator
    included. *)
Lemma index_js_keeps_no_failed_list :
  let r := run (IndexJs.post_publish exampleEnv (refuse "b@x.com")
                  (request (VStr "s3cret") (hello "Hello" "1")))
             threeSubscribers in
  map (fun a => (to (fst a), snd a)) (mailAttempts (trace (snd r))) =
    [("a@x.com", true); ("b@x.com", false); ("c@x.com", true);
     ("admin@example.com", true)] /\
  fst r =
    Ok (res_json 200
          [("success", JBool true);
           ("sent", JObj [("subscribers", JNum 2)]);
           ("attachmentUrl", JVal VNull);
           ("message", JStr "Published successfully to 2 subscribers")]) /\
  map (fun a => includes (html (fst a)) "b@x.com")
    (filter (fun a => to (fst a) =? "admin@example.com") (mailAttempts (trace (snd r)))) =
    [false].
Proof. vm_compute. repeat split. Qed.


(** C3 at a wrong secret and at a missing title, all other fields being
    valid: 401 and 400, nothing written, nothing sent, in both files. *)
Lemma wrong_secret_and_missing_title_do_nothing :
  let wrong := request (VStr "guess") (hello "Hello" "1") in
  let untitled := request (VStr "s3cret") [("postUrl", VStr "https://x/1")] in
  let rI := run (IndexJs.post_publish exampleEnv deliverAll wrong) threeSubscribers in
  let rP := run (Part000.post_publish exampleEnv deliverAll wrong) threeSubscribers in
  let uI := run (IndexJs.post_publish exampleEnv deliverAll untitled) threeSubscribers in
  let uP := run (Part000.post_publish exampleEnv deliverAll untitled) threeSubscribers in
  (statusOf (fst rI) = Some 401 /\ db (snd rI) = threeSubscribers /\ trace (snd rI) = []) /\
  (statusOf (fst rP) = Some 401 /\ db (snd rP) = threeSubscribers /\ trace (snd rP) = []) /\
  (statusOf (fst uI) = Some 400 /\ db (snd uI) = threeSubscribers /\ trace (snd uI) = []) /\
  (statusOf (fst uP) = Some 400 /\ db (snd uP) = threeSubscribers /\ trace (snd uP) = []).
Proof.
  cbv zeta.
  pose proof (rejected_publish_has_no_effect exampleEnv deliverAll
                (request (VStr "guess") (hello "Hello" "1")) threeSubscribers) as H.
  pose proof (rejected_publish_has_no_effect exampleEnv deliverAll
                (request (VStr "s3cret") [("postUrl", VStr "https://x/1")])
                threeSubscribers) as U.
  cbv zeta in H, U.
  destruct H as (HI & HP & _ & _ & HnoI & HnoP).
  destruct U as (_ & _ & UI & UP & UnoI & UnoP).
  assert (H1 := HI ltac:(discriminate)).
  assert (H2 := HP ltac:(discriminate)).
  assert (H3 := UI eq_refl (or_introl eq_refl)).
  assert (H4 := UP eq_refl (or_introl eq_refl)).
  repeat split; try assumption;
    solve [apply HnoI; now left | apply HnoP; now left
          | apply UnoI; now right | apply UnoP; now right].
Defined.

(** C4 fails: in [src/index.js] the configured secret, given as the body
    field with no header, is answered 401, while [src/unnamed/part_000]
    accepts the same call, and there a wrong header hides a right body
    field; and in both files a call answered 401 has had an effect, the
    leaflet sent with it is in the upload directory. *)
Lemma body_secret_is_ignored_and_upload_is_kept :
  let inBody := request VUndefined (("secret", VStr "s3cret") :: hello "Hello" "1") in
  let both := request (VStr "guess") (("secret", VStr "s3cret") :: hello "Hello" "1") in
  let withLeaflet := attach leaflet (request (VStr "guess") (hello "Hello" "1")) in
  let rI := run (IndexJs.publish_route exampleEnv deliverAll withLeaflet) threeSubscribers in
  let rP := run (Part000.publish_route exampleEnv deliverAll withLeaflet) threeSubscribers in
  body inBody "secret" = VStr (PUBLISH_SECRET exampleEnv) /\
  statusOf (fst (run (IndexJs.publish_route exampleEnv deliverAll inBody) threeSubscribers)) =
    Some 401 /\
  statusOf (fst (run (Part000.publish_route exampleEnv deliverAll inBody) threeSubscribers)) =
    Some 200 /\
  statusOf (fst (run (Part000.publish_route exampleEnv deliverAll both) threeSubscribers)) =
    Some 401 /\
  (statusOf (fst rI) = Some 401 /\ trace (snd rI) = [FileStored leaflet]) /\
  (statusOf (fst rP) = Some 401 /\ trace (snd rP) = [FileStored leaflet]).
Proof. vm_compute. repeat split. Qed.

(** C4 at a call with a wrong header, without a file and with one: 401,
    the store is not asked and no mail is sent, in both files; the file
    is stored. *)
Lemma wrong_header_is_unauthorized :
  let req := request (VStr "guess") (hello "Hello" "1") in
  let rI := run (IndexJs.publish_route exampleEnv deliverAll req) threeSubscribers in
  let rP := run (Part000.publish_route exampleEnv deliverAll req) threeSubscribers in
  let rF := run (Part000.publish_route exampleEnv deliverAll (attach leaflet req))
              threeSubscribers in
  statusOf (fst rP) = Some 401 /\ snd rP = initial threeSubscribers /\
  statusOf (fst rI) = Some 401 /\ snd rI = initial threeSubscribers /\
  statusOf (fst rF) = Some 401 /\ snd rF = mkSt threeSubscribers [FileStored leaflet] 0 0 0.
Proof.
  cbv zeta.
  pose proof (publish_authorization exampleEnv deliverAll
                (request (VStr "guess") (hello "Hello" "1")) threeSubscribers) as H.
  pose proof (publish_authorization exampleEnv deliverAll
                (attach leaflet (request (VStr "guess") (hello "Hello" "1")))
                threeSubscribers) as F.
  cbv zeta in H, F. destruct H as (HP & HI & HnoP & HnoI & _).
  destruct F as (FP & _ & FnoP & _).
  assert (H1 := proj2 HP ltac:(discriminate)).
  assert (H2 := proj2 HI ltac:(discriminate)).
  assert (H3 := proj2 FP ltac:(discriminate)).
  split; [exact H1|]. split; [exact (HnoP H1)|].
  split; [exact H2|]. split; [exact (HnoI H2)|].
  split; [exact H3 | exact (FnoP H3)].
Defined.

(** C5 fails in [src/index.js]: the input true is stored as false. *)
Lemma index_js_stores_true_as_false :
  let req := request (VStr "s3cret") (hello "Hello" "true") in
  let r := run (IndexJs.post_publish exampleEnv deliverAll req) threeSubscribers in
  body req "sendFull" = VStr "true" /\
  statusOf (fst r) = Some 200 /\
  map sendFull (posts (db (snd r))) = [false].
Proof. vm_compute. repeat split. Qed.

(** C5 at the post of the specification, sent with the input true to
    [src/unnamed/part_000]: one post, with sendFull true and the first
    time read. *)
Lemma hello_is_stored_once :
  let req := request (VStr "s3cret") (hello "Hello" "true") in
  let r := run (Part000.post_publish exampleEnv deliverAll req) threeSubscribers in
  statusOf (fst r) = Some 200 /\
  posts (db (snd r)) =
    [mkPost 0 (VStr "Hello") (VStr "EXC") (VStr "FULL") (VStr "https://x/1") VNull VNull
       true 0] /\
  postsCreated (trace (snd r)) = posts (db (snd r)).
Proof.
  cbv zeta.
  pose proof (publish_stores_one_post exampleEnv deliverAll
                (request (VStr "s3cret") (hello "Hello" "true")) threeSubscribers) as H.
  cbv zeta in H. destruct H as (HP & _).
  assert (Hst : statusOf (fst (run (Part000.post_publish exampleEnv deliverAll
                                      (request (VStr "s3cret") (hello "Hello" "true")))
                                 threeSubscribers)) = Some 200)
    by (vm_compute; reflexivity).
  destruct (HP Hst) as [Hposts Hcreated].
  split; [exact Hst|]. split.
  - rewrite Hposts. reflexivity.
  - rewrite Hposts, Hcreated. reflexivity.
Defined.

(** C6 fails as stated: with sendFull off, the excerpt EXC and the
    content FULL, a post whose title contains FULL gets bodies that
    contain the content, in [src/unnamed/part_000]; and in
    [src/index.js] the input true does not turn sendFull on, so that the
    bodies of the post of the specification do not contain FULL. *)
Lemma body_may_contain_the_content :
  let bodies (r : Result Response * St) :=
    map (fun a => includes (html (fst a)) "FULL")
      (removelast (mailAttempts (trace (snd r)))) in
  let titled := request (VStr "s3cret") (hello "The FULL story" "0") in
  let asTrue := request (VStr "s3cret") (hello "Hello" "true") in
  Part000.isFull (body titled "sendFull") = false /\
  body titled "content" = VStr "FULL" /\
  bodies (run (Part000.post_publish exampleEnv deliverAll titled) threeSubscribers) =
    [true; true; true] /\
  bodies (run (IndexJs.post_publish exampleEnv deliverAll asTrue) threeSubscribers) =
    [false; false; false].
Proof. vm_compute. repeat split. Qed.

(** C6 at the post of the specification, in [src/unnamed/part_000]:
    with sendFull on every body contains FULL; with sendFull off every
    body contains EXC, is the rendering of the template on any other
    content, and does not contain FULL. *)
Lemma hello_bodies :
  let bodies (needle : string) (r : Result Response * St) :=
    map (fun a => includes (html (fst a)) needle)
      (removelast (mailAttempts (trace (snd r)))) in
  let full := request (VStr "s3cret") (hello "Hello" "1") in
  let short := request (VStr "s3cret") (hello "Hello" "0") in
  let rFull := run (Part000.post_publish exampleEnv deliverAll full) threeSubscribers in
  let rShort := run (Part000.post_publish exampleEnv deliverAll short) threeSubscribers in
  (forall m ok, In (m, ok) (removelast (mailAttempts (trace (snd rFull)))) ->
     includes (html m) "FULL" = true) /\
  (forall m ok, In (m, ok) (removelast (mailAttempts (trace (snd rShort)))) ->
     includes (html m) "EXC" = true /\
     exists subscriber now,
       html m =
       publishHtml exampleEnv deliverAll false (VStr "Hello") (VStr "EXC")
         (VStr "Another text") (VStr "https://x/1") (VStr "EXC") VNull VNull
         (unsubscribeLinkOf short subscriber) now) /\
  bodies "FULL" rFull = [true; true; true] /\
  bodies "EXC" rShort = [true; true; true] /\
  bodies "FULL" rShort = [false; false; false].
Proof.
  cbv zeta.
  pose proof (notification_body exampleEnv deliverAll
                (request (VStr "s3cret") (hello "Hello" "1")) threeSubscribers) as HF.
  pose proof (notification_body exampleEnv deliverAll
                (request (VStr "s3cret") (hello "Hello" "0")) threeSubscribers) as HS.
  cbv zeta in HF, HS. destruct HF as [HF _]. destruct HS as [HS _].
  split; [|split; [|vm_compute; repeat split]].
  - intros m ok Hin. destruct (HF m ok Hin) as (Hfull & _).
    exact (Hfull eq_refl eq_refl).
  - intros m ok Hin. destruct (HS m ok Hin) as (_ & Hexc & Hany).
    split; [exact (Hexc eq_refl eq_refl)|].
    destruct (Hany eq_refl) as (subscriber & now & _ & Hrender).
    exists subscriber, now. exact (Hrender (VStr "Another text") eq_refl).
Defined.

(** C7 fails in [src/index.js]: an email with an at sign but no dot and
    fewer than 5 characters is accepted and stored; [src/unnamed/part_000]
    answers 400. *)
Lemma index_js_accepts_email_without_dot :
  let E := asciiEngine in
  let req := request VUndefined [("email", VStr "a@b")] in
  let r := run (IndexJs.post_subscribe exampleEnv deliverAll req) emptyDb in
  let email := normEmail (or_else (body req "email") (VStr "")) in
  includes email "." = false /\
  utf16Length email = 3 /\
  statusOf (fst r) = Some 200 /\
  emails (db (snd r)) = ["a@b"] /\
  List.length (mailAttempts (trace (snd r))) = 2 /\
  statusOf (fst (run (Part000.post_subscribe exampleEnv deliverAll req) emptyDb)) = Some 400.
Proof. vm_compute. repeat split. Qed.

(** C7 at an email without at sign: 400 and no effect, in both files. *)
Lemma email_without_at_sign_is_invalid :
  let E := asciiEngine in
  let req := request VUndefined [("email", VStr " Nobody.Example.COM ")] in
  let rI := run (IndexJs.post_subscribe exampleEnv deliverAll req) threeSubscribers in
  let rP := run (Part000.post_subscribe exampleEnv deliverAll req) threeSubscribers in
  statusOf (fst rP) = Some 400 /\ snd rP = initial threeSubscribers /\
  statusOf (fst rI) = Some 400 /\ snd rI = initial threeSubscribers.
Proof.
  cbv zeta.
  pose proof (subscribe_format_check (E := asciiEngine) exampleEnv deliverAll
                (request VUndefined [("email", VStr " Nobody.Example.COM ")])
                threeSubscribers) as H.
  cbv zeta in H. destruct H as (HP & HnoP & HI & HnoI).
  assert (H1 := proj2 HP ltac:(vm_compute; intros (H & _); discriminate H)).
  assert (H2 := proj2 HI ltac:(vm_compute; reflexivity)).
  repeat split; auto.
Defined.

(** Emails that are not ASCII.  The email of the four characters e
    acute, at sign, dot and x has four code units, and five bytes:
    [src/unnamed/part_000] answers 400 to its subscription and to its
    check, and stores nothing.  A no-break space before a stored email
    and a byte order mark after it are trimmed: the subscription is
    refused as already subscribed, and the unsubscribe call removes the
    record, in both files. *)
Lemma length_and_white_space_are_those_of_JavaScript :
  let E := asciiEngine in
  let short := request VUndefined [("email", VStr (utf8 [195; 169] ++ "@.x"))] in
  let spaced :=
    request VUndefined
      [("email", VStr (utf8 [194; 160] ++ "A@B.com" ++ utf8 [239; 187; 191]))] in
  (String.length (utf8 [195; 169] ++ "@.x") = 5 /\
   utf16Length (utf8 [195; 169] ++ "@.x") = 4 /\
   fst (run (Part000.post_subscribe exampleEnv deliverAll short) emptyDb) =
     Ok Part000.invalidEmail /\
   snd (run (Part000.post_subscribe exampleEnv deliverAll short) emptyDb) = initial emptyDb /\
   statusOf (fst (run (Part000.post_check_subscription deliverAll short) emptyDb)) =
     Some 400) /\
  (normEmail (body spaced "email") = "a@b.com" /\
   fst (run (Part000.post_subscribe exampleEnv deliverAll spaced) subscribedOnce_Part000) =
     Ok Part000.alreadySubscribed /\
   fst (run (IndexJs.post_subscribe exampleEnv deliverAll spaced) subscribedOnce_IndexJs) =
     Ok IndexJs.alreadySubscribed /\
   emails (db (snd (run (Part000.post_unsubscribe deliverAll spaced)
                      subscribedOnce_Part000))) = [] /\
   emails (db (snd (run (IndexJs.post_unsubscribe deliverAll spaced)
                      subscribedOnce_IndexJs))) = []).
Proof. vm_compute. repeat split. Qed.

(** C8 fails where a record of the key exists and the answer is not
    the already subscribed one.  [src/index.js] stores the email a@b;
    on that store [src/unnamed/part_000] answers a subscribe call of
    a@b with 400, the key failing its format check.  And when the store
    fails the lookup, both files answer 500, though the key is stored.
    In each case nothing is written and nothing is sent. *)
Lemma stored_key_is_not_always_already_subscribed :
  let E := asciiEngine in
  let req := request VUndefined [("email", VStr "a@b")] in
  let stored := db (snd (run (IndexJs.post_subscribe exampleEnv deliverAll req) emptyDb)) in
  let again := request VUndefined [("email", VStr "  A@X.com ")] in
  let down := storeFailsAt 0 connectionLost in
  let rP := run (Part000.post_subscribe exampleEnv deliverAll req) stored in
  let fP := run (Part000.post_subscribe exampleEnv down again) threeSubscribers in
  let fI := run (IndexJs.post_subscribe exampleEnv down again) threeSubscribers in
  (emails stored = [normEmail (body req "email")] /\
   fst rP = Ok Part000.invalidEmail /\ statusOf (fst rP) = Some 400 /\
   statusOf (Ok Part000.alreadySubscribed) = Some 200 /\
   snd rP = initial stored) /\
  (emails threeSubscribers = [normEmail (body again "email"); "b@x.com"; "c@x.com"] /\
   fst fP = Ok Part000.serverError /\ statusOf (fst fP) = Some 500 /\
   fst fI = Ok IndexJs.serverError /\ statusOf (fst fI) = Some 500 /\
   statusOf (Ok IndexJs.alreadySubscribed) = Some 200 /\
   db (snd fP) = threeSubscribers /\ trace (snd fP) = [] /\
   db (snd fI) = threeSubscribers /\ trace (snd fI) = []).
Proof. vm_compute. repeat split. Qed.

(** C8 at the two spellings of the specification: after a@b.com has
    subscribed, a call with the same address in capitals and between
    blanks is answered already subscribed, writes nothing and sends
    nothing, in both files. *)
Lemma second_spelling_is_already_subscribed :
  let E := asciiEngine in
  let req := request VUndefined [("email", VStr "  A@B.com ")] in
  let rI := run (IndexJs.post_subscribe exampleEnv deliverAll req) subscribedOnce_IndexJs in
  let rP := run (Part000.post_subscribe exampleEnv deliverAll req) subscribedOnce_Part000 in
  emails subscribedOnce_Part000 = ["a@b.com"] /\
  emails subscribedOnce_IndexJs = ["a@b.com"] /\
  (fst rP = Ok Part000.alreadySubscribed /\
   db (snd rP) = subscribedOnce_Part000 /\ trace (snd rP) = []) /\
  (fst rI = Ok IndexJs.alreadySubscribed /\
   db (snd rI) = subscribedOnce_IndexJs /\ trace (snd rI) = []).
Proof.
  cbv zeta.
  pose proof (duplicate_subscribe_is_refused (E := asciiEngine) exampleEnv deliverAll
                (request VUndefined [("email", VStr "  A@B.com ")])
                subscribedOnce_Part000) as HP.
  pose proof (duplicate_subscribe_is_refused (E := asciiEngine) exampleEnv deliverAll
                (request VUndefined [("email", VStr "  A@B.com ")])
                subscribedOnce_IndexJs) as HI.
  cbv zeta in HP, HI.
  destruct HP as (_ & _ & HP & _). destruct HI as (_ & _ & _ & HI & _).
  destruct (HP ltac:(vm_compute; left; reflexivity)) as (Hdb & Ht & Hresp & _).
  destruct (HI ltac:(vm_compute; left; reflexivity)) as (Hdb' & Ht' & Hresp' & _).
  split; [vm_compute; reflexivity|]. split; [vm_compute; reflexivity|].
  split; (split; [|split; assumption]).
  - exact (Hresp eq_refl eq_refl).
  - exact (Hresp' eq_refl eq_refl).
Defined.



(* ================================================================== *)
(*              Further properties of the two server files            *)
(* ================================================================== *)

(* ================================================================== *)
(** * More on strings *)

Lemma append_assoc3 (a b c : string) : ((a ++ b) ++ c)%string = (a ++ b ++ c)%string.
Proof. induction a as [|x a IH]; [reflexivity|]. simpl. now rewrite IH. Qed.

Lemma prefix_split (sub s : string) :
  prefix sub s = true -> exists rest, s = (sub ++ rest)%string.
Proof.
  revert s. induction sub as [|c sub IH]; intros s H.
  - now exists s.
  - destruct s as [|c' s]; [discriminate H|].
    simpl in H. destruct (ascii_dec c c') as [<-|]; [|discriminate H].
    destruct (IH s H) as (rest & ->). now exists rest.
Qed.

Lemma includes_split (s sub : string) :
  includes s sub = true -> exists before after, s = (before ++ sub ++ after)%string.
Proof.
  induction s as [|c s IH]; rewrite includes_unfold.
  - destruct (prefix sub EmptyString) eqn:Hp; [|discriminate].
    intros _. destruct (prefix_split _ _ Hp) as (rest & Hrest).
    exists EmptyString, rest. exact Hrest.
  - destruct (prefix sub (String c s)) eqn:Hp.
    + intros _. destruct (prefix_split _ _ Hp) as (rest & Hrest).
      exists EmptyString, rest. exact Hrest.
    + intros H. destruct (IH H) as (before & after & ->).
      now exists (String c before), after.
Qed.

Lemma includes_trans (s mid sub : string) :
  includes s mid = true -> includes mid sub = true -> includes s sub = true.
Proof.
  intros (p & q & ->)%includes_split (p' & q' & ->)%includes_split.
  replace (p ++ (p' ++ sub ++ q') ++ q)%string with ((p ++ p') ++ sub ++ q' ++ q)%string
    by (now rewrite !append_assoc3).
  exact (includes_append (p ++ p') sub (q' ++ q)).
Qed.

Lemma includes_self (s : string) : includes s s = true.
Proof.
  rewrite includes_unfold.
  replace s with (s ++ EmptyString)%string at 2 by (induction s; simpl; congruence).
  now rewrite prefix_append.
Qed.

Lemma includes_join (sep : string) (l : list string) (e : string) :
  In e l -> includes (join sep l) e = true.
Proof.
  unfold join. induction l as [|x l IH]; [easy|].
  intros [->|Hin].
  - destruct l as [|y l]; [cbn; apply includes_self|].
    exact (includes_append EmptyString e (sep ++ String.concat sep (y :: l))).
  - destruct l as [|y l]; [easy|].
    specialize (IH Hin). apply includes_split in IH as (p & q & Hpq).
    change (String.concat sep (x :: y :: l))
      with (x ++ sep ++ String.concat sep (y :: l))%string.
    rewrite Hpq.
    replace (x ++ sep ++ p ++ e ++ q)%string with ((x ++ sep ++ p) ++ e ++ q)%string
      by (now rewrite !append_assoc3).
    exact (includes_append (x ++ sep ++ p) e q).
Qed.

Lemma In_append (c : ascii) (s t : string) :
  In c (list_ascii_of_string (s ++ t)) <->
  In c (list_ascii_of_string s) \/ In c (list_ascii_of_string t).
Proof.
  induction s as [|x s IH]; simpl.
  - tauto.
  - rewrite IH. tauto.
Qed.

Lemma includes_char (s : string) (c : ascii) :
  includes s (String c EmptyString) = true -> In c (list_ascii_of_string s).
Proof.
  intros (before & after & ->)%includes_split.
  apply In_append. right. now left.
Qed.

Lemma append_cancel (p s t : string) : (p ++ s)%string = (p ++ t)%string -> s = t.
Proof. induction p as [|c p IH]; simpl; [easy|]. intros [= H]. auto. Qed.

Lemma append_empty (s : string) : (s ++ EmptyString)%string = s.
Proof. induction s; simpl; congruence. Qed.

Lemma length_append (s t : string) :
  String.length (s ++ t) = String.length s + String.length t.
Proof. induction s; simpl; congruence. Qed.

(* ================================================================== *)
(** * The name of an uploaded file *)

Lemma string_of_uint_digits (u : Decimal.uint) (c : ascii) :
  In c (list_ascii_of_string (NilEmpty.string_of_uint u)) -> safeChar c = true.
Proof.
  induction u; simpl; try tauto; (intros [<-|H]; [reflexivity | auto]).
Qed.

Lemma showNat_digits (n : nat) (c : ascii) :
  In c (list_ascii_of_string (showNat n)) -> safeChar c = true.
Proof.
  unfold showNat, NilZero.string_of_uint.
  destruct (Nat.to_uint n) eqn:Hn;
    try (rewrite <- Hn; apply string_of_uint_digits).
  simpl. intros [<-|[]]. reflexivity.
Qed.

Lemma replaceUnsafe_safe (s : string) (c : ascii) :
  In c (list_ascii_of_string (replaceUnsafe s)) -> safeChar c = true.
Proof.
  induction s as [|x s IH]; simpl; [tauto|].
  intros [<-|H]; [|auto].
  destruct (safeChar x) eqn:Hx; [exact Hx | reflexivity].
Qed.

Lemma replaceUnsafe_fixed (s : string) :
  replaceUnsafe s = s <-> forall c, In c (list_ascii_of_string s) -> safeChar c = true.
Proof.
  induction s as [|x s IH]; simpl; [tauto|]. split.
  - intros [= Hx Hs] c [<-|Hc].
    + destruct (safeChar x) eqn:E; [reflexivity | now rewrite <- Hx in E].
    + now apply IH.
  - intros H. rewrite (H x (or_introl eq_refl)). f_equal. apply IH. auto.
Qed.

Lemma replaceUnsafe_length (s : string) : String.length (replaceUnsafe s) = String.length s.
Proof. induction s; simpl; congruence. Qed.

(** X1. The name under which [src/unnamed/part_000] stores an upload is
    made of letters, digits, dots, underscores and hyphens only, so it
    holds no slash and no backslash; it is as long as the suffix, a
    hyphen and the original name; and it is the name [src/index.js]
    stores exactly when the original name already has only such
    characters ([src/index.js] keeps the original name as it is). *)
Theorem upload_name_is_sanitized (now random : nat) (originalname : string) :
  let stored := Part000.filenameOf now random originalname in
  (forall c, In c (list_ascii_of_string stored) -> safeChar c = true) /\
  includes stored "/" = false /\
  includes stored (String (ascii_of_nat 92) EmptyString) = false /\
  String.length stored =
    String.length (uniqueSuffix now random) + 1 + String.length originalname /\
  (stored = IndexJs.filenameOf now random originalname <->
   forall c, In c (list_ascii_of_string originalname) -> safeChar c = true) /\
  includes (IndexJs.filenameOf now random originalname) originalname = true.
Proof.
  cbv zeta.
  assert (Hsafe : forall c,
             In c (list_ascii_of_string (Part000.filenameOf now random originalname)) ->
             safeChar c = true).
  { unfold Part000.filenameOf, uniqueSuffix, cat. cbn [fold_right]. intros c.
    rewrite !In_append. cbn [list_ascii_of_string In].
    intros [[Hc|[[<-|[]]|[Hc|[]]]]|[[<-|[]]|[Hc|[]]]];
      first [reflexivity | now apply showNat_digits in Hc | now apply replaceUnsafe_safe in Hc]. }
  split; [exact Hsafe|].
  split.
  { destruct (includes _ "/") eqn:H; [|reflexivity].
    apply includes_char, Hsafe in H. discriminate H. }
  split.
  { destruct (includes _ (String (ascii_of_nat 92) EmptyString)) eqn:H; [|reflexivity].
    apply includes_char, Hsafe in H. discriminate H. }
  split.
  { unfold Part000.filenameOf, cat. cbn [fold_right].
    rewrite !length_append. cbn [String.length].
    rewrite replaceUnsafe_length. lia. }
  split.
  { unfold Part000.filenameOf, IndexJs.filenameOf, cat. cbn [fold_right].
    rewrite <- replaceUnsafe_fixed. split.
    - intros H. apply append_cancel in H. apply (append_cancel "-") in H.
      rewrite !append_empty in H. exact H.
    - now intros ->. }
  unfold IndexJs.filenameOf. apply includes_cat. right. right. now left.
Qed.

(* ================================================================== *)
(** * The unsubscribe link *)

Lemma hexDigit_value (n : nat) :
  n < 16 ->
  (let v := nat_of_ascii (hexDigit n) in if (v <? 58)%nat then v - 48 else v - 55) = n.
Proof.
  intros H. do 16 (destruct n as [|n]; [reflexivity|]). lia.
Qed.

Lemma hexDigit_injective (a b : nat) :
  a < 16 -> b < 16 -> hexDigit a = hexDigit b -> a = b.
Proof.
  intros Ha Hb H. rewrite <- (hexDigit_value a Ha), <- (hexDigit_value b Hb).
  now rewrite H.
Qed.

Lemma hexDigit_unreserved (n : nat) : n < 16 -> uriUnreserved (hexDigit n) = true.
Proof.
  intros H. do 16 (destruct n as [|n]; [reflexivity|]). lia.
Qed.

Lemma nat_of_ascii_bound (c : ascii) : nat_of_ascii c < 256.
Proof.
  destruct c as [[] [] [] [] [] [] [] []]; vm_compute; lia.
Qed.

Lemma encodeURIComponent_injective (s t : string) :
  encodeURIComponent s = encodeURIComponent t -> s = t.
Proof.
  revert t. induction s as [|a s IH]; intros [|b t]; cbn [encodeURIComponent].
  - reflexivity.
  - destruct (uriUnreserved b); discriminate.
  - destruct (uriUnreserved a); discriminate.
  - destruct (uriUnreserved a) eqn:Ha, (uriUnreserved b) eqn:Hb.
    + intros [= -> H]. f_equal. auto.
    + intros [= -> _]. discriminate Ha.
    + intros [= <- _]. discriminate Hb.
    + pose proof (nat_of_ascii_bound a) as Ba. pose proof (nat_of_ascii_bound b) as Bb.
      pose proof (Nat.div_mod_eq (nat_of_ascii a) 16) as Ea.
      pose proof (Nat.div_mod_eq (nat_of_ascii b) 16) as Eb.
      assert (nat_of_ascii a / 16 < 16) as Hah by (apply Nat.Div0.div_lt_upper_bound; lia).
      assert (nat_of_ascii b / 16 < 16) as Hbh by (apply Nat.Div0.div_lt_upper_bound; lia).
      assert (nat_of_ascii a mod 16 < 16) as Hal by (apply Nat.mod_upper_bound; lia).
      assert (nat_of_ascii b mod 16 < 16) as Hbl by (apply Nat.mod_upper_bound; lia).
      revert Ea Eb Hah Hbh Hal Hbl.
      generalize (nat_of_ascii a / 16) (nat_of_ascii a mod 16)
                 (nat_of_ascii b / 16) (nat_of_ascii b mod 16).
      intros ah al bh bl Ea Eb Hah Hbh Hal Hbl [= Hhi Hlo H].
      apply hexDigit_injective in Hhi; [|assumption..].
      apply hexDigit_injective in Hlo; [|assumption..].
      f_equal; [|auto].
      rewrite <- (ascii_nat_embedding a), <- (ascii_nat_embedding b). f_equal. lia.
Qed.

Lemma encodeURIComponent_chars (s : string) (c : ascii) :
  In c (list_ascii_of_string (encodeURIComponent s)) ->
  uriUnreserved c = true \/ c = "%"%char.
Proof.
  induction s as [|a s IH]; cbn [encodeURIComponent list_ascii_of_string In]; [tauto|].
  pose proof (nat_of_ascii_bound a) as Ba.
  destruct (uriUnreserved a) eqn:Ha; cbn [list_ascii_of_string In].
  - intros [<-|H]; auto.
  - intros [<-|[<-|[<-|H]]]; auto; left; apply hexDigit_unreserved.
    + apply Nat.Div0.div_lt_upper_bound; lia.
    + apply Nat.mod_upper_bound; lia.
Qed.

(** X2. The unsubscribe link of a notification is personal: two
    subscribers have the same link only if they have the same email; the
    email is written into the link with unreserved characters and
    percent escapes only, so it holds no [&], [#], [=], [+] or space;
    and in a store the server can reach, no two subscribers share a
    link. *)
Theorem unsubscribe_links_are_personal {E : Engine} (req : Request) (d : Db) :
  (forall s1 s2 : Subscriber,
     unsubscribeLinkOf req s1 = unsubscribeLinkOf req s2 -> email s1 = email s2) /\
  (forall (s : Subscriber) (c : ascii),
     In c (list_ascii_of_string (encodeURIComponent (email s))) ->
     uriUnreserved c = true \/ c = "%"%char) /\
  (forall s : Subscriber,
     existsb (fun c => includes (encodeURIComponent (email s)) (String c EmptyString))
       ["&"; "#"; "="; "+"; " "; "?"; "/"]%char = false) /\
  (Part000.reachable d -> NoDup (map (unsubscribeLinkOf req) (subscribers d))) /\
  (IndexJs.reachable d -> NoDup (map (unsubscribeLinkOf req) (subscribers d))).
Proof.
  assert (Hinj : forall s1 s2 : Subscriber,
             unsubscribeLinkOf req s1 = unsubscribeLinkOf req s2 -> email s1 = email s2).
  { intros s1 s2. unfold unsubscribeLinkOf, cat. cbn [fold_right].
    intros H. do 4 apply append_cancel in H. rewrite !append_empty in H.
    now apply encodeURIComponent_injective. }
  assert (Hnodup : forall subs : list Subscriber,
             NoDup (map email subs) -> NoDup (map (unsubscribeLinkOf req) subs)).
  { induction subs as [|x subs IH]; simpl; [constructor|].
    intros Hnd. inversion Hnd as [|? ? Hx Hrest]; subst. constructor; [|auto].
    intros (y & Hy & Hin)%in_map_iff. apply Hx. apply in_map_iff.
    exists y. split; [now apply Hinj | exact Hin]. }
  split; [exact Hinj|].
  split; [intros s c; apply encodeURIComponent_chars|].
  split.
  { intros s. apply not_true_is_false. intros (c & Hc & Hin)%existsb_exists.
    apply includes_char, encodeURIComponent_chars in Hin.
    cbn [In] in Hc.
    destruct Hc as [<-|[<-|[<-|[<-|[<-|[<-|[<-|[]]]]]]]];
      (destruct Hin as [Hin|Hin]; [vm_compute in Hin|]; discriminate Hin). }
  split.
  - intros Hr. apply Hnodup. now apply Part000_reachable_inv.
  - intros Hr. apply Hnodup. now apply IndexJs_reachable_inv.
Qed.

(* ================================================================== *)
(** * The start-up check *)

Lemma unset_false (penv : ProcessEnv) (k : string) :
  unset penv k = false <-> exists s, penv k = Some s /\ s <> EmptyString.
Proof.
  unfold unset. destruct (penv k) as [s|].
  - rewrite String.eqb_neq. split.
    + intros H. now exists s.
    + now intros (s' & [= ->] & H).
  - split; [discriminate | now intros (s & H & _)].
Qed.

Lemma checkRequired_none (penv : ProcessEnv) (required : list string) :
  checkRequired penv required = None <-> forall k, In k required -> unset penv k = false.
Proof.
  induction required as [|k rest IH]; simpl.
  - split; [intros _ k [] | reflexivity].
  - destruct (unset penv k) eqn:Hk.
    + split; [discriminate|]. intros H. specialize (H k (or_introl eq_refl)). congruence.
    + rewrite IH. split.
      * intros H k' [<-|Hin]; auto.
      * intros H k' Hin. auto.
Qed.

Lemma checkRequired_some (penv : ProcessEnv) (required : list string) (k : string) :
  checkRequired penv required = Some k ->
  exists before after,
    required = before ++ k :: after /\ unset penv k = true /\
    forall k', In k' before -> unset penv k' = false.
Proof.
  induction required as [|k0 rest IH]; simpl; [discriminate|].
  destruct (unset penv k0) eqn:Hk.
  - intros [= <-]. exists [], rest. repeat split; [assumption | intros k' []].
  - intros H. destruct (IH H) as (before & after & -> & Hu & Hb).
    exists (k0 :: before), after. repeat split; [assumption|].
    intros k' [<-|Hin]; auto.
Qed.

Lemma required_TEMP (penv : ProcessEnv) :
  checkRequired penv IndexJs.required = None <->
  checkRequired penv Part000.required = None /\ unset penv "TEMP" = false.
Proof.
  rewrite !checkRequired_none. unfold IndexJs.required, Part000.required. split.
  - intros H. split.
    + intros k Hin. apply H. cbn [In] in *. tauto.
    + apply H. cbn [In]. tauto.
  - intros [H Ht] k Hin. cbn [In] in Hin.
    destruct Hin as [<-|[<-|[<-|[<-|[<-|[<-|[<-|[<-|[]]]]]]]]];
      first [exact Ht | apply H; cbn [In]; tauto].
Qed.

(** X3. The start-up loop lets the server start exactly when every
    required variable is set to a non-empty string; otherwise it reports
    the first variable of the list that is not, and the process exits.
    [src/index.js] requires what [src/unnamed/part_000] requires, and
    [TEMP] besides. *)
Theorem startup_check (penv : ProcessEnv) :
  (forall required,
     checkRequired penv required = None <->
     forall k, In k required -> exists s, penv k = Some s /\ s <> EmptyString) /\
  (forall required k,
     checkRequired penv required = Some k ->
     exists before after,
       required = before ++ k :: after /\ unset penv k = true /\
       forall k', In k' before -> unset penv k' = false) /\
  (checkRequired penv IndexJs.required = None <->
   checkRequired penv Part000.required = None /\ unset penv "TEMP" = false).
Proof.
  split; [|split].
  - intros required. rewrite checkRequired_none. split.
    + intros H k Hin. apply unset_false. auto.
    + intros H k Hin. apply unset_false. auto.
  - apply checkRequired_some.
  - apply required_TEMP.
Qed.

Lemma falsy_is_not (v : Value) (s : string) :
  ToBoolean v = false -> s <> EmptyString -> isString v s = false.
Proof.
  destruct v as [| |t|b t]; simpl; try reflexivity.
  intros Ht Hs. apply negb_false_iff, String.eqb_eq in Ht. subst t.
  apply String.eqb_neq. congruence.
Qed.

(** X4. A server that has passed its start-up check is configured with
    non-empty sender, administrator and secret, and it refuses to
    publish without a secret: a call of the publish route whose header
    [x-publish-secret] is missing or empty (and, in
    [src/unnamed/part_000], whose body field [secret] is missing or
    empty as well) is answered 401; the store is not asked, no post is
    stored and no mail is sent.  The only effect of such a call is the
    one of the upload middleware, which has written the file of the
    request, when it has one, before the secret is tested. *)
Theorem started_server_requires_a_secret (penv : ProcessEnv) :
  checkRequired penv IndexJs.required = None \/
  checkRequired penv Part000.required = None ->
  exists env,
    envOf penv = Some env /\
    FROM_EMAIL env <> EmptyString /\ ADMIN_EMAIL env <> EmptyString /\
    PUBLISH_SECRET env <> EmptyString /\
    forall (world : World) (req : Request) (d : Db),
      ToBoolean (x_publish_secret req) = false ->
      (statusOf (fst (run (IndexJs.publish_route env world req) d)) = Some 401 /\
       snd (run (IndexJs.publish_route env world req) d) = mkSt d (uploaded req) 0 0 0) /\
      (ToBoolean (body req "secret") = false ->
       statusOf (fst (run (Part000.publish_route env world req) d)) = Some 401 /\
       snd (run (Part000.publish_route env world req) d) = mkSt d (uploaded req) 0 0 0).
Proof.
  intros H.
  assert (Hp : checkRequired penv Part000.required = None).
  { destruct H as [H|H]; [|exact H]. now apply required_TEMP in H. }
  clear H. rewrite checkRequired_none in Hp.
  assert (Hset : forall k, In k Part000.required -> exists s, penv k = Some s /\ s <> EmptyString).
  { intros k Hin. apply unset_false. auto. }
  unfold Part000.required in Hset.
  destruct (Hset "FROM_EMAIL") as (fromEmail & E1 & N1); [cbn [In]; tauto|].
  destruct (Hset "FROM_NAME") as (fromName & E2 & N2); [cbn [In]; tauto|].
  destruct (Hset "EMAIL_USER") as (emailUser & E3 & N3); [cbn [In]; tauto|].
  destruct (Hset "ADMIN_EMAIL") as (adminEmail & E4 & N4); [cbn [In]; tauto|].
  destruct (Hset "PUBLISH_SECRET") as (secret & E5 & N5); [cbn [In]; tauto|].
  exists (mkEnv fromEmail fromName emailUser adminEmail secret).
  split; [unfold envOf; now rewrite E1, E2, E3, E4, E5|].
  split; [exact N1|]. split; [exact N4|]. split; [exact N5|].
  intros world req d Hheader.
  assert (Hstate : prepend (uploaded req) (initial d) = mkSt d (uploaded req) 0 0 0).
  { unfold prepend, initial. cbn [db trace sends dbops dates]. now rewrite app_nil_r. }
  split.
  - rewrite IndexJs_publish_route. cbn [fst snd].
    assert (Hrun : run (IndexJs.post_publish (mkEnv fromEmail fromName emailUser adminEmail
                                                secret) world req) d =
                   (Ok (res_json 401 [("success", JBool false);
                                      ("message", JStr "Invalid secret")]), initial d)).
    { unfold run, IndexJs.post_publish, try_catch. cbn [PUBLISH_SECRET].
      now rewrite (falsy_is_not _ _ Hheader N5). }
    rewrite Hrun. cbn [fst snd]. split; [reflexivity | exact Hstate].
  - intros Hbody.
    assert (Hsecret : isString (or_else (x_publish_secret req) (body req "secret")) secret
                      = false).
    { unfold or_else. rewrite Hheader. exact (falsy_is_not _ _ Hbody N5). }
    rewrite Part000_publish_route. cbn [fst snd].
    assert (Hrun : run (Part000.post_publish (mkEnv fromEmail fromName emailUser adminEmail
                                                secret) world req) d =
                   (Ok (res_json 401 [("success", JBool false);
                                      ("message", JStr "Invalid secret")]), initial d)).
    { unfold run, Part000.post_publish, try_catch. cbn [PUBLISH_SECRET].
      now rewrite Hsecret. }
    rewrite Hrun. cbn [fst snd]. split; [reflexivity | exact Hstate].
Qed.

(** X4 at [exampleProcessEnv], in which every required variable is set:
    the server starts, and with a secret that is not empty; a call
    without secret that carries the leaflet is answered 401, and the
    leaflet is stored. *)
Lemma example_environment_starts :
  let req := attach leaflet (request VUndefined (hello "Hello" "1")) in
  (checkRequired exampleProcessEnv IndexJs.required = None \/
   checkRequired exampleProcessEnv Part000.required = None) /\
  exists env,
    envOf exampleProcessEnv = Some env /\
    PUBLISH_SECRET env <> EmptyString /\
    ToBoolean (x_publish_secret req) = false /\ ToBoolean (body req "secret") = false /\
    (statusOf (fst (run (IndexJs.publish_route env deliverAll req) threeSubscribers)) =
       Some 401 /\
     snd (run (IndexJs.publish_route env deliverAll req) threeSubscribers) =
       mkSt threeSubscribers [FileStored leaflet] 0 0 0) /\
    (statusOf (fst (run (Part000.publish_route env deliverAll req) threeSubscribers)) =
       Some 401 /\
     snd (run (Part000.publish_route env deliverAll req) threeSubscribers) =
       mkSt threeSubscribers [FileStored leaflet] 0 0 0).
Proof.
  cbv zeta.
  destruct (started_server_requires_a_secret exampleProcessEnv (or_introl eq_refl))
    as (env & Henv & _ & _ & Hsecret & Hcalls).
  destruct (Hcalls deliverAll (attach leaflet (request VUndefined (hello "Hello" "1")))
              threeSubscribers eq_refl) as [HI HP].
  split; [left; reflexivity|].
  exists env.
  split; [exact Henv|]. split; [exact Hsecret|].
  split; [reflexivity|]. split; [reflexivity|].
  split; [exact HI | exact (HP eq_refl)].
Defined.

(* ================================================================== *)
(** * The listings *)

Section Sorting.

Context {A : Type} (key : A -> Time).

Lemma insertDesc_perm (x : A) (l : list A) : Permutation (insertDesc key x l) (x :: l).
Proof.
  induction l as [|y rest IH]; simpl; [reflexivity|].
  destruct (key y <? key x)%nat; [reflexivity|].
  rewrite IH. apply perm_swap.
Qed.

Lemma sortDesc_perm (l : list A) : Permutation (sortDesc key l) l.
Proof.
  induction l as [|x rest IH]; simpl; [reflexivity|].
  rewrite insertDesc_perm. now constructor.
Qed.

Lemma insertDesc_sorted (x : A) (l : list A) :
  StronglySorted (fun a b => key b <= key a) l ->
  StronglySorted (fun a b => key b <= key a) (insertDesc key x l).
Proof.
  induction 1 as [|y rest Hs IH Hall]; simpl.
  - constructor; constructor.
  - destruct (key y <? key x)%nat eqn:Hlt.
    + apply Nat.ltb_lt in Hlt. constructor; [now constructor|].
      constructor; [lia|].
      eapply Forall_impl; [|exact Hall]. simpl. intros z Hz. lia.
    + apply Nat.ltb_ge in Hlt. constructor; [exact IH|].
      eapply Permutation_Forall; [symmetry; apply insertDesc_perm|].
      now constructor.
Qed.

Lemma sortDesc_sorted (l : list A) :
  StronglySorted (fun a b => key b <= key a) (sortDesc key l).
Proof.
  induction l as [|x rest IH]; simpl; [constructor|]. now apply insertDesc_sorted.
Qed.

Lemma sortDesc_newest (x : A) (l : list A) :
  (forall y, In y l -> key y < key x) ->
  sortDesc key (l ++ [x]) = x :: sortDesc key l.
Proof.
  induction l as [|a rest IH]; intros H; [reflexivity|].
  simpl. rewrite IH by (intros y Hy; apply H; now right).
  simpl. specialize (H a (or_introl eq_refl)).
  destruct (key x <? key a)%nat eqn:Hlt; [|reflexivity].
  apply Nat.ltb_lt in Hlt. lia.
Qed.

End Sorting.

(** X5. The two listings, [GET /_subs] and [GET /posts], never change
    the store and send nothing.  When the store answers, the response is
    200 with every stored document exactly once, newest first by
    [createdAt] and by [publishedAt]; when the store fails, it is 500
    with an empty array. *)
Theorem listings_are_sorted_snapshots (world : World) (d : Db) :
  let rs := run (get_subs world) d in
  let rp := run (get_posts world) d in
  (db (snd rs) = d /\ trace (snd rs) = []) /\
  (db (snd rp) = d /\ trace (snd rp) = []) /\
  (db_error world 0 = None ->
   exists subs posts',
     fst rs = Ok (res_list 200 (map subscriberJson subs)) /\
     Permutation subs (subscribers d) /\
     StronglySorted (fun a b => createdAt b <= createdAt a) subs /\
     fst rp = Ok (res_list 200 (map postJson posts')) /\
     Permutation posts' (posts d) /\
     StronglySorted (fun a b => publishedAt b <= publishedAt a) posts') /\
  (db_error world 0 <> None ->
   fst rs = Ok (res_list 500 []) /\ fst rp = Ok (res_list 500 [])).
Proof.
  cbv zeta.
  unfold run, initial, get_subs, get_posts, Subscriber_find_sorted, Post_find_sorted.
  run_handler.
  destruct (db_error world 0) as [e|]; run_handler.
  - repeat split; try reflexivity. intros [=].
  - split; [now split|]. split; [now split|]. split; [|intros H; now elim H].
    intros _. exists (sortDesc createdAt (subscribers d)), (sortDesc publishedAt (posts d)).
    split; [reflexivity|]. split; [apply sortDesc_perm|]. split; [apply sortDesc_sorted|].
    split; [reflexivity|]. split; [apply sortDesc_perm | apply sortDesc_sorted].
Qed.

(* ================================================================== *)
(** * The mail helper *)

(** X20. [safeSend] never throws: it hands the mail to the transport
    once, answers [true] exactly when the transport accepted it, and
    leaves the store as it was. *)
Theorem safeSend_never_throws (world : World) (mail : Mail) (s : St) :
  exists ok,
    fst (safeSend world mail s) = Ok ok /\
    (ok = true <-> sendMail_error world (sends s) mail = None) /\
    db (snd (safeSend world mail s)) = db s /\
    trace (snd (safeSend world mail s)) = trace s ++ [MailAttempt mail ok] /\
    sends (snd (safeSend world mail s)) = S (sends s).
Proof.
  rewrite safeSend_eq. exists (deliveredBy world (sends s) mail).
  cbn [fst snd db trace sends]. repeat split; try reflexivity.
  - unfold deliveredBy. destruct (sendMail_error _ _ _); [discriminate | reflexivity].
  - unfold deliveredBy. now intros ->.
Qed.

(* ================================================================== *)
(** * More on the subscribe handler *)

Lemma find_app_absent (e : string) (subs : list Subscriber) (doc : Subscriber) :
  ~ In e (map email subs) -> email doc = e ->
  find (fun x => email x =? e) (subs ++ [doc]) = Some doc.
Proof.
  intros Habs Hdoc. induction subs as [|x subs IH]; simpl.
  - now rewrite (proj2 (String.eqb_eq _ _) Hdoc).
  - destruct (email x =? e) eqn:Hx.
    + apply String.eqb_eq in Hx. elim Habs. now left.
    + apply IH. intros H. apply Habs. now right.
Qed.

Lemma find_email_absent (e : string) (subs : list Subscriber) :
  ~ In e (map email subs) -> find (fun x => email x =? e) subs = None.
Proof.
  intros H. destruct (find _ subs) as [x|] eqn:Hfind; [|reflexivity].
  apply find_some in Hfind as [Hin Heq%String.eqb_eq].
  elim H. apply in_map_iff. now exists x.
Qed.

Lemma removeFirst_app_absent (e : string) (subs : list Subscriber) (doc : Subscriber) :
  ~ In e (map email subs) -> email doc = e ->
  removeFirst e (subs ++ [doc]) = subs.
Proof.
  intros Habs Hdoc. induction subs as [|x subs IH]; simpl.
  - now rewrite (proj2 (String.eqb_eq _ _) Hdoc).
  - destruct (email x =? e) eqn:Hx.
    + apply String.eqb_eq in Hx. elim Habs. now left.
    + f_equal. apply IH. intros H. apply Habs. now right.
Qed.

Lemma removeFirst_other (e e' : string) (subs : list Subscriber) :
  e' <> e -> (In e' (map email (removeFirst e subs)) <-> In e' (map email subs)).
Proof.
  intros Hne. induction subs as [|x subs IH]; simpl; [tauto|].
  destruct (email x =? e) eqn:Hx; simpl.
  - apply String.eqb_eq in Hx. split; [tauto|]. intros [H|H]; [congruence | exact H].
  - rewrite IH. tauto.
Qed.

Section SubscribePaths.

Context {E : Engine}.
Variable env : Env.
Variable world : World.
Variable req : Request.
Variable d : Db.

Lemma Part000_subscribe_new :
  let key := normEmail (or_else (body req "email") (VStr "")) in
  let name := or_else (body req "name") (VStr "") in
  let doc := mkSubscriber key name (clock world 0) in
  let welcome :=
    mkMail (fromAddress env) key (VStr "Welcome to our updates")
      (welcomeHtml env (FROM_NAME env) name) None in
  let adminNote :=
    mkMail (FROM_EMAIL env) (ADMIN_EMAIL env) (VStr "New Subscriber Joined")
      (newSubscriberHtml world key name (clock world 1) (S (List.length (subscribers d))))
      None in
  Part000.invalidFormat key = false -> ~ In key (emails d) ->
  db_error world 0 = None -> db_error world 1 = None ->
  run (Part000.post_subscribe env world req) d =
  match db_error world 2 with
  | None =>
      (Ok (Part000.subscribed),
       mkSt (mkDb (subscribers d ++ [doc]) (posts d))
         [SubscriberCreated doc;
          MailAttempt welcome (deliveredBy world 0 welcome);
          MailAttempt adminNote (deliveredBy world 1 adminNote)] 2 3 2)
  | Some e =>
      (Ok (if match code e with Some c => (c =? 11000)%N | None => false end
              || includes (message e) "duplicate"
           then Part000.alreadySubscribed else Part000.serverError),
       mkSt (mkDb (subscribers d ++ [doc]) (posts d))
         [SubscriberCreated doc; MailAttempt welcome (deliveredBy world 0 welcome)] 1 3 2)
  end.
Proof.
  intros key name doc welcome adminNote Hfmt Habs H0 H1.
  unfold run, initial, Part000.post_subscribe. cbv zeta.
  fold key. fold name.
  change (negb (includes key "@") || negb (includes key ".") || (utf16Length key <? 5)%nat)
    with (Part000.invalidFormat key).
  rewrite Hfmt. run_handler. rewrite H0. run_handler.
  rewrite (find_email_absent _ _ Habs). run_handler. rewrite H1.
  rewrite (proj2 (existsb_email_false _ _) Habs). run_handler.
  rewrite length_app, Nat.add_1_r.
  destruct (db_error world 2) as [e|]; run_handler.
  - destruct (_ || _); reflexivity.
  - reflexivity.
Qed.

Lemma IndexJs_subscribe_new :
  let key := normEmail (or_else (body req "email") (VStr "")) in
  let name := or_else (body req "name") (VStr "") in
  let doc := mkSubscriber key name (clock world 0) in
  let welcome :=
    mkMail (fromAddress env) key (VStr "Welcome to our updates")
      (welcomeHtml env (EMAIL_USER env) name) None in
  let adminNote :=
    mkMail (FROM_EMAIL env) (ADMIN_EMAIL env) (VStr "New Subscriber Joined")
      (newSubscriberHtml world key name (clock world 1) (S (List.length (subscribers d))))
      None in
  includes key "@" = true -> ~ In key (emails d) ->
  db_error world 0 = None ->
  run (IndexJs.post_subscribe env world req) d =
  match db_error world 1 with
  | None =>
      (Ok (IndexJs.subscribed),
       mkSt (mkDb (subscribers d ++ [doc]) (posts d))
         [SubscriberCreated doc;
          MailAttempt welcome (deliveredBy world 0 welcome);
          MailAttempt adminNote (deliveredBy world 1 adminNote)] 2 2 2)
  | Some e =>
      (Throw e,
       mkSt (mkDb (subscribers d ++ [doc]) (posts d))
         [SubscriberCreated doc; MailAttempt welcome (deliveredBy world 0 welcome)] 1 2 2)
  end.
Proof.
  intros key name doc welcome adminNote Hfmt Habs H0.
  unfold run, initial, IndexJs.post_subscribe. cbv zeta.
  fold key. fold name.
  rewrite Hfmt. cbn [negb]. run_handler. rewrite H0.
  rewrite (proj2 (existsb_email_false _ _) Habs). run_handler.
  rewrite length_app, Nat.add_1_r.
  destruct (db_error world 1) as [e|]; run_handler; reflexivity.
Qed.

End SubscribePaths.

(** X6. A new subscription.  When the email is not yet stored and the
    store answers, the call answers "Subscribed successfully", appends
    one document (the normalized email, the name, the time of the call)
    and leaves the posts alone.  It sends exactly two mails, whatever the
    transport does with them: the welcome to the subscriber, which greets
    by the name (or "there"), and then the note to the administrator,
    which shows the email and the number of subscribers, the new one
    counted. *)
Theorem new_subscription {E : Engine} (env : Env) (world : World) (req : Request) (d : Db) :
  let key := normEmail (or_else (body req "email") (VStr "")) in
  let name := or_else (body req "name") (VStr "") in
  let doc := mkSubscriber key name (clock world 0) in
  let rI := run (IndexJs.post_subscribe env world req) d in
  let rP := run (Part000.post_subscribe env world req) d in
  let report (r : Result Response * St) :=
    db (snd r) = mkDb (subscribers d ++ [doc]) (posts d) /\
    exists welcome admin,
      mailAttempts (trace (snd r)) = [welcome; admin] /\
      to (fst welcome) = key /\
      includes (html (fst welcome)) (ToString (or_else name (VStr "there"))) = true /\
      to (fst admin) = ADMIN_EMAIL env /\
      includes (html (fst admin)) key = true /\
      includes (html (fst admin)) (showNat (S (List.length (subscribers d)))) = true in
  ~ In key (emails d) ->
  db_error world 0 = None -> db_error world 1 = None ->
  (Part000.invalidFormat key = false -> db_error world 2 = None ->
   fst rP = Ok Part000.subscribed /\ report rP) /\
  (includes key "@" = true -> fst rI = Ok IndexJs.subscribed /\ report rI).
Proof.
  intros key name doc rI rP report Habs H0 H1. split.
  - intros Hfmt H2. subst rP report. cbv beta.
    rewrite (Part000_subscribe_new env world req d Hfmt Habs H0 H1), H2.
    cbn [fst snd db trace mailAttempts].
    split; [reflexivity|]. split; [reflexivity|].
    eexists (_, _), (_, _). split; [reflexivity|]. cbn [fst to html].
    split; [reflexivity|].
    split; [unfold welcomeHtml; apply includes_cat; find_piece|].
    split; [reflexivity|].
    split; unfold newSubscriberHtml; apply includes_cat; find_piece.
  - intros Hfmt. subst rI report. cbv beta.
    rewrite (IndexJs_subscribe_new env world req d Hfmt Habs H0), H1.
    cbn [fst snd db trace mailAttempts].
    split; [reflexivity|]. split; [reflexivity|].
    eexists (_, _), (_, _). split; [reflexivity|]. cbn [fst to html].
    split; [reflexivity|].
    split; [unfold welcomeHtml; apply includes_cat; find_piece|].
    split; [reflexivity|].
    split; unfold newSubscriberHtml; apply includes_cat; find_piece.
Qed.

(** X6 with a transport that refuses every mail: Ann is subscribed all
    the same, under the normalized email, and both mails were attempted. *)
Lemma ann_subscribes_while_mail_is_down :
  let E := asciiEngine in
  let env := exampleEnv in
  let world := deliverNone in
  let req := request VUndefined [("email", VStr " Ann@Example.com "); ("name", VStr "Ann")] in
  let d := threeSubscribers in
  let key := normEmail (or_else (body req "email") (VStr "")) in
  let name := or_else (body req "name") (VStr "") in
  let doc := mkSubscriber key name (clock world 0) in
  let rI := run (IndexJs.post_subscribe env world req) d in
  let rP := run (Part000.post_subscribe env world req) d in
  let report (r : Result Response * St) :=
    db (snd r) = mkDb (subscribers d ++ [doc]) (posts d) /\
    exists welcome admin,
      mailAttempts (trace (snd r)) = [welcome; admin] /\
      to (fst welcome) = key /\
      includes (html (fst welcome)) (ToString (or_else name (VStr "there"))) = true /\
      to (fst admin) = ADMIN_EMAIL env /\
      includes (html (fst admin)) key = true /\
      includes (html (fst admin)) (showNat (S (List.length (subscribers d)))) = true in
  (key = "ann@example.com" /\ ~ In key (emails d) /\
   db_error world 0 = None /\ db_error world 1 = None /\ db_error world 2 = None /\
   Part000.invalidFormat key = false /\ includes key "@" = true) /\
  (fst rP = Ok Part000.subscribed /\ report rP) /\
  (fst rI = Ok IndexJs.subscribed /\ report rI).
Proof.
  cbv zeta.
  assert (Habs : ~ In (normEmail (E := asciiEngine) (or_else
                    (body (request VUndefined
                             [("email", VStr " Ann@Example.com "); ("name", VStr "Ann")])
                       "email") (VStr ""))) (emails threeSubscribers)).
  { vm_compute. intros [H|[H|[H|[]]]]; discriminate H. }
  split.
  - split; [reflexivity|]. split; [exact Habs|].
    split; [reflexivity|]. split; [reflexivity|]. split; [reflexivity|].
    split; reflexivity.
  - pose proof (new_subscription (E := asciiEngine) exampleEnv deliverNone
                  (request VUndefined
                     [("email", VStr " Ann@Example.com "); ("name", VStr "Ann")])
                  threeSubscribers Habs eq_refl eq_refl) as [HP HI].
    exact (conj (HP eq_refl eq_refl) (HI eq_refl)).
Defined.

(** X7. A failure of the count that follows the insert comes too late:
    the subscriber is stored and the welcome mail has been attempted,
    the note to the administrator is not sent, and the caller is not
    told that the subscription took place.  [src/index.js] lets the
    error escape the handler (no response is sent); [src/unnamed/part_000]
    answers 500 "Server error" (or "already subscribed" when the error
    looks like a duplicate key). *)
Theorem count_failure_after_insert {E : Engine} (env : Env) (world : World) (req : Request) (d : Db)
    (e : Error) :
  let key := normEmail (or_else (body req "email") (VStr "")) in
  let name := or_else (body req "name") (VStr "") in
  let doc := mkSubscriber key name (clock world 0) in
  let rI := run (IndexJs.post_subscribe env world req) d in
  let rP := run (Part000.post_subscribe env world req) d in
  let stored (r : Result Response * St) :=
    db (snd r) = mkDb (subscribers d ++ [doc]) (posts d) /\
    map (fun a => to (fst a)) (mailAttempts (trace (snd r))) = [key] in
  ~ In key (emails d) ->
  db_error world 0 = None ->
  (includes key "@" = true -> db_error world 1 = Some e ->
   fst rI = Throw e /\ stored rI) /\
  (Part000.invalidFormat key = false -> db_error world 1 = None ->
   db_error world 2 = Some e ->
   fst rP =
     Ok (if match code e with Some c => (c =? 11000)%N | None => false end
            || includes (message e) "duplicate"
         then Part000.alreadySubscribed else Part000.serverError) /\
   stored rP).
Proof.
  intros key name doc rI rP stored Habs H0. split.
  - intros Hfmt H1. subst rI stored. cbv beta.
    rewrite (IndexJs_subscribe_new env world req d Hfmt Habs H0), H1.
    cbn [fst snd db trace mailAttempts map to]. now split.
  - intros Hfmt H1 H2. subst rP stored. cbv beta.
    rewrite (Part000_subscribe_new env world req d Hfmt Habs H0 H1), H2.
    cbn [fst snd db trace mailAttempts map to]. now split.
Qed.

(** X7 on the empty store, the connection being lost at the count: Bob
    is stored and welcomed; [src/index.js] sends no response and
    [src/unnamed/part_000] answers 500. *)
Lemma bob_is_stored_but_not_told :
  let E := asciiEngine in
  let req := request VUndefined [("email", VStr "bob@example.com")] in
  let doc := mkSubscriber "bob@example.com" (VStr "") 0 in
  let rI := run (IndexJs.post_subscribe exampleEnv (storeFailsAt 1 connectionLost) req)
              emptyDb in
  let rP := run (Part000.post_subscribe exampleEnv (storeFailsAt 2 connectionLost) req)
              emptyDb in
  (fst rI = Throw connectionLost /\ subscribers (db (snd rI)) = [doc] /\
   map (fun a => to (fst a)) (mailAttempts (trace (snd rI))) = ["bob@example.com"]) /\
  (fst rP = Ok Part000.serverError /\ subscribers (db (snd rP)) = [doc] /\
   map (fun a => to (fst a)) (mailAttempts (trace (snd rP))) = ["bob@example.com"]).
Proof.
  cbv zeta.
  assert (Habs : ~ In (normEmail (E := asciiEngine) (or_else
                    (body (request VUndefined [("email", VStr "bob@example.com")]) "email")
                    (VStr ""))) (emails emptyDb)) by (intros []).
  split.
  - destruct (count_failure_after_insert (E := asciiEngine) exampleEnv (storeFailsAt 1 connectionLost)
                (request VUndefined [("email", VStr "bob@example.com")]) emptyDb
                connectionLost Habs eq_refl) as [HI _].
    destruct (HI eq_refl eq_refl) as (Hr & Hdb & Hmail).
    split; [exact Hr|]. split; [|exact Hmail].
    exact (f_equal subscribers Hdb).
  - destruct (count_failure_after_insert (E := asciiEngine) exampleEnv (storeFailsAt 2 connectionLost)
                (request VUndefined [("email", VStr "bob@example.com")]) emptyDb
                connectionLost Habs eq_refl) as [_ HP].
    destruct (HP eq_refl eq_refl eq_refl) as (Hr & Hdb & Hmail).
    split; [exact Hr|]. split; [|exact Hmail].
    exact (f_equal subscribers Hdb).
Defined.

(** X8. When the first store operation of a subscribe call fails,
    nothing is stored and no mail is sent, and the answer depends on the
    error alone: "already subscribed" when its code is 11000 (in
    [src/unnamed/part_000] also when its message contains "duplicate"),
    and 500 "Server error" otherwise. *)
Theorem subscribe_store_error {E : Engine} (env : Env) (world : World) (req : Request) (d : Db)
    (e : Error) :
  let key := normEmail (or_else (body req "email") (VStr "")) in
  let rI := run (IndexJs.post_subscribe env world req) d in
  let rP := run (Part000.post_subscribe env world req) d in
  let duplicate := match code e with Some c => (c =? 11000)%N | None => false end in
  db_error world 0 = Some e ->
  (db (snd rI) = d /\ trace (snd rI) = []) /\
  (db (snd rP) = d /\ trace (snd rP) = []) /\
  (includes key "@" = true ->
   fst rI = Ok (if duplicate then IndexJs.alreadySubscribed else IndexJs.serverError)) /\
  (Part000.invalidFormat key = false ->
   fst rP = Ok (if duplicate || includes (message e) "duplicate"
                then Part000.alreadySubscribed else Part000.serverError)).
Proof.
  intros key rI rP duplicate H0.
  assert (HI : (db (snd rI) = d /\ trace (snd rI) = []) /\
               (includes key "@" = true ->
                fst rI = Ok (if duplicate then IndexJs.alreadySubscribed
                             else IndexJs.serverError))).
  { subst rI duplicate. unfold run, initial, IndexJs.post_subscribe. cbv zeta. fold key.
    destruct (includes key "@"); cbn [negb].
    - run_handler. rewrite H0. run_handler.
      destruct (match code e with Some c => (c =? 11000)%N | None => false end);
        run_handler; now repeat split.
    - split; [now split | discriminate]. }
  assert (HP : (db (snd rP) = d /\ trace (snd rP) = []) /\
               (Part000.invalidFormat key = false ->
                fst rP = Ok (if duplicate || includes (message e) "duplicate"
                             then Part000.alreadySubscribed else Part000.serverError))).
  { subst rP duplicate. unfold run, initial, Part000.post_subscribe. cbv zeta. fold key.
    change (negb (includes key "@") || negb (includes key ".") || (utf16Length key <? 5)%nat)
      with (Part000.invalidFormat key).
    destruct (Part000.invalidFormat key).
    - split; [now split | discriminate].
    - run_handler. rewrite H0. run_handler.
      destruct (_ || _); run_handler; now repeat split. }
  destruct HI as [HI1 HI2], HP as [HP1 HP2]. auto.
Qed.

(** X8 with a store that fails the first operation: a lost connection
    gives 500 in [src/index.js], and an error that carries the code 11000
    is answered "already subscribed" in [src/unnamed/part_000]; the three
    subscribers are untouched. *)
Lemma store_down_on_subscribe :
  let E := asciiEngine in
  let req := request VUndefined [("email", VStr "bob@example.com")] in
  let rI := run (IndexJs.post_subscribe exampleEnv (storeFailsAt 0 connectionLost) req)
              threeSubscribers in
  let rP := run (Part000.post_subscribe exampleEnv (storeFailsAt 0 duplicateKey) req)
              threeSubscribers in
  db_error (storeFailsAt 0 connectionLost) 0 = Some connectionLost /\
  (fst rI = Ok IndexJs.serverError /\ db (snd rI) = threeSubscribers /\ trace (snd rI) = []) /\
  (fst rP = Ok Part000.alreadySubscribed /\ db (snd rP) = threeSubscribers /\
   trace (snd rP) = []).
Proof.
  cbv zeta. split; [reflexivity|]. split.
  - destruct (subscribe_store_error (E := asciiEngine) exampleEnv (storeFailsAt 0 connectionLost)
                (request VUndefined [("email", VStr "bob@example.com")]) threeSubscribers
                connectionLost eq_refl) as ((Hdb & Htrace) & _ & HI & _).
    exact (conj (HI eq_refl) (conj Hdb Htrace)).
  - destruct (subscribe_store_error (E := asciiEngine) exampleEnv (storeFailsAt 0 duplicateKey)
                (request VUndefined [("email", VStr "bob@example.com")]) threeSubscribers
                duplicateKey eq_refl) as (_ & (Hdb & Htrace) & _ & HP).
    exact (conj (HP eq_refl) (conj Hdb Htrace)).
Defined.

(* ================================================================== *)
(** * More on the unsubscribe handlers *)

Lemma removeFirst_In (e : string) (s : Subscriber) (subs : list Subscriber) :
  In s (removeFirst e subs) -> In s subs.
Proof.
  induction subs as [|x subs IH]; simpl; [tauto|].
  destruct (email x =? e); simpl; tauto.
Qed.

Lemma removeFirst_keeps (e : string) (s : Subscriber) (subs : list Subscriber) :
  In s subs -> email s <> e -> In s (removeFirst e subs).
Proof.
  intros Hin Hne. induction subs as [|x subs IH]; simpl; [tauto|].
  destruct Hin as [->|Hin].
  - rewrite (proj2 (String.eqb_neq _ _) Hne). now left.
  - destruct (email x =? e); [exact Hin | right; auto].
Qed.

Lemma removeFirst_length (e : string) (subs : list Subscriber) :
  In e (map email subs) -> S (List.length (removeFirst e subs)) = List.length subs.
Proof.
  induction subs as [|x subs IH]; simpl; [tauto|].
  destruct (email x =? e) eqn:Hx; [reflexivity|].
  intros [H|H]; [apply String.eqb_neq in Hx; congruence|].
  simpl. now rewrite IH.
Qed.

Lemma removeFirst_absent (e : string) (subs : list Subscriber) :
  ~ In e (map email subs) -> removeFirst e subs = subs.
Proof.
  induction subs as [|x subs IH]; simpl; [reflexivity|].
  intros H. destruct (email x =? e) eqn:Hx.
  - apply String.eqb_eq in Hx. tauto.
  - f_equal. tauto.
Qed.

(** X9. [POST /unsubscribe] touches nothing but the record of the
    email asked for: the posts and every subscriber with another email
    stay, no subscriber is added and no mail is sent; when the email is
    stored and the store answers, exactly one record goes; and when the
    store fails the answer is 500 and nothing has changed. *)
Theorem unsubscribe_removes_only_that_email {E : Engine} (world : World) (req : Request) (d : Db) :
  let key := normEmail (or_else (body req "email") (VStr "")) in
  let rI := run (IndexJs.post_unsubscribe world req) d in
  let rP := run (Part000.post_unsubscribe world req) d in
  let frame (r : Result Response * St) :=
    posts (db (snd r)) = posts d /\
    mailAttempts (trace (snd r)) = [] /\
    (forall s, In s (subscribers (db (snd r))) -> In s (subscribers d)) /\
    (forall s, In s (subscribers d) -> email s <> key -> In s (subscribers (db (snd r)))) /\
    (db_error world 0 = None -> In key (emails d) ->
     S (List.length (subscribers (db (snd r)))) = List.length (subscribers d)) /\
    (db_error world 0 <> None -> statusOf (fst r) = Some 500 /\ db (snd r) = d) in
  frame rI /\ frame rP.
Proof.
  intros key rI rP frame. subst rI rP frame. cbv beta.
  rewrite IndexJs_unsubscribe_run, Part000_unsubscribe_run.
  change (IndexJs.emailOf req) with key. change (Part000.emailOf req) with key.
  destruct (db_error world 0) as [e|].
  - cbn [fst snd db trace mailAttempts statusOf status res_json].
    split; (split; [reflexivity|]; split; [reflexivity|]; split; [auto|]; split; [auto|];
            split; [discriminate | now split]).
  - destruct (existsb _ _) eqn:Hex;
      cbn [fst snd db trace mailAttempts subscribers posts].
    + apply existsb_email in Hex.
      split; (split; [reflexivity|]; split; [reflexivity|];
              split; [intros s; apply removeFirst_In|];
              split; [intros s; apply removeFirst_keeps|];
              split; [intros _ _; now apply removeFirst_length | intros H; now elim H]).
    + apply existsb_email_false in Hex.
      split; (split; [reflexivity|]; split; [reflexivity|]; split; [auto|]; split; [auto|];
              split; [intros _ Hin; now elim Hex | intros H; now elim H]).
Qed.

Ltac pick_piece := (left; reflexivity) + (right; pick_piece).

Lemma includes_piece (pieces : list string) (piece needle : string) :
  In piece pieces -> includes piece needle = true -> includes (cat pieces) needle = true.
Proof.
  intros Hin Hneedle. eapply includes_trans; [|exact Hneedle]. now apply includes_cat.
Qed.

(** X10. The unsubscribe link, [GET /unsubscribe].  Without an email in
    the query the answer is "No email provided" and the store is not
    even asked.  Otherwise the record of the normalized email is
    removed, as [POST /unsubscribe] would for the same email, and the
    answer is a page: in [src/index.js] always the page "Successfully
    Unsubscribed", in [src/unnamed/part_000] that page when a record was
    removed and the page "Already Unsubscribed" when there was none.  A
    store failure gives 500 and changes nothing. *)
Theorem unsubscribe_link {E : Engine} (env : Env) (world : World) (req : Request) (d : Db) :
  let key := normEmail (query_email req) in
  let rI := run (IndexJs.get_unsubscribe env world req) d in
  let rP := run (Part000.get_unsubscribe env world req) d in
  let page (r : Result Response * St) (heading : string) :=
    statusOf (fst r) = Some 200 /\
    exists text, textOf (fst r) = Some text /\ includes text heading = true in
  (ToBoolean (query_email req) = false ->
   rI = (Ok (res_send 200 "No email provided"), initial d) /\
   rP = (Ok (res_send 200 "No email provided"), initial d)) /\
  (ToBoolean (query_email req) = true -> db_error world 0 = None ->
   db (snd rI) = mkDb (removeFirst key (subscribers d)) (posts d) /\
   db (snd rP) = mkDb (removeFirst key (subscribers d)) (posts d) /\
   page rI "<h2>Successfully Unsubscribed</h2>" /\
   (In key (emails d) -> page rP "<h2>Successfully Unsubscribed</h2>") /\
   (~ In key (emails d) -> page rP "<h2>Already Unsubscribed</h2>") /\
   (normEmail (or_else (body req "email") (VStr "")) = key ->
    db (snd rI) = db (snd (run (IndexJs.post_unsubscribe world req) d)) /\
    db (snd rP) = db (snd (run (Part000.post_unsubscribe world req) d)))) /\
  (ToBoolean (query_email req) = true -> db_error world 0 <> None ->
   (statusOf (fst rI) = Some 500 /\ snd rI = mkSt d [] 0 1 0) /\
   (statusOf (fst rP) = Some 500 /\ snd rP = mkSt d [] 0 1 0)).
Proof.
  intros key rI rP page. subst rI rP page. cbv beta.
  split; [|split].
  - intros Hq. unfold run, initial, IndexJs.get_unsubscribe, Part000.get_unsubscribe.
    cbv zeta. rewrite Hq. now split.
  - intros Hq H0.
    rewrite IndexJs_unsubscribe_run, Part000_unsubscribe_run.
    unfold IndexJs.emailOf, Part000.emailOf.
    unfold run, initial, IndexJs.get_unsubscribe, Part000.get_unsubscribe.
    cbv zeta. rewrite Hq. cbn [negb]. fold key. run_handler. rewrite H0.
    destruct (existsb (fun x => email x =? key) (subscribers d)) eqn:Hex;
      cbn [fst snd db statusOf status res_send textOf payload].
    + apply existsb_email in Hex.
      split; [reflexivity|]. split; [reflexivity|].
      split; [split; [reflexivity|]; eexists; split; [reflexivity|];
              eapply includes_piece; [pick_piece | reflexivity]|].
      split; [intros _; split; [reflexivity|]; eexists; split; [reflexivity|];
              eapply includes_piece; [pick_piece | reflexivity]|].
      split; [intros H; now elim H|].
      intros ->. rewrite (proj2 (existsb_email _ _) Hex). now split.
    + apply existsb_email_false in Hex.
      rewrite (removeFirst_absent _ _ Hex). destruct d as [subs ps].
      cbn [subscribers posts] in *.
      split; [reflexivity|]. split; [reflexivity|].
      split; [split; [reflexivity|]; eexists; split; [reflexivity|];
              eapply includes_piece; [pick_piece | reflexivity]|].
      split; [intros H; now elim Hex|].
      split; [intros _; split; [reflexivity|]; eexists; split; [reflexivity|];
              eapply includes_piece; [pick_piece | reflexivity]|].
      intros ->. rewrite (proj2 (existsb_email_false _ _) Hex). now split.
  - intros Hq H0.
    unfold run, initial, IndexJs.get_unsubscribe, Part000.get_unsubscribe.
    cbv zeta. rewrite Hq. cbn [negb]. run_handler.
    destruct (db_error world 0); [|now elim H0].
    now repeat split.
Qed.

(** X10 at three subscribers: a click on the link of [b@x.com], spelled
    with a capital and a space, removes that record and shows the page
    of success; a second click shows "Already Unsubscribed". *)
Lemma link_of_bob_removes_bob :
  let E := asciiEngine in
  let req := clicked (VStr " B@x.com") in
  let rI := run (IndexJs.get_unsubscribe exampleEnv deliverAll req) threeSubscribers in
  let rP := run (Part000.get_unsubscribe exampleEnv deliverAll req) threeSubscribers in
  let again := run (Part000.get_unsubscribe exampleEnv deliverAll req) (db (snd rP)) in
  (ToBoolean (query_email req) = true /\ db_error deliverAll 0 = None) /\
  (emails (db (snd rI)) = ["a@x.com"; "c@x.com"] /\
   emails (db (snd rP)) = ["a@x.com"; "c@x.com"] /\
   emails (db (snd again)) = ["a@x.com"; "c@x.com"]) /\
  (statusOf (fst rP) = Some 200 /\
   exists text,
     textOf (fst rP) = Some text /\
     includes text "<h2>Successfully Unsubscribed</h2>" = true) /\
  (statusOf (fst again) = Some 200 /\
   exists text,
     textOf (fst again) = Some text /\ includes text "<h2>Already Unsubscribed</h2>" = true).
Proof.
  intros E. cbv zeta.
  split; [split; reflexivity|].
  split; [split; [|split]; vm_compute; reflexivity|].
  split.
  - destruct (unsubscribe_link (E := asciiEngine) exampleEnv deliverAll (clicked (VStr " B@x.com"))
                threeSubscribers) as (_ & H & _).
    destruct (H eq_refl eq_refl) as (_ & _ & _ & Hpage & _).
    apply Hpage. vm_compute. right. left. reflexivity.
  - destruct (unsubscribe_link (E := asciiEngine) exampleEnv deliverAll (clicked (VStr " B@x.com"))
                (db (snd (run (Part000.get_unsubscribe exampleEnv deliverAll
                                 (clicked (VStr " B@x.com"))) threeSubscribers))))
      as (_ & H & _).
    destruct (H eq_refl eq_refl) as (_ & _ & _ & _ & Hpage & _).
    apply Hpage. vm_compute. intros [H1|[H1|[]]]; discriminate H1.
Defined.

(* ================================================================== *)
(** * The subscription check of [src/unnamed/part_000] *)

Lemma Part000_check_run {E : Engine} (world : World) (req : Request) (d : Db) :
  let key := normEmail (or_else (body req "email") (VStr "")) in
  run (Part000.post_check_subscription world req) d =
  if Part000.invalidFormat key then (Ok Part000.invalidEmail, initial d)
  else
    match db_error world 0 with
    | Some _ => (Ok Part000.serverError, mkSt d [] 0 1 0)
    | None =>
        match find (fun x => email x =? key) (subscribers d) with
        | Some s => (Ok (Part000.isSubscribed s), mkSt d [] 0 1 0)
        | None => (Ok Part000.isNotSubscribed, mkSt d [] 0 1 0)
        end
    end.
Proof.
  intros key. unfold run, initial, Part000.post_check_subscription. cbv zeta. fold key.
  change (negb (includes key "@") || negb (includes key ".") || (utf16Length key <? 5)%nat)
    with (Part000.invalidFormat key).
  destruct (Part000.invalidFormat key); [reflexivity|].
  run_handler. destruct (db_error world 0); [reflexivity|].
  destruct (find _ _); reflexivity.
Qed.

(** X11. [POST /check-subscription] only reads: the store is left as it
    was and no mail is sent.  An email that fails the format check of the
    subscribe handler is answered 400; otherwise, when the store answers,
    the answer says [subscribed: true], with the stored email, name and
    date, exactly when a record of the normalized email is stored, and
    [subscribed: false] when there is none; a store failure gives 500. *)
Theorem check_subscription_reads_the_store {E : Engine} (world : World) (req : Request) (d : Db) :
  let key := normEmail (or_else (body req "email") (VStr "")) in
  let r := run (Part000.post_check_subscription world req) d in
  db (snd r) = d /\ trace (snd r) = [] /\
  (statusOf (fst r) = Some 400 <-> Part000.invalidFormat key = true) /\
  (Part000.invalidFormat key = false -> db_error world 0 = None ->
   (In key (emails d) ->
    exists s response,
      In s (subscribers d) /\ email s = key /\ fst r = Ok response /\
      status response = 200 /\
      field "subscribed" response = Some (JBool true) /\
      field2 "data" "email" response = Some (JStr key) /\
      field2 "data" "name" response = Some (JVal (name s)) /\
      field2 "data" "subscribedSince" response = Some (JNum (createdAt s))) /\
   (~ In key (emails d) ->
    exists response,
      fst r = Ok response /\ status response = 200 /\
      field "subscribed" response = Some (JBool false) /\
      field "data" response = None)) /\
  (Part000.invalidFormat key = false -> db_error world 0 <> None ->
   statusOf (fst r) = Some 500).
Proof.
  intros key r. subst r. rewrite Part000_check_run. fold key.
  destruct (Part000.invalidFormat key) eqn:Hfmt.
  { cbn [fst snd db trace initial statusOf status Part000.invalidEmail res_json].
    split; [reflexivity|]. split; [reflexivity|]. split; [easy|].
    split; discriminate. }
  destruct (db_error world 0) as [e|] eqn:H0.
  { cbn [fst snd db trace statusOf status Part000.serverError res_json].
    split; [reflexivity|]. split; [reflexivity|].
    split; [split; discriminate|]. split; [discriminate | reflexivity]. }
  destruct (find _ _) as [s|] eqn:Hfind.
  - cbn [fst snd db trace statusOf status Part000.isSubscribed res_json].
    split; [reflexivity|]. split; [reflexivity|].
    split; [split; discriminate|]. split; [|intros _ H; now elim H].
    intros _ _. apply find_some in Hfind as [Hin Heq%String.eqb_eq]. split.
    + intros _. exists s, (Part000.isSubscribed s).
      split; [exact Hin|]. split; [exact Heq|]. split; [reflexivity|].
      rewrite <- Heq. now repeat split.
    + intros Habs. elim Habs. apply in_map_iff. now exists s.
  - cbn [fst snd db trace statusOf status Part000.isNotSubscribed res_json].
    split; [reflexivity|]. split; [reflexivity|].
    split; [split; discriminate|]. split; [|intros _ H; now elim H].
    intros _ _. apply find_email_none in Hfind. split; [intros H; now elim Hfind|].
    intros _. exists Part000.isNotSubscribed. now repeat split.
Qed.

(** X11 at three subscribers: Ann is found under another spelling of
    her email, an unknown email is not, and a text without [@] is
    answered 400. *)
Lemma ann_is_found_under_any_spelling :
  let E := asciiEngine in
  let check (email : string) :=
    run (Part000.post_check_subscription deliverAll
           (request VUndefined [("email", VStr email)])) threeSubscribers in
  db_error deliverAll 0 = None /\
  fst (check " A@X.com ") = Ok (Part000.isSubscribed (mkSubscriber "a@x.com" (VStr "Ann") 1)) /\
  fst (check "zed@x.com") = Ok Part000.isNotSubscribed /\
  statusOf (fst (check "nobody")) = Some 400 /\
  db (snd (check " A@X.com ")) = threeSubscribers /\ trace (snd (check " A@X.com ")) = [].
Proof.
  intros E. cbv zeta. split; [reflexivity|].
  destruct (check_subscription_reads_the_store (E := asciiEngine) deliverAll
              (request VUndefined [("email", VStr " A@X.com ")]) threeSubscribers)
    as (Hdb & Htrace & _).
  destruct (check_subscription_reads_the_store (E := asciiEngine) deliverAll
              (request VUndefined [("email", VStr "nobody")]) threeSubscribers)
    as (_ & _ & Hinvalid & _).
  split; [vm_compute; reflexivity|]. split; [vm_compute; reflexivity|].
  split; [apply Hinvalid; reflexivity|].
  exact (conj Hdb Htrace).
Defined.

Lemma Part000_subscribed_inv {E : Engine} (env : Env) (world : World) (req : Request) (d : Db) :
  fst (run (Part000.post_subscribe env world req) d) = Ok Part000.subscribed ->
  Part000.invalidFormat (Part000.emailOf req) = false /\
  ~ In (Part000.emailOf req) (emails d) /\
  db (snd (run (Part000.post_subscribe env world req) d)) =
    mkDb (subscribers d ++ [Part000.subscriberOf world req]) (posts d).
Proof.
  destruct (Part000_subscribe_outcome env world req d)
    as [Hf|s Hf _ _ _ _|r s Hf _ [-> | ->] _ _|r rest s Hf _ _ Habs Hdb _ _];
    cbn [fst snd]; intros Hst; try discriminate Hst.
  now repeat split.
Qed.

Lemma IndexJs_subscribed_inv {E : Engine} (env : Env) (world : World) (req : Request) (d : Db) :
  fst (run (IndexJs.post_subscribe env world req) d) = Ok IndexJs.subscribed ->
  includes (IndexJs.emailOf req) "@" = true /\
  ~ In (IndexJs.emailOf req) (emails d) /\
  db (snd (run (IndexJs.post_subscribe env world req) d)) =
    mkDb (subscribers d ++ [IndexJs.subscriberOf world req]) (posts d).
Proof.
  destruct (IndexJs_subscribe_outcome env world req d)
    as [Hf|s Hf _ _ _ _|r s Hf _ [-> | ->] _ _|r rest s Hf _ Habs Hdb _ _];
    cbn [fst snd]; intros Hst; try discriminate Hst.
  now repeat split.
Qed.

Lemma Part000_already_inv {E : Engine} (env : Env) (world : World) (req : Request) (d : Db) :
  db_error world 0 = None -> In (Part000.emailOf req) (emails d) ->
  (fst (run (Part000.post_subscribe env world req) d) = Ok Part000.alreadySubscribed <->
   Part000.invalidFormat (Part000.emailOf req) = false).
Proof.
  intros H0 Hin.
  destruct (Part000_subscribe_outcome env world req d)
    as [Hf|s Hf _ _ _ _|r s Hf Hfail _ _ _|r rest s Hf _ _ Habs _ _ _];
    cbn [fst snd].
  - split; [discriminate | congruence].
  - now split.
  - destruct Hfail as [Hfail|[Habs _]]; [congruence | now elim Habs].
  - now elim Habs.
Qed.

(** X12. The check follows the other calls of [src/unnamed/part_000].
    After a subscribe call answered "Subscribed successfully", the check
    of the same email finds the record that call stored; after an
    unsubscribe call of that email it finds none, and the store is the
    one there was before the subscription.  On any store the check says
    [subscribed: true] exactly when the email is stored and a subscribe
    call is refused as already subscribed. *)
Theorem check_follows_subscription {E : Engine} (env : Env) (world w1 w2 w3 : World) (req : Request)
    (d : Db) :
  let key := normEmail (or_else (body req "email") (VStr "")) in
  let subscribe := run (Part000.post_subscribe env world req) d in
  let d1 := db (snd subscribe) in
  let unsubscribe := run (Part000.post_unsubscribe w2 req) d1 in
  let d2 := db (snd unsubscribe) in
  db_error w1 0 = None -> db_error w2 0 = None -> db_error w3 0 = None ->
  (fst subscribe = Ok Part000.subscribed ->
   fst (run (Part000.post_check_subscription w1 req) d1) =
     Ok (Part000.isSubscribed (mkSubscriber key (or_else (body req "name") (VStr ""))
                                 (clock world 0))) /\
   fst unsubscribe = Ok Part000.unsubscribed /\
   d2 = d /\
   fst (run (Part000.post_check_subscription w3 req) d2) = Ok Part000.isNotSubscribed) /\
  ((exists s, fst (run (Part000.post_check_subscription w1 req) d) =
              Ok (Part000.isSubscribed s)) <->
   fst (run (Part000.post_subscribe env w1 req) d) = Ok Part000.alreadySubscribed /\
   In key (emails d)).
Proof.
  intros key subscribe d1 unsubscribe d2 H1 H2 H3. split.
  - intros Hok. subst d2 unsubscribe d1 subscribe.
    apply Part000_subscribed_inv in Hok as (Hfmt & Habs & Hdb).
    change (Part000.emailOf req) with key in *.
    rewrite Hdb. rewrite !Part000_check_run, Part000_unsubscribe_run.
    change (Part000.emailOf req) with key. fold key. rewrite Hfmt, H1, H2.
    cbn [subscribers posts].
    rewrite (find_app_absent key (subscribers d) (Part000.subscriberOf world req) Habs eq_refl).
    assert (Hex : existsb (fun x => email x =? key)
                    (subscribers d ++ [Part000.subscriberOf world req]) = true).
    { apply existsb_email. rewrite map_app. apply in_or_app. right. now left. }
    rewrite Hex. cbn [fst snd db].
    rewrite (removeFirst_app_absent key (subscribers d) (Part000.subscriberOf world req)
               Habs eq_refl).
    rewrite H3. cbn [subscribers].
    rewrite (find_email_absent _ _ Habs).
    destruct d as [subs ps]. now repeat split.
  - rewrite Part000_check_run. fold key. split.
    + intros (s0 & Hs0).
      destruct (Part000.invalidFormat key) eqn:Hfmt; [discriminate Hs0|].
      rewrite H1 in Hs0.
      destruct (find _ _) as [x|] eqn:Hfind; [|discriminate Hs0].
      apply find_some in Hfind as [Hin Heq%String.eqb_eq].
      assert (Hkey : In key (emails d)) by (apply in_map_iff; now exists x).
      split; [|exact Hkey]. now apply Part000_already_inv.
    + intros [Hsub Hkey].
      apply (Part000_already_inv env w1 req d H1 Hkey) in Hsub.
      change (Part000.emailOf req) with key in Hsub. rewrite Hsub, H1.
      destruct (find_email_some _ _ Hkey) as (x & ->). now exists x.
Qed.

(** X12 at three subscribers: Carol subscribes (no mail gets through),
    is found by the check, unsubscribes, and is found no more; the store
    is the one of the start. *)
Lemma carol_subscribes_checks_and_leaves :
  let E := asciiEngine in
  let req := request VUndefined [("email", VStr "Carol@Example.com")] in
  let subscribe := run (Part000.post_subscribe exampleEnv deliverNone req) threeSubscribers in
  let d1 := db (snd subscribe) in
  let unsubscribe := run (Part000.post_unsubscribe deliverAll req) d1 in
  let d2 := db (snd unsubscribe) in
  db_error deliverAll 0 = None /\
  fst subscribe = Ok Part000.subscribed /\
  fst (run (Part000.post_check_subscription deliverAll req) d1) =
    Ok (Part000.isSubscribed (mkSubscriber "carol@example.com" (VStr "") 0)) /\
  fst unsubscribe = Ok Part000.unsubscribed /\
  d2 = threeSubscribers /\
  fst (run (Part000.post_check_subscription deliverAll req) d2) = Ok Part000.isNotSubscribed.
Proof.
  intros E. cbv zeta.
  assert (Hsub : fst (run (Part000.post_subscribe exampleEnv deliverNone
                             (request VUndefined [("email", VStr "Carol@Example.com")]))
                        threeSubscribers) = Ok Part000.subscribed)
    by (vm_compute; reflexivity).
  split; [reflexivity|]. split; [exact Hsub|].
  destruct (check_follows_subscription (E := asciiEngine) exampleEnv deliverNone deliverAll deliverAll deliverAll
              (request VUndefined [("email", VStr "Carol@Example.com")]) threeSubscribers
              eq_refl eq_refl eq_refl) as [H _].
  exact (H Hsub).
Defined.

(** X13. Subscribing and unsubscribing undo each other.  After a
    subscribe call answered "Subscribed successfully", an unsubscribe
    call of the same email gives back the store there was before.  And
    on a store without duplicates, after an unsubscribe call a subscribe
    call of the same (well-formed) email is not refused: it answers
    "Subscribed successfully" and the email is stored once. *)
Theorem subscribe_and_unsubscribe_undo_each_other {E : Engine} (env : Env) (w1 w2 : World)
    (req : Request) (d : Db) :
  let key := normEmail (or_else (body req "email") (VStr "")) in
  let afterI := db (snd (run (IndexJs.post_subscribe env w1 req) d)) in
  let afterP := db (snd (run (Part000.post_subscribe env w1 req) d)) in
  let leftI := db (snd (run (IndexJs.post_unsubscribe w2 req) d)) in
  let leftP := db (snd (run (Part000.post_unsubscribe w2 req) d)) in
  db_error w1 0 = None -> db_error w1 1 = None -> db_error w1 2 = None ->
  db_error w2 0 = None ->
  (fst (run (IndexJs.post_subscribe env w1 req) d) = Ok IndexJs.subscribed ->
   db (snd (run (IndexJs.post_unsubscribe w2 req) afterI)) = d) /\
  (fst (run (Part000.post_subscribe env w1 req) d) = Ok Part000.subscribed ->
   db (snd (run (Part000.post_unsubscribe w2 req) afterP)) = d) /\
  (NoDup (emails d) -> includes key "@" = true ->
   fst (run (IndexJs.post_subscribe env w1 req) leftI) = Ok IndexJs.subscribed /\
   count_occ string_dec
     (emails (db (snd (run (IndexJs.post_subscribe env w1 req) leftI)))) key = 1) /\
  (NoDup (emails d) -> Part000.invalidFormat key = false ->
   fst (run (Part000.post_subscribe env w1 req) leftP) = Ok Part000.subscribed /\
   count_occ string_dec
     (emails (db (snd (run (Part000.post_subscribe env w1 req) leftP)))) key = 1).
Proof.
  intros key afterI afterP leftI leftP H0 H1 H2 Hw2.
  assert (Hcount : forall l : list string,
             ~ In key l -> count_occ string_dec (l ++ [key]) key = 1).
  { intros l Habs. rewrite count_occ_app.
    rewrite (proj1 (count_occ_not_In string_dec l key) Habs).
    simpl. now destruct (string_dec key key). }
  split; [|split; [|split]].
  - intros Hok. subst afterI.
    apply IndexJs_subscribed_inv in Hok as (Hfmt & Habs & Hdb).
    rewrite Hdb, IndexJs_unsubscribe_run, Hw2. cbn [subscribers posts].
    assert (Hex : existsb (fun x => email x =? IndexJs.emailOf req)
                    (subscribers d ++ [IndexJs.subscriberOf w1 req]) = true).
    { apply existsb_email. rewrite map_app. apply in_or_app. right. now left. }
    rewrite Hex. cbn [snd db].
    rewrite (removeFirst_app_absent (IndexJs.emailOf req) (subscribers d)
               (IndexJs.subscriberOf w1 req) Habs eq_refl).
    now destruct d.
  - intros Hok. subst afterP.
    apply Part000_subscribed_inv in Hok as (Hfmt & Habs & Hdb).
    rewrite Hdb, Part000_unsubscribe_run, Hw2. cbn [subscribers posts].
    assert (Hex : existsb (fun x => email x =? Part000.emailOf req)
                    (subscribers d ++ [Part000.subscriberOf w1 req]) = true).
    { apply existsb_email. rewrite map_app. apply in_or_app. right. now left. }
    rewrite Hex. cbn [snd db].
    rewrite (removeFirst_app_absent (Part000.emailOf req) (subscribers d)
               (Part000.subscriberOf w1 req) Habs eq_refl).
    now destruct d.
  - intros Hnd Hfmt.
    pose proof (IndexJs_unsubscribe_gone w2 req d Hnd Hw2) as Hgone.
    fold leftI in Hgone. change (IndexJs.emailOf req) with key in Hgone.
    rewrite (IndexJs_subscribe_new env w1 req leftI Hfmt Hgone H0), H1.
    cbn [fst snd db]. split; [reflexivity|].
    unfold emails at 1. cbn [subscribers]. rewrite map_app. now apply Hcount.
  - intros Hnd Hfmt.
    pose proof (Part000_unsubscribe_gone w2 req d Hnd Hw2) as Hgone.
    fold leftP in Hgone. change (Part000.emailOf req) with key in Hgone.
    rewrite (Part000_subscribe_new env w1 req leftP Hfmt Hgone H0 H1), H2.
    cbn [fst snd db]. split; [reflexivity|].
    unfold emails at 1. cbn [subscribers]. rewrite map_app. now apply Hcount.
Qed.

(** X13 at three subscribers: Bob unsubscribes and subscribes again, in
    each file; he is stored once. *)
Lemma bob_leaves_and_comes_back :
  let E := asciiEngine in
  let req := request VUndefined [("email", VStr "b@x.com")] in
  let leftI := db (snd (run (IndexJs.post_unsubscribe deliverAll req) threeSubscribers)) in
  let leftP := db (snd (run (Part000.post_unsubscribe deliverAll req) threeSubscribers)) in
  let backI := run (IndexJs.post_subscribe exampleEnv deliverAll req) leftI in
  let backP := run (Part000.post_subscribe exampleEnv deliverAll req) leftP in
  (db_error deliverAll 0 = None /\ NoDup (emails threeSubscribers)) /\
  (emails leftI = ["a@x.com"; "c@x.com"] /\ emails leftP = ["a@x.com"; "c@x.com"]) /\
  (fst backI = Ok IndexJs.subscribed /\
   count_occ string_dec (emails (db (snd backI))) "b@x.com" = 1) /\
  (fst backP = Ok Part000.subscribed /\
   count_occ string_dec (emails (db (snd backP))) "b@x.com" = 1) /\
  db (snd (run (Part000.post_unsubscribe deliverAll req) (db (snd backP)))) = leftP.
Proof.
  intros E. cbv zeta.
  assert (Hnd : NoDup (emails threeSubscribers)).
  { unfold emails, threeSubscribers. cbn [map subscribers email].
    repeat constructor; cbn [In]; intuition discriminate. }
  split; [split; [reflexivity | exact Hnd]|].
  split; [split; vm_compute; reflexivity|].
  destruct (subscribe_and_unsubscribe_undo_each_other (E := asciiEngine) exampleEnv deliverAll deliverAll
              (request VUndefined [("email", VStr "b@x.com")]) threeSubscribers
              eq_refl eq_refl eq_refl eq_refl) as (_ & _ & HI & HP).
  split; [exact (HI Hnd eq_refl)|].
  split; [exact (HP Hnd eq_refl)|].
  vm_compute. reflexivity.
Defined.

(* ================================================================== *)
(** * More on the publish handler *)

(** X14. A store failure during publish.  When the request is
    authorized and complete and the store fails to list the subscribers
    or to save the post, the answer is 500 "Internal server error", no
    post is stored and no mail is sent.  [src/unnamed/part_000] hands the
    message of the error to the caller, [src/index.js] does not. *)
Theorem publish_store_failure (env : Env) (world : World) (req : Request) (d : Db)
    (e : Error) :
  let rI := run (IndexJs.post_publish env world req) d in
  let rP := run (Part000.post_publish env world req) d in
  ToBoolean (body req "title") = true -> ToBoolean (body req "postUrl") = true ->
  db_error world 0 = Some e \/ (db_error world 0 = None /\ db_error world 1 = Some e) ->
  (x_publish_secret req = VStr (PUBLISH_SECRET env) ->
   fst rI = Ok (res_json 500 [("success", JBool false);
                              ("message", JStr "Internal server error")]) /\
   field "error" (res_json 500 [("success", JBool false);
                                ("message", JStr "Internal server error")]) = None /\
   db (snd rI) = d /\ trace (snd rI) = []) /\
  (or_else (x_publish_secret req) (body req "secret") = VStr (PUBLISH_SECRET env) ->
   exists response,
     fst rP = Ok response /\ status response = 500 /\
     field "message" response = Some (JStr "Internal server error") /\
     field "error" response = Some (JStr (message e)) /\
     db (snd rP) = d /\ trace (snd rP) = []).
Proof.
  intros rI rP Htitle Hurl Hfail. subst rI rP. split.
  - intros Hsecret%isString_true.
    unfold run, initial, IndexJs.post_publish.
    rewrite Hsecret, Htitle, Hurl. cbn [negb orb].
    unfold Post_create. run_handler.
    destruct Hfail as [H0|[H0 H1]]; rewrite H0; run_handler;
      [|rewrite H1; run_handler]; now repeat split.
  - intros Hsecret%isString_true.
    unfold run, initial, Part000.post_publish. cbv zeta.
    rewrite Hsecret, Htitle, Hurl. cbn [negb orb].
    unfold Post_create. run_handler.
    destruct Hfail as [H0|[H0 H1]]; rewrite H0; run_handler;
      [|rewrite H1; run_handler]; eexists; now repeat split.
Qed.

(** X14 with a store that lists the subscribers and then fails to save
    the post: 500 in both files, the message of the error in the answer
    of [src/unnamed/part_000] only. *)
Lemma post_cannot_be_saved :
  let req := request (VStr "s3cret") (hello "Hello" "1") in
  let world := storeFailsAt 1 connectionLost in
  let rI := run (IndexJs.post_publish exampleEnv world req) threeSubscribers in
  let rP := run (Part000.post_publish exampleEnv world req) threeSubscribers in
  (ToBoolean (body req "title") = true /\ ToBoolean (body req "postUrl") = true /\
   db_error world 0 = None /\ db_error world 1 = Some connectionLost) /\
  (fst rI = Ok (res_json 500 [("success", JBool false);
                              ("message", JStr "Internal server error")]) /\
   field "error" (res_json 500 [("success", JBool false);
                                ("message", JStr "Internal server error")]) = None /\
   db (snd rI) = threeSubscribers /\ trace (snd rI) = []) /\
  (exists response,
     fst rP = Ok response /\ status response = 500 /\
     field "message" response = Some (JStr "Internal server error") /\
     field "error" response = Some (JStr "connection lost") /\
     db (snd rP) = threeSubscribers /\ trace (snd rP) = []).
Proof.
  cbv zeta. split.
  - split; [reflexivity|]. split; [reflexivity|]. split; reflexivity.
  - destruct (publish_store_failure exampleEnv (storeFailsAt 1 connectionLost)
                (request (VStr "s3cret") (hello "Hello" "1")) threeSubscribers
                connectionLost eq_refl eq_refl (or_intror (conj eq_refl eq_refl)))
      as [HI HP].
    exact (conj (HI eq_refl) (HP eq_refl)).
Defined.

Lemma In_failedRecipients_nonempty (attempts : list (Mail * bool)) (e : string) :
  In e (failedRecipients attempts) -> (0 <? List.length (failedRecipients attempts))%nat = true.
Proof.
  destruct (failedRecipients attempts); [intros [] | reflexivity].
Qed.

(** X15. The report to the administrator.  A publish call that ran to
    its end hands the transport, after the notifications, one mail to
    the administrator whose subject names the title and whose text shows
    the number of delivered notifications and the number of subscribers;
    in [src/unnamed/part_000] it also shows the email of every recipient
    whose notification failed. *)
Theorem administrator_report (env : Env) (world : World) (req : Request) (d : Db) :
  let rI := run (IndexJs.post_publish env world req) d in
  let rP := run (Part000.post_publish env world req) d in
  let report (r : Result Response * St) (attempts : list (Mail * bool)) (admin : Mail) :=
    to admin = ADMIN_EMAIL env /\
    from admin = FROM_EMAIL env /\
    subject admin = VStr (cat ["Post Published: "; ToString (body req "title")]) /\
    includes (html admin) (showNat (delivered attempts)) = true /\
    includes (html admin) (showNat (List.length (subscribers d))) = true /\
    includes (html admin) (ToString (body req "postUrl")) = true in
  (statusOf (fst rI) = Some 200 ->
   exists attempts admin ok,
     mailAttempts (trace (snd rI)) = attempts ++ [(admin, ok)] /\
     report rI attempts admin) /\
  (statusOf (fst rP) = Some 200 ->
   exists attempts admin ok,
     mailAttempts (trace (snd rP)) = attempts ++ [(admin, ok)] /\
     report rP attempts admin /\
     includes (html admin) (showNat (List.length (failedRecipients attempts))) = true /\
     forall e, In e (failedRecipients attempts) -> includes (html admin) e = true).
Proof.
  intros rI rP report. subst rI rP report. cbv beta. split.
  - destruct (IndexJs_publish_outcome env world req d)
      as [| |e s _ _ _ _ _|attempts now adminOk s _ _ _ _ _ _ Ht];
      cbn [fst snd statusOf status res_json]; try discriminate.
    intros _. rewrite Ht, mailAttempts_published.
    eexists attempts, _, adminOk. split; [reflexivity|].
    unfold IndexJs.adminMail. cbn [to from subject html].
    split; [reflexivity|]. split; [reflexivity|]. split; [reflexivity|].
    unfold IndexJs.adminHtml.
    split; [apply includes_cat; find_piece|].
    split; apply includes_cat; find_piece.
  - destruct (Part000_publish_outcome env world req d)
      as [| |e s _ _ _ _ _|attempts now adminOk s _ _ _ _ _ _ Ht];
      cbn [fst snd statusOf status res_json]; try discriminate.
    intros _. rewrite Ht, mailAttempts_published.
    eexists attempts, _, adminOk. split; [reflexivity|].
    unfold Part000.adminMail. cbn [to from subject html].
    split.
    { split; [reflexivity|]. split; [reflexivity|]. split; [reflexivity|].
      unfold Part000.adminHtml.
      split; [apply includes_cat; find_piece|].
      split; apply includes_cat; find_piece. }
    unfold Part000.adminHtml.
    split; [apply includes_cat; find_piece|].
    intros e He. rewrite (In_failedRecipients_nonempty _ _ He).
    apply includes_trans
      with (mid := cat ["<p><strong>Failed emails:</strong> ";
                        join ", " (failedRecipients attempts); "</p>"]);
      [apply includes_cat; find_piece|].
    apply includes_trans with (mid := join ", " (failedRecipients attempts));
      [apply includes_cat; right; left; reflexivity|].
    now apply includes_join.
Qed.

(** X16. Every notification of the fan-out is addressed to one
    subscriber of the snapshot: it is sent to that subscriber's email
    from the configured sender, its subject is the title of the post,
    its text holds the link to the post and the unsubscribe link of that
    very subscriber, and it carries the uploaded file under its original
    name when the request has one. *)
Theorem notifications_are_personal (env : Env) (world : World) (req : Request) (d : Db) :
  let rI := run (IndexJs.post_publish env world req) d in
  let rP := run (Part000.post_publish env world req) d in
  let personal (m : Mail) (subscriber : Subscriber) :=
    to m = email subscriber /\
    from m = fromAddress env /\
    subject m = body req "title" /\
    includes (html m) (ToString (body req "postUrl")) = true /\
    includes (html m) (unsubscribeLinkOf req subscriber) = true in
  (forall m ok, In (m, ok) (removelast (mailAttempts (trace (snd rI)))) ->
   exists subscriber,
     In subscriber (subscribers d) /\ personal m subscriber /\
     attachments m =
       match file req with
       | Some f => Some [mkAttachment (originalname f) (path f)]
       | None => None
       end) /\
  (forall m ok, In (m, ok) (removelast (mailAttempts (trace (snd rP)))) ->
   exists subscriber,
     In subscriber (subscribers d) /\ personal m subscriber /\
     attachments m =
       Some (match file req with
             | Some f => [mkAttachment (originalname f) (path f)]
             | None => []
             end)).
Proof.
  intros rI rP personal. subst rI rP personal. cbv beta. split.
  - intros m ok Hin.
    destruct (IndexJs_fanOut_mails env world req d m ok Hin) as (subscriber & now & Hs & ->).
    exists subscriber. split; [exact Hs|].
    unfold IndexJs.notification, IndexJs.mailOptions. cbn [to from subject html attachments].
    split; [|reflexivity].
    split; [reflexivity|]. split; [reflexivity|]. split; [reflexivity|].
    unfold publishHtml. split; apply includes_cat; find_piece.
  - intros m ok Hin.
    destruct (Part000_fanOut_mails env world req d m ok Hin) as (subscriber & now & Hs & ->).
    exists subscriber. split; [exact Hs|].
    unfold Part000.notification, Part000.mailOptions. cbn [to from subject html attachments].
    split; [|reflexivity].
    split; [reflexivity|]. split; [reflexivity|]. split; [reflexivity|].
    unfold publishHtml. split; apply includes_cat; find_piece.
Qed.

(** X15 at three subscribers, the transport refusing [b@x.com]: the
    report of [src/unnamed/part_000] names [b@x.com]. *)
Lemma report_names_the_refused_recipient :
  let req := request (VStr "s3cret") (hello "Hello" "1") in
  let rI := run (IndexJs.post_publish exampleEnv (refuse "b@x.com") req) threeSubscribers in
  let rP := run (Part000.post_publish exampleEnv (refuse "b@x.com") req) threeSubscribers in
  (statusOf (fst rI) = Some 200 /\ statusOf (fst rP) = Some 200) /\
  (exists attempts admin ok,
     mailAttempts (trace (snd rI)) = attempts ++ [(admin, ok)] /\
     to admin = "admin@example.com" /\
     includes (html admin) (showNat (delivered attempts)) = true) /\
  (exists attempts admin ok,
     mailAttempts (trace (snd rP)) = attempts ++ [(admin, ok)] /\
     to admin = "admin@example.com" /\
     failedRecipients attempts = ["b@x.com"] /\
     includes (html admin) "b@x.com" = true).
Proof.
  cbv zeta.
  assert (HokI : statusOf (fst (run (IndexJs.post_publish exampleEnv (refuse "b@x.com")
                                       (request (VStr "s3cret") (hello "Hello" "1")))
                                  threeSubscribers)) = Some 200)
    by (vm_compute; reflexivity).
  assert (HokP : statusOf (fst (run (Part000.post_publish exampleEnv (refuse "b@x.com")
                                       (request (VStr "s3cret") (hello "Hello" "1")))
                                  threeSubscribers)) = Some 200)
    by (vm_compute; reflexivity).
  split; [exact (conj HokI HokP)|].
  destruct (administrator_report exampleEnv (refuse "b@x.com")
              (request (VStr "s3cret") (hello "Hello" "1")) threeSubscribers) as [HI HP].
  split.
  - destruct (HI HokI) as (attempts & admin & ok & Hmails & Hto & _ & _ & Hsent & _).
    exists attempts, admin, ok. exact (conj Hmails (conj Hto Hsent)).
  - destruct (HP HokP) as (attempts & admin & ok & Hmails & (Hto & _) & _ & Hfailed).
    exists attempts, admin, ok.
    assert (Hb : failedRecipients attempts = ["b@x.com"]).
    { apply (f_equal (@removelast _)) in Hmails. rewrite removelast_last in Hmails.
      rewrite <- Hmails. vm_compute. reflexivity. }
    split; [exact Hmails|]. split; [exact Hto|]. split; [exact Hb|].
    apply Hfailed. rewrite Hb. now left.
Defined.

(** X16 at three subscribers: three notifications, each with the
    unsubscribe link of its recipient. *)
Lemma each_of_three_gets_their_own_link :
  let req := request (VStr "s3cret") (hello "Hello" "1") in
  let r := run (Part000.post_publish exampleEnv deliverAll req) threeSubscribers in
  let notifications := removelast (mailAttempts (trace (snd r))) in
  map (fun a => to (fst a)) notifications = ["a@x.com"; "b@x.com"; "c@x.com"] /\
  map (unsubscribeLinkOf req) (subscribers threeSubscribers) =
    ["https://news.example.com/unsubscribe?email=a%40x.com";
     "https://news.example.com/unsubscribe?email=b%40x.com";
     "https://news.example.com/unsubscribe?email=c%40x.com"] /\
  Forall
    (fun a =>
       exists subscriber,
         In subscriber (subscribers threeSubscribers) /\
         to (fst a) = email subscriber /\
         subject (fst a) = VStr "Hello" /\
         includes (html (fst a)) (unsubscribeLinkOf req subscriber) = true /\
         attachments (fst a) = Some [])
    notifications.
Proof.
  cbv zeta. split; [vm_compute; reflexivity|]. split; [vm_compute; reflexivity|].
  apply Forall_forall. intros [m ok] Hin.
  destruct (proj2 (notifications_are_personal exampleEnv deliverAll
                     (request (VStr "s3cret") (hello "Hello" "1")) threeSubscribers)
              m ok Hin)
    as (subscriber & Hs & (Hto & _ & Hsubject & _ & Hlink) & Hatt).
  exists subscriber. cbn [fst].
  exact (conj Hs (conj Hto (conj Hsubject (conj Hlink Hatt)))).
Defined.

(* ================================================================== *)
(** * What the calls leave for the listings *)

Lemma Part000_published_db (env : Env) (world : World) (req : Request) (d : Db) :
  statusOf (fst (run (Part000.post_publish env world req) d)) = Some 200 ->
  db (snd (run (Part000.post_publish env world req) d)) =
    mkDb (subscribers d) (posts d ++ [Part000.postOf world req d]).
Proof.
  destruct (Part000_publish_outcome env world req d)
    as [| |e s _ _ _ _ _|attempts now adminOk s _ _ _ _ Hdb _ _];
    cbn [fst snd statusOf status res_json]; try discriminate.
  intros _. exact Hdb.
Qed.

Lemma IndexJs_published_db (env : Env) (world : World) (req : Request) (d : Db) :
  statusOf (fst (run (IndexJs.post_publish env world req) d)) = Some 200 ->
  db (snd (run (IndexJs.post_publish env world req) d)) =
    mkDb (subscribers d) (posts d ++ [IndexJs.postOf world req d]).
Proof.
  destruct (IndexJs_publish_outcome env world req d)
    as [| |e s _ _ _ _ _|attempts now adminOk s _ _ _ _ Hdb _ _];
    cbn [fst snd statusOf status res_json]; try discriminate.
  intros _. exact Hdb.
Qed.

Lemma get_posts_run (world : World) (d : Db) :
  db_error world 0 = None ->
  fst (run (get_posts world) d) =
    Ok (res_list 200 (map postJson (sortDesc publishedAt (posts d)))).
Proof.
  intros H0. unfold run, initial, get_posts, Post_find_sorted. run_handler.
  now rewrite H0.
Qed.

Lemma get_subs_run (world : World) (d : Db) :
  db_error world 0 = None ->
  fst (run (get_subs world) d) =
    Ok (res_list 200 (map subscriberJson (sortDesc createdAt (subscribers d)))).
Proof.
  intros H0. unfold run, initial, get_subs, Subscriber_find_sorted. run_handler.
  now rewrite H0.
Qed.

(** X17. What is written is what is listed.  After a publish call
    answered 200, [GET /posts] lists one post more than before, and the
    post just stored comes first when its date is later than the dates
    of the posts there were.  After a subscribe call answered
    "Subscribed successfully", [GET /_subs] lists the new subscriber,
    first under the same proviso. *)
Theorem written_documents_are_listed_first {E : Engine} (env : Env) (world reader : World)
    (req : Request) (d : Db) :
  let published := run (Part000.post_publish env world req) d in
  let publishedI := run (IndexJs.post_publish env world req) d in
  let subscribed := run (Part000.post_subscribe env world req) d in
  let subscribedI := run (IndexJs.post_subscribe env world req) d in
  let key := normEmail (or_else (body req "email") (VStr "")) in
  let newPost (post : Post) (r : Result Response * St) :=
    exists rest,
      fst (run (get_posts reader) (db (snd r))) =
        Ok (res_list 200 (postJson post :: rest)) /\
      List.length rest = List.length (posts d) in
  let newSubscriber (r : Result Response * St) :=
    exists rest,
      fst (run (get_subs reader) (db (snd r))) =
        Ok (res_list 200
              (subscriberJson
                 (mkSubscriber key (or_else (body req "name") (VStr "")) (clock world 0))
               :: rest)) /\
      List.length rest = List.length (subscribers d) in
  db_error reader 0 = None ->
  ((forall p, In p (posts d) -> publishedAt p < clock world 0) ->
   (statusOf (fst published) = Some 200 -> newPost (Part000.postOf world req d) published) /\
   (statusOf (fst publishedI) = Some 200 ->
    newPost (IndexJs.postOf world req d) publishedI)) /\
  ((forall s, In s (subscribers d) -> createdAt s < clock world 0) ->
   (fst subscribed = Ok Part000.subscribed -> newSubscriber subscribed) /\
   (fst subscribedI = Ok IndexJs.subscribed -> newSubscriber subscribedI)).
Proof.
  intros published publishedI subscribed subscribedI key newPost newSubscriber Hreader.
  subst published publishedI subscribed subscribedI newPost newSubscriber. cbv beta.
  split.
  - intros Hlater. split.
    + intros Hok. rewrite (Part000_published_db _ _ _ _ Hok), (get_posts_run _ _ Hreader).
      cbn [posts].
      rewrite (sortDesc_newest publishedAt (Part000.postOf world req d) _ Hlater). cbn [map].
      eexists. split; [reflexivity|].
      rewrite length_map. apply Permutation_length, sortDesc_perm.
    + intros Hok. rewrite (IndexJs_published_db _ _ _ _ Hok), (get_posts_run _ _ Hreader).
      cbn [posts].
      rewrite (sortDesc_newest publishedAt (IndexJs.postOf world req d) _ Hlater). cbn [map].
      eexists. split; [reflexivity|].
      rewrite length_map. apply Permutation_length, sortDesc_perm.
  - intros Hlater. split.
    + intros Hok. apply Part000_subscribed_inv in Hok as (_ & _ & Hdb).
      rewrite Hdb, (get_subs_run _ _ Hreader).
      cbn [subscribers].
      rewrite (sortDesc_newest createdAt (Part000.subscriberOf world req) _ Hlater).
      cbn [map].
      eexists. split; [reflexivity|].
      rewrite length_map. apply Permutation_length, sortDesc_perm.
    + intros Hok. apply IndexJs_subscribed_inv in Hok as (_ & _ & Hdb).
      rewrite Hdb, (get_subs_run _ _ Hreader).
      cbn [subscribers].
      rewrite (sortDesc_newest createdAt (IndexJs.subscriberOf world req) _ Hlater).
      cbn [map].
      eexists. split; [reflexivity|].
      rewrite length_map. apply Permutation_length, sortDesc_perm.
Qed.

(** X17 at the archive, three subscribers and two posts of the dates 4
    and 7, the clock standing at 10: the post "Hello" heads the listing
    of the three posts, and the new subscriber heads the listing of the
    four subscribers. *)
Lemma hello_heads_the_listing :
  let E := asciiEngine in
  let req := request (VStr "s3cret") (("email", VStr "dan@example.com") :: hello "Hello" "1") in
  let world := clockFrom 10 in
  let published := run (Part000.post_publish exampleEnv world req) archive in
  let subscribed := run (Part000.post_subscribe exampleEnv world req) archive in
  (db_error deliverAll 0 = None /\
   map publishedAt (posts archive) = [4; 7] /\
   map createdAt (subscribers archive) = [1; 2; 3] /\
   statusOf (fst published) = Some 200 /\ fst subscribed = Ok Part000.subscribed) /\
  (exists rest,
     fst (run (get_posts deliverAll) (db (snd published))) =
       Ok (res_list 200
             (postJson (mkPost 2 (VStr "Hello") (VStr "EXC") (VStr "FULL") (VStr "https://x/1")
                          VNull VNull true 10) :: rest)) /\
     List.length rest = 2) /\
  (exists rest,
     fst (run (get_subs deliverAll) (db (snd subscribed))) =
       Ok (res_list 200
             (subscriberJson (mkSubscriber "dan@example.com" (VStr "") 10) :: rest)) /\
     List.length rest = 3).
Proof.
  intros E. cbv zeta.
  assert (Hpub : statusOf (fst (run (Part000.post_publish exampleEnv (clockFrom 10)
                                       (request (VStr "s3cret")
                                          (("email", VStr "dan@example.com")
                                           :: hello "Hello" "1")))
                                  archive)) = Some 200)
    by (vm_compute; reflexivity).
  assert (Hsub : fst (run (Part000.post_subscribe exampleEnv (clockFrom 10)
                             (request (VStr "s3cret")
                                (("email", VStr "dan@example.com") :: hello "Hello" "1")))
                        archive) = Ok Part000.subscribed)
    by (vm_compute; reflexivity).
  split.
  { split; [reflexivity|]. split; [reflexivity|]. split; [reflexivity|].
    split; [exact Hpub | exact Hsub]. }
  destruct (written_documents_are_listed_first (E := asciiEngine) exampleEnv (clockFrom 10)
              deliverAll
              (request (VStr "s3cret")
                 (("email", VStr "dan@example.com") :: hello "Hello" "1"))
              archive eq_refl) as [HP HS].
  split.
  - refine (proj1 (HP _) Hpub). cbn [archive posts In clockFrom clock].
    intros p [<-|[<-|[]]]; cbn [publishedAt]; lia.
  - refine (proj1 (HS _) Hsub).
    cbn [archive threeSubscribers subscribers In clockFrom clock].
    intros s [<-|[<-|[<-|[]]]]; cbn [createdAt]; lia.
Defined.

(* ================================================================== *)
(** * Invariants of the stores the server reaches *)

Lemma Part000_posts_step {E : Engine} (env : Env) (world : World) (req : Request) (c : Part000.Call)
    (d : Db) :
  posts (db (snd (run (Part000.handler env world req c) d))) = posts d \/
  c = Part000.Publish /\
  posts (db (snd (run (Part000.handler env world req c) d))) =
    posts d ++ [Part000.postOf world req d].
Proof.
  destruct c; cbn [Part000.handler].
  - left.
    destruct (Part000_subscribe_outcome env world req d)
      as [Hf|s _ _ _ Hdb _|r s _ _ _ Hdb _|r rest s _ _ _ _ Hdb _ _];
      cbn [snd initial db]; try reflexivity; now rewrite Hdb.
  - rewrite Part000_publish_route. cbn [snd prepend db].
    destruct (Part000_publish_outcome env world req d)
      as [| |e s _ _ _ Hdb _|attempts now adminOk s _ _ _ _ Hdb _ _];
      cbn [snd initial db]; try (left; reflexivity).
    + left. now rewrite Hdb.
    + right. split; [reflexivity|]. now rewrite Hdb.
  - left. rewrite Part000_unsubscribe_run.
    destruct (db_error world 0); [reflexivity|]. now destruct (existsb _ _).
  - left. destruct (Part000_unsubscribe_link_db env world req d) as [-> | ->]; reflexivity.
Qed.

Lemma IndexJs_posts_step {E : Engine} (env : Env) (world : World) (req : Request) (c : IndexJs.Call)
    (d : Db) :
  posts (db (snd (run (IndexJs.handler env world req c) d))) = posts d \/
  c = IndexJs.Publish /\
  posts (db (snd (run (IndexJs.handler env world req c) d))) =
    posts d ++ [IndexJs.postOf world req d].
Proof.
  destruct c; cbn [IndexJs.handler].
  - left.
    destruct (IndexJs_subscribe_outcome env world req d)
      as [Hf|s _ _ _ Hdb _|r s _ _ _ Hdb _|r rest s _ _ _ Hdb _ _];
      cbn [snd initial db]; try reflexivity; now rewrite Hdb.
  - rewrite IndexJs_publish_route. cbn [snd prepend db].
    destruct (IndexJs_publish_outcome env world req d)
      as [| |e s _ _ _ Hdb _|attempts now adminOk s _ _ _ _ Hdb _ _];
      cbn [snd initial db]; try (left; reflexivity).
    + left. now rewrite Hdb.
    + right. split; [reflexivity|]. now rewrite Hdb.
  - left. rewrite IndexJs_unsubscribe_run.
    destruct (db_error world 0); [reflexivity|]. now destruct (existsb _ _).
  - left. destruct (IndexJs_unsubscribe_link_db env world req d) as [-> | ->]; reflexivity.
Qed.

(** X18. Posts are only ever appended.  Whatever the request and the
    answers of the store and of the transport, a call leaves the stored
    posts as they were or, for a publish call only, appends one post to
    them; so after any sequence of calls the posts there were are still
    there, unchanged and in their order, before the new ones.  No
    handler edits or removes a post. *)
Theorem posts_are_append_only {E : Engine} (d : Db) :
  (forall env world req c,
     exists added,
       posts (db (snd (run (Part000.handler env world req c) d))) = posts d ++ added /\
       List.length added <= 1 /\ (c <> Part000.Publish -> added = [])) /\
  (forall env world req c,
     exists added,
       posts (db (snd (run (IndexJs.handler env world req c) d))) = posts d ++ added /\
       List.length added <= 1 /\ (c <> IndexJs.Publish -> added = [])) /\
  (forall calls : list (Env * World * Request * Part000.Call),
     exists added,
       posts (replay (map (fun call => let '(env, world, req, c) := call in
                                       Part000.handler env world req c) calls) d) =
       posts d ++ added) /\
  (forall calls : list (Env * World * Request * IndexJs.Call),
     exists added,
       posts (replay (map (fun call => let '(env, world, req, c) := call in
                                       IndexJs.handler env world req c) calls) d) =
       posts d ++ added).
Proof.
  split; [|split; [|split]].
  - intros env world req c.
    destruct (Part000_posts_step env world req c d) as [->|[-> ->]].
    + exists []. rewrite app_nil_r. split; [reflexivity|]. split; [simpl; lia | reflexivity].
    + eexists [_]. split; [reflexivity|]. split; [simpl; lia|]. intros H. now elim H.
  - intros env world req c.
    destruct (IndexJs_posts_step env world req c d) as [->|[-> ->]].
    + exists []. rewrite app_nil_r. split; [reflexivity|]. split; [simpl; lia | reflexivity].
    + eexists [_]. split; [reflexivity|]. split; [simpl; lia|]. intros H. now elim H.
  - intros calls. revert d. induction calls as [|[[[env world] req] c] calls IH]; intros d.
    + exists []. now rewrite app_nil_r.
    + cbn [map replay].
      destruct (IH (db (snd (run (Part000.handler env world req c) d)))) as (added & ->).
      destruct (Part000_posts_step env world req c d) as [->|[_ ->]].
      * now exists added.
      * eexists. now rewrite <- app_assoc.
  - intros calls. revert d. induction calls as [|[[[env world] req] c] calls IH]; intros d.
    + exists []. now rewrite app_nil_r.
    + cbn [map replay].
      destruct (IH (db (snd (run (IndexJs.handler env world req c) d)))) as (added & ->).
      destruct (IndexJs_posts_step env world req c d) as [->|[_ ->]].
      * now exists added.
      * eexists. now rewrite <- app_assoc.
Qed.

Lemma find_unique (s : Subscriber) (subs : list Subscriber) :
  NoDup (map email subs) -> In s subs ->
  find (fun x => email x =? email s) subs = Some s.
Proof.
  induction subs as [|x subs IH]; simpl; [tauto|].
  intros Hnd [->|Hin].
  - now rewrite String.eqb_refl.
  - inversion Hnd as [|? ? Hx Hrest]; subst.
    destruct (email x =? email s) eqn:Heq; [|auto].
    apply String.eqb_eq in Heq. elim Hx. rewrite Heq. now apply in_map.
Qed.

(** X19. The emails of the stores the server reaches are well formed:
    each has passed the format check of its file (an [@] in
    [src/index.js]; an [@], a dot and a [length] of five at least in
    [src/unnamed/part_000]).  So, by the laws of lower-casing, in
    [src/unnamed/part_000] the check of the email of a stored
    subscriber, spelled as it is stored, is never answered 400: when the
    store answers, it answers that very record. *)
Theorem stored_emails_are_well_formed {E : Engine} (d : Db) :
  (IndexJs.reachable d -> Forall (fun e => includes e "@" = true) (emails d)) /\
  (Part000.reachable d ->
   Forall (fun e => includes e "@" = true /\ includes e "." = true /\ 5 <= utf16Length e)
     (emails d)) /\
  (Lawful E -> Part000.reachable d ->
   forall (s : Subscriber) (world : World) (req : Request),
     In s (subscribers d) -> body req "email" = VStr (email s) ->
     db_error world 0 = None ->
     fst (run (Part000.post_check_subscription world req) d) = Ok (Part000.isSubscribed s)).
Proof.
  split; [|split].
  - intros Hr. now apply IndexJs_reachable_inv.
  - intros Hr. apply Part000_reachable_inv in Hr as (_ & Hfmt).
    eapply Forall_impl; [|exact Hfmt]. intros e. apply invalidFormat_spec.
  - intros HE Hr s world req Hin Hbody H0.
    pose proof (Part000_reachable_normalized d HE Hr) as Hnorm.
    apply Part000_reachable_inv in Hr as (Hnd & Hfmt).
    unfold normalized in Hnorm. rewrite Forall_forall in Hfmt, Hnorm.
    assert (Hs : In (email s) (emails d)) by now apply in_map.
    rewrite Part000_check_run. rewrite Hbody.
    assert (Hkey : normEmail (or_else (VStr (email s)) (VStr "")) = email s).
    { rewrite <- (Hnorm _ Hs) at 2. unfold or_else.
      destruct (ToBoolean (VStr (email s))) eqn:Hb; [reflexivity|].
      simpl in Hb. apply negb_false_iff, String.eqb_eq in Hb. now rewrite Hb. }
    rewrite Hkey, (Hfmt _ Hs), H0, (find_unique s _ Hnd Hin). reflexivity.
Qed.

(** X19 at the store after a first subscription. *)
Lemma the_first_subscriber_is_found :
  let E := asciiEngine in
  let s := mkSubscriber "a@b.com" (VStr "") 0 in
  (Lawful E /\ Part000.reachable subscribedOnce_Part000 /\
   subscribers subscribedOnce_Part000 = [s]) /\
  fst (run (Part000.post_check_subscription deliverAll
              (request VUndefined [("email", VStr "a@b.com")])) subscribedOnce_Part000) =
    Ok (Part000.isSubscribed s).
Proof.
  intros E. cbv zeta.
  assert (Hr : Part000.reachable subscribedOnce_Part000).
  { unfold subscribedOnce_Part000. apply Part000.reachable_call, Part000.reachable_empty. }
  split; [split; [exact asciiEngine_lawful | split; [exact Hr | vm_compute; reflexivity]]|].
  destruct (stored_emails_are_well_formed (E := asciiEngine) subscribedOnce_Part000)
    as (_ & _ & H).
  apply (H asciiEngine_lawful Hr); [vm_compute; now left | reflexivity | reflexivity].
Defined.

(* ================================================================== *)
(** * The key of a subscriber *)

(** A match that reaches into what follows [p] goes through all of
    [p]. *)
Lemma prefix_boundary (w p q : string) :
  prefix w (p ++ q) = true ->
  prefix w p = true \/ exists w2, w = (p ++ w2)%string /\ prefix w2 q = true.
Proof.
  revert p. induction w as [|a w IH]; intros p H; [left; now destruct p|].
  destruct p as [|b p]; [right; now exists (String a w)|].
  simpl in H. destruct (ascii_dec a b) as [->|]; [|discriminate].
  destruct (IH p H) as [Hp|(w2 & -> & Hq)].
  - left. simpl. now destruct (ascii_dec b b).
  - right. now exists w2.
Qed.

Lemma find_ext_in {A : Type} (f g : A -> bool) (l : list A) :
  (forall x, In x l -> f x = g x) -> find f l = find g l.
Proof.
  induction l as [|x l IH]; intros H; [reflexivity|].
  simpl. rewrite (H x (or_introl eq_refl)).
  destruct (g x); [reflexivity|]. apply IH. intros y Hy. apply H. now right.
Qed.

(** ** Dropping one white space *)

Lemma dropSpaces_skip (spaces : list string) (p rest : string) :
  dropSpaces spaces (String.length p) (p ++ rest) = dropSpaces spaces 0 rest.
Proof. induction p as [|a p IH]; [reflexivity | exact IH]. Qed.

Lemma dropSpaces_step (spaces : list string) (w rest : string) :
  w <> EmptyString -> spaceAt spaces (w ++ rest) = String.length w ->
  dropSpaces spaces 0 (w ++ rest) = dropSpaces spaces 0 rest.
Proof.
  destruct w as [|a w]; [now intros H|]. intros _ Hat.
  change (String a w ++ rest)%string with (String a (w ++ rest)) in *.
  cbn [dropSpaces]. rewrite Hat. cbn [String.length]. apply dropSpaces_skip.
Qed.

(** The encodings of the white space are prefix-free, and so are their
    reversals: where one of them stands, it is the one that is found. *)
Lemma spaceAt_whiteSpace (w rest : string) :
  In w whiteSpace -> spaceAt whiteSpace (w ++ rest) = String.length w.
Proof.
  unfold whiteSpace. cbn [In]. intros H.
  repeat (destruct H as [<-|H]; [now destruct rest|]). destruct H.
Qed.

Lemma spaceAt_reversed (w rest : string) :
  In w whiteSpace ->
  spaceAt (map reverse whiteSpace) (reverse w ++ rest) = String.length (reverse w).
Proof.
  unfold whiteSpace. cbn [In]. intros H.
  repeat (destruct H as [<-|H]; [now destruct rest|]). destruct H.
Qed.

Lemma trimStart_whiteSpace (w rest : string) :
  In w whiteSpace -> trimStart (w ++ rest) = trimStart rest.
Proof.
  intros Hw. apply dropSpaces_step; [now apply whiteSpace_nonempty|].
  now apply spaceAt_whiteSpace.
Qed.

Lemma trimEnd_whiteSpace (s w : string) :
  In w whiteSpace -> trimEnd (s ++ w) = trimEnd s.
Proof.
  intros Hw. unfold trimEnd. rewrite reverse_append. f_equal.
  apply dropSpaces_step; [|now apply spaceAt_reversed].
  apply reversed_nonempty. now apply in_map.
Qed.

(** ** Dropping a run of white space *)

Lemma trimStart_blanks (ws : list string) (s : string) :
  Forall (fun w => In w whiteSpace) ws -> trimStart (cat ws ++ s) = trimStart s.
Proof.
  induction 1 as [|w ws Hw _ IH]; [reflexivity|].
  change (cat (w :: ws)) with (w ++ cat ws)%string.
  now rewrite append_assoc3, (trimStart_whiteSpace _ _ Hw).
Qed.

Lemma trimEnd_blanks (ws : list string) (s : string) :
  Forall (fun w => In w whiteSpace) ws -> trimEnd (s ++ cat ws) = trimEnd s.
Proof.
  intros H. revert s. induction H as [|w ws Hw _ IH]; intros s.
  - change (cat []) with EmptyString. now rewrite append_empty.
  - change (cat (w :: ws)) with (w ++ cat ws)%string.
    now rewrite <- append_assoc3, IH, (trimEnd_whiteSpace _ _ Hw).
Qed.

(** The bytes of a white space after its first are continuation bytes,
    and its first byte is none. *)
Lemma whiteSpace_continuation (w : string) (c : ascii) :
  In w whiteSpace -> In c (tl (list_ascii_of_string w)) ->
  128 <= nat_of_ascii c <= 191.
Proof.
  assert (H : forallb (fun w => forallb (fun c => (128 <=? nat_of_ascii c)
                                                  && (nat_of_ascii c <=? 191))%nat
                                  (tl (list_ascii_of_string w)))
                whiteSpace = true) by (vm_compute; reflexivity).
  rewrite forallb_forall in H. intros Hw Hc. specialize (H w Hw).
  rewrite forallb_forall in H. specialize (H c Hc).
  apply andb_true_iff in H as [H1%Nat.leb_le H2%Nat.leb_le]. lia.
Qed.

Lemma whiteSpace_lead (w : string) (c : ascii) (rest : string) :
  In w whiteSpace -> w = String c rest -> nat_of_ascii c < 128 \/ 191 < nat_of_ascii c.
Proof.
  assert (H : forallb (fun w => match w with
                                | String c _ => (nat_of_ascii c <? 128) || (191 <? nat_of_ascii c)
                                | EmptyString => false
                                end)%nat
                whiteSpace = true) by (vm_compute; reflexivity).
  rewrite forallb_forall in H. intros Hw ->. specialize (H _ Hw). cbv beta iota in H.
  apply orb_true_iff in H as [H%Nat.ltb_lt|H%Nat.ltb_lt]; lia.
Qed.

Lemma blanks_lead (ws : list string) (c : ascii) (rest : string) :
  Forall (fun w => In w whiteSpace) ws -> cat ws = String c rest ->
  nat_of_ascii c < 128 \/ 191 < nat_of_ascii c.
Proof.
  intros [|w ws' Hw _]; [discriminate|].
  change (cat (w :: ws')) with (w ++ cat ws')%string.
  destruct w as [|a w0]; [now elim (whiteSpace_nonempty _ Hw)|].
  intros [= -> _]. exact (whiteSpace_lead _ _ _ Hw eq_refl).
Qed.

(** No white space begins in [s] and ends in the run of white space
    after it. *)
Lemma spaceAt_before_blanks (ws : list string) (s : string) :
  Forall (fun w => In w whiteSpace) ws -> s <> EmptyString ->
  find (fun w => prefix w (s ++ cat ws)) whiteSpace = find (fun w => prefix w s) whiteSpace.
Proof.
  intros Hws Hs. apply find_ext_in. intros w Hw.
  destruct (prefix w s) eqn:Hp; [now apply prefix_app|].
  destruct (prefix w (s ++ cat ws)) eqn:Hpq; [|reflexivity].
  apply prefix_boundary in Hpq as [Hp'|(w2 & -> & Hq)]; [congruence|].
  destruct w2 as [|c w2].
  - pose proof (prefix_append s EmptyString) as Hself.
    rewrite append_empty in Hp, Hself. congruence.
  - destruct (cat ws) as [|c' b] eqn:Hb; [discriminate|].
    simpl in Hq. destruct (ascii_dec c c') as [<-|]; [|discriminate].
    pose proof (blanks_lead ws c b Hws Hb) as Hlead.
    assert (Hcont : 128 <= nat_of_ascii c <= 191).
    { apply (whiteSpace_continuation _ _ Hw).
      destruct s as [|a s]; [now elim Hs|].
      simpl. rewrite list_of_append. apply in_or_app. right. now left. }
    lia.
Qed.

Lemma trim_before_blanks (ws : list string) (s : string) :
  Forall (fun w => In w whiteSpace) ws -> trim (s ++ cat ws) = trim s.
Proof.
  intros Hws. remember (String.length s) as n eqn:Hn.
  revert s Hn. induction n as [n IH] using lt_wf_ind. intros s ->.
  destruct s as [|a s].
  - unfold trim. change (EmptyString ++ cat ws)%string with (cat ws).
    rewrite <- (append_empty (cat ws)). now rewrite trimStart_blanks.
  - assert (Hne : String a s <> EmptyString) by discriminate.
    pose proof (spaceAt_before_blanks ws _ Hws Hne) as Hfind.
    destruct (find (fun w => prefix w (String a s)) whiteSpace) as [w|] eqn:Hw.
    + apply find_some in Hw as [Hin Hpre].
      apply prefix_split in Hpre as (rest & Hrest). rewrite Hrest.
      unfold trim. rewrite append_assoc3, !(trimStart_whiteSpace _ _ Hin).
      apply (IH (String.length rest)); [|reflexivity].
      rewrite Hrest, length_append.
      pose proof (whiteSpace_nonempty _ Hin). destruct w; [congruence | simpl; lia].
    + unfold trim, trimStart.
      rewrite (dropSpaces_fixed whiteSpace (String a s ++ cat ws))
        by (unfold spaceAt; now rewrite Hfind).
      rewrite (dropSpaces_fixed whiteSpace (String a s))
        by (unfold spaceAt; now rewrite Hw).
      now apply trimEnd_blanks.
Qed.

(** White space around a string is white space the trimming drops. *)
Lemma trim_between_blanks (ws1 ws2 : list string) (s : string) :
  Forall (fun w => In w whiteSpace) ws1 -> Forall (fun w => In w whiteSpace) ws2 ->
  trim (cat ws1 ++ s ++ cat ws2) = trim s.
Proof.
  intros H1 H2. rewrite <- (trim_before_blanks ws2 s H2).
  unfold trim. now rewrite trimStart_blanks.
Qed.

Lemma isAscii_asciiLowerCase (s : string) : isAscii (asciiLowerCase s) = isAscii s.
Proof.
  unfold isAscii. induction s as [|c s IH]; [reflexivity|].
  change (asciiLowerCase (String c s)) with (String (lowerChar c) (asciiLowerCase s)).
  cbn [list_ascii_of_string forallb]. rewrite IH. f_equal.
  destruct c as [[] [] [] [] [] [] [] []]; reflexivity.
Qed.

(** X21. The key under which a subscriber is stored, looked up and
    removed does not depend on white space around the email, white
    space being any run of the code points that [trim] strips (the tab,
    the line terminators, the space, the no-break space, the byte order
    mark and the other space separators).  When lower-casing obeys its
    laws, the key is in normal form: it has no white space at either
    end and normalizing it again changes nothing; and the key of an
    email of ASCII characters is the trimmed email with its letters A
    to Z folded, the same whatever the case of its letters. *)
Theorem normEmail_ignores_case_and_outer_space {E : Engine} (ws1 ws2 : list string)
    (s : string) :
  Forall (fun w => In w whiteSpace) ws1 -> Forall (fun w => In w whiteSpace) ws2 ->
  normEmail (VStr (cat ws1 ++ s ++ cat ws2)) = normEmail (VStr s) /\
  (Lawful E ->
   trim (normEmail (VStr s)) = normEmail (VStr s) /\
   normEmail (VStr (normEmail (VStr s))) = normEmail (VStr s) /\
   (isAscii s = true ->
    normEmail (VStr s) = asciiLowerCase (trim s) /\
    normEmail (VStr (asciiLowerCase s)) = normEmail (VStr s))).
Proof.
  intros H1 H2. split.
  - unfold normEmail. cbn [ToString]. now rewrite (trim_between_blanks _ _ _ H1 H2).
  - intros HE. split; [|split].
    + unfold normEmail. cbn [ToString]. apply (lower_trimmed E HE), trim_idempotent.
    + now apply normEmail_idempotent.
    + intros Hs. split; [now apply normEmail_ascii|].
      rewrite !normEmail_ascii by (rewrite ?isAscii_asciiLowerCase; assumption).
      now rewrite trim_asciiLowerCase, asciiLowerCase_idempotent.
Qed.

(** X21 at three spellings of one email, the first between a space, a
    tab and a no-break space before it and a line feed and an
    ideographic space after it. *)
Lemma spellings_of_one_email :
  let E := asciiEngine in
  let before := [utf8 [32]; utf8 [9]; utf8 [194; 160]] in
  let after := [utf8 [10]; utf8 [227; 128; 128]] in
  (Forall (fun w => In w whiteSpace) before /\ Forall (fun w => In w whiteSpace) after /\
   Lawful E /\ isAscii "Ann.Lee@Example.COM" = true) /\
  normEmail (VStr (cat before ++ "Ann.Lee@Example.COM" ++ cat after)) = "ann.lee@example.com" /\
  normEmail (VStr "Ann.Lee@Example.COM") = "ann.lee@example.com" /\
  normEmail (VStr "ann.lee@example.com") = "ann.lee@example.com".
Proof.
  intros E. subst E. cbv zeta.
  assert (H1 : Forall (fun w => In w whiteSpace) [utf8 [32]; utf8 [9]; utf8 [194; 160]]).
  { repeat (apply Forall_cons; [unfold whiteSpace; cbn [In]; pick_piece|]).
    apply Forall_nil. }
  assert (H2 : Forall (fun w => In w whiteSpace) [utf8 [10]; utf8 [227; 128; 128]]).
  { repeat (apply Forall_cons; [unfold whiteSpace; cbn [In]; pick_piece|]).
    apply Forall_nil. }
  split; [split; [exact H1 | split; [exact H2 | split; [exact asciiEngine_lawful | reflexivity]]]|].
  destruct (normEmail_ignores_case_and_outer_space (E := asciiEngine) _ _
              "Ann.Lee@Example.COM" H1 H2) as (Hspace & Hlaw).
  destruct (Hlaw asciiEngine_lawful) as (_ & _ & Hascii).
  destruct (Hascii eq_refl) as (Hkey & _).
  split; [rewrite Hspace, Hkey; vm_compute; reflexivity|].
  split; [rewrite Hkey; vm_compute; reflexivity | vm_compute; reflexivity].
Defined.
